(** * dynamics_and_models.py: vehicle dynamics, environment model and
    reference path of the intersection-crossing scenario.

    Numeric arrays are modelled over the real numbers: a float is a real,
    rounding and overflow are left out.  The two numpy operations that leave
    the reals on real inputs, division by zero and the square root of a
    negative number, return what numpy returns there ([inf], [nan]), in the
    type [npfloat].  A batch, the leading axis of every array, is a list of
    rows; the functions of the source act on each row alone, and a function
    named [f_row] is the action of [f] on one row.  Where a function combines
    two batches, the batch function adds what numpy does with their lengths:
    it broadcasts a batch of one row or raises [ValueError].  An empty batch
    is taken to have the columns that a function reads.  Integers that index
    an array are numpy's int64; the model covers the indices of that range.
    Python exceptions are values of the type [exn]. *)

From Stdlib Require Import String Reals Lra Lia ZArith Bool List.
Import ListNotations.

Open Scope R_scope.

(** ** Python and numpy primitives *)

Inductive exn : Type :=
| NameError (name : string)
| IndexError
| ValueError
| AssertionError
| ZeroDivisionError.

Inductive result (A : Type) : Type :=
| Ok (a : A)
| Raise (e : exn).

Arguments Ok {A} a.
Arguments Raise {A} e.

Definition bind {A B : Type} (m : result A) (k : A -> result B) : result B :=
  match m with
  | Ok a => k a
  | Raise e => Raise e
  end.

Notation "x <- m ;; k" := (bind m (fun x => k))
  (at level 61, m at next level, right associativity).

(** [f] on every row of a batch; the first exception ends the call. *)
Fixpoint batch {A B : Type} (f : A -> result B) (rows : list A) : result (list B) :=
  match rows with
  | [] => Ok []
  | row :: rows' => b <- f row ;; bs <- batch f rows' ;; Ok (b :: bs)
  end.

(** Comparisons of two floats, as booleans. *)
Definition np_lt (x y : R) : bool := if Rlt_dec x y then true else false.
Definition np_gt (x y : R) : bool := np_lt y x.

(** [np.where(cond, a, b)] on one element. *)
Definition np_where {A : Type} (cond : bool) (a b : A) : A :=
  if cond then a else b.

Definition logical_and (p q : bool) : bool := p && q.

(** [np.square]. *)
Definition np_square (x : R) : R := x * x.

(** [np.clip(x, lo, hi)], which numpy computes as [minimum(maximum(x, lo), hi)]. *)
Definition np_clip (x lo hi : R) : R := Rmin (Rmax x lo) hi.

(** A float that an operation of numpy returns on real arguments. *)
Inductive npfloat : Type :=
| Fin (r : R)
| PInf
| NInf
| NaN.

(** [x / y] on reals: numpy returns [inf], [-inf] or [nan] on a zero
    denominator (with a warning, no exception). *)
Definition np_div (x y : R) : npfloat :=
  if Req_dec_T y 0
  then (if Rlt_dec 0 x then PInf else if Rlt_dec x 0 then NInf else NaN)
  else Fin (x / y).

(** [x / y] for a float [x] that may already be [inf] or [nan]. *)
Definition np_fdiv (x : npfloat) (y : R) : npfloat :=
  match x with
  | Fin r => np_div r y
  | PInf => if Rlt_dec y 0 then NInf else PInf
  | NInf => if Rlt_dec y 0 then PInf else NInf
  | NaN => NaN
  end.

(** [x - y] for a float [x] that may already be [inf] or [nan]. *)
Definition np_fsub (x : npfloat) (y : R) : npfloat :=
  match x with
  | Fin r => Fin (r - y)
  | other => other
  end.

(** [np.sqrt]: [nan] on a negative argument (with a warning, no exception). *)
Definition np_sqrt (x : R) : npfloat :=
  if Rlt_dec x 0 then NaN else Fin (sqrt x).

(** [np.arctan], defined at both infinities. *)
Definition np_arctan (x : npfloat) : npfloat :=
  match x with
  | Fin r => Fin (atan r)
  | PInf => Fin (PI / 2)
  | NInf => Fin (- (PI / 2))
  | NaN => NaN
  end.

(** [np.clip] on a float that may be [inf] or [nan]; [nan] stays [nan]. *)
Definition np_fclip (x : npfloat) (lo hi : R) : npfloat :=
  match x with
  | Fin r => Fin (np_clip r lo hi)
  | PInf => Fin hi
  | NInf => Fin (Rmin lo hi)
  | NaN => NaN
  end.

(** [- x], [c + x] and [x * c] for a float [x] that may be [inf] or [nan]. *)
Definition np_fneg (x : npfloat) : npfloat :=
  match x with
  | Fin r => Fin (- r)
  | PInf => NInf
  | NInf => PInf
  | NaN => NaN
  end.

Definition np_fadd (c : R) (x : npfloat) : npfloat :=
  match x with
  | Fin r => Fin (c + r)
  | other => other
  end.

Definition np_fmul (x : npfloat) (c : R) : npfloat :=
  match x with
  | Fin r => Fin (r * c)
  | PInf => if Rlt_dec 0 c then PInf else if Rlt_dec c 0 then NInf else NaN
  | NInf => if Rlt_dec 0 c then NInf else if Rlt_dec c 0 then PInf else NaN
  | NaN => NaN
  end.

(** [x > c] and [x <= c]; every comparison with [nan] is false. *)
Definition np_fgt (x : npfloat) (c : R) : bool :=
  match x with
  | Fin r => np_gt r c
  | PInf => true
  | NInf => false
  | NaN => false
  end.

Definition np_fle (x : npfloat) (c : R) : bool :=
  match x with
  | Fin r => negb (np_gt r c)
  | PInf => false
  | NInf => true
  | NaN => false
  end.

(** [np.argmin] of one row: the first index of the least element; an empty
    row raises. *)
Fixpoint argmin_from (row : list R) (i best_i : nat) (best : R) : nat :=
  match row with
  | [] => best_i
  | v :: row' =>
      if np_lt v best then argmin_from row' (S i) i v
      else argmin_from row' (S i) best_i best
  end.

Definition np_argmin (row : list R) : result nat :=
  match row with
  | [] => Raise ValueError
  | v :: row' => Ok (argmin_from row' 1 0 v)
  end.

(** [np.arange(0, stop, step)] for integers [stop >= 0] and [step >= 0]; a
    zero step raises. *)
Definition np_arange (stop step : nat) : result (list nat) :=
  if Nat.eqb step 0 then Raise ZeroDivisionError
  else Ok (map (fun k => (k * step)%nat) (seq 0 ((stop + step - 1) / step))).

(** [a // b] and [a / b] on Python integers. *)
Definition py_floordiv (a b : Z) : result Z :=
  if (b =? 0)%Z then Raise ZeroDivisionError else Ok (a / b)%Z.

Definition py_truediv (a b : Z) : result R :=
  if (b =? 0)%Z then Raise ZeroDivisionError else Ok (IZR a / IZR b).

(** [row[i]] for a column index [i] written as a literal in the source. *)
Definition col {A : Type} (row : list A) (i : nat) : result A :=
  match nth_error row i with
  | Some v => Ok v
  | None => Raise IndexError
  end.

(** [arr[i]] for a Python integer [i]: negative indices count from the end. *)
Definition py_index {A : Type} (arr : list A) (i : Z) : result A :=
  let n := Z.of_nat (length arr) in
  if (0 <=? i)%Z && (i <? n)%Z then col arr (Z.to_nat i)
  else if (- n <=? i)%Z && (i <? 0)%Z then col arr (Z.to_nat (n + i))
  else Raise IndexError.

(** [row[lo:hi]] and [row[lo:]]; a slice never raises. *)
Definition slice {A : Type} (row : list A) (lo hi : nat) : list A :=
  firstn (hi - lo) (skipn lo row).
Definition slice_from {A : Type} (row : list A) (lo : nat) : list A :=
  skipn lo row.

(** [u + v] and [u - v] of two rows with numpy's broadcasting along the
    columns: equal lengths, or one of the two of length one. *)
Definition zipw (op : R -> R -> R) (u v : list R) : list R :=
  map (fun p => op (fst p) (snd p)) (combine u v).

Definition broadcast2 (op : R -> R -> R) (u v : list R) : result (list R) :=
  if Nat.eqb (length u) (length v) then Ok (zipw op u v)
  else match u, v with
       | [a], _ => Ok (map (fun b => op a b) v)
       | _, [b] => Ok (map (fun a => op a b) u)
       | _, _ => Raise ValueError
       end.

(** [np.tile(block, (1, k))] on one row. *)
Fixpoint np_tile {A : Type} (block : list A) (k : nat) : list A :=
  match k with
  | O => []
  | S k' => block ++ np_tile block k'
  end.

(** ** Names a function body can read *)

Inductive pyval : Type :=
| PyNone
| PyInt (z : Z)
| PyStr (s : string)
| PyObj (name : string).

Definition scope : Type := list (string * pyval).

Fixpoint lookup (name : string) (sc : scope) : option pyval :=
  match sc with
  | [] => None
  | (n, v) :: sc' => if String.eqb n name then Some v else lookup name sc'
  end.

(** Reading a name: the local scope, then the module's globals, then the
    builtins; a name bound in none of them raises [NameError]. *)
Definition load_name (locals globals builtins : scope) (name : string) : result pyval :=
  match lookup name locals with
  | Some v => Ok v
  | None =>
      match lookup name globals with
      | Some v => Ok v
      | None =>
          match lookup name builtins with
          | Some v => Ok v
          | None => Raise (NameError name)
          end
      end
  end.

Definition named (names : list string) : scope :=
  map (fun n => (n, PyObj n)) names.

(** The names bound at the top level of the module: its imports, classes and
    functions. *)
Definition module_globals : scope :=
  named ["pi"; "cos"; "sin"; "bezier"; "plt"; "np"; "logical_and";
         "rotate_coordination"; "L"; "W"; "CROSSROAD_SIZE"; "LANE_WIDTH";
         "LANE_NUMBER"; "VEHICLE_MODE_LIST"; "VehicleDynamics";
         "EnvironmentModel"; "deal_with_phi_diff"; "ReferencePath";
         "test_ref_path"; "test_future_n_data"; "test_tracking_error_vector";
         "test_model"; "test_tf_function"; "test_tffunc"; "test_ref"]%string.

(** The builtins the module refers to. *)
Definition builtins : scope :=
  named ["object"; "dict"; "int"; "len"; "range"; "enumerate"; "iter"; "next";
         "list"; "type"; "print"; "None"; "True"; "False"]%string.

(** ** What the module takes from outside *)

(** A path: the arrays of x, y and heading of its samples. *)
Definition path_t : Type := (list R * list R * list R)%type.

(** The constants imported from [endtoend_env_utils], the candidate paths that
    [_construct_ref_path] samples with the [bezier] library for each task, and
    the draw of [np.random.choice]. *)
Record outside : Type := {
  L : R;
  W : R;
  CROSSROAD_SIZE : R;
  LANE_WIDTH : R;
  LANE_NUMBER : nat;
  planed_trjs : string -> list path_t;
  random_choice : nat -> nat
}.

(** ** class VehicleDynamics *)

Module VehicleDynamics.

(** [self.vehicle_params]: [__init__] takes no argument and stores the same
    literals in every instance. *)
Definition C_f : R := -128915.5.
Definition C_r : R := -85943.6.
Definition a : R := 1.06.
Definition b : R := 1.85.
Definition mass : R := 1412.
Definition I_z : R := 1536.7.
Definition miu : R := 1.0.
Definition g : R := 9.81.
Definition F_zf : R := b * mass * g / (a + b).
Definition F_zr : R := a * mass * g / (a + b).

(** The longitudinal forces of [f_xu], for one commanded acceleration. *)
Definition F_xf (a_x : R) : R := np_where (np_lt a_x 0) (mass * a_x / 2) 0.
Definition F_xr (a_x : R) : R := np_where (np_lt a_x 0) (mass * a_x / 2) (mass * a_x).

(** The tire diagnostics of [f_xu]. *)
Definition miu_f (a_x : R) : npfloat :=
  np_fdiv (np_sqrt (np_square (miu * F_zf) - np_square (F_xf a_x))) F_zf.
Definition miu_r (a_x : R) : npfloat :=
  np_fdiv (np_sqrt (np_square (miu * F_zr) - np_square (F_xr a_x))) F_zr.
Definition alpha_f (v_x v_y r steer : R) : npfloat :=
  np_fsub (np_arctan (np_div (v_y + a * r) (v_x + 1e-8))) steer.
Definition alpha_r (v_x v_y r : R) : npfloat :=
  np_arctan (np_div (v_y - b * r) (v_x + 1e-8)).

(** [f_xu] on one row of [states] and the matching row of [actions]: the
    next state and the row [alpha_f, alpha_r, miu_f, miu_r]. *)
Definition f_xu_row (states actions : list R) (tau : R)
  : result (list npfloat * list npfloat) :=
  v_x <- col states 0 ;;
  v_y <- col states 1 ;;
  r <- col states 2 ;;
  x <- col states 3 ;;
  y <- col states 4 ;;
  phi <- col states 5 ;;
  let phi := phi * PI / 180 in
  steer <- col actions 0 ;;
  a_x <- col actions 1 ;;
  let next_state :=
    [ Fin (v_x + tau * (a_x + v_y * r));
      np_div (mass * v_y * v_x + tau * (a * C_f - b * C_r) * r
              - tau * C_f * steer * v_x - tau * mass * np_square v_x * r)
             (mass * v_x - tau * (C_f + C_r));
      np_div (- I_z * r * v_x - tau * (a * C_f - b * C_r) * v_y
              + tau * a * C_f * steer * v_x)
             (tau * (np_square a * C_f + np_square b * C_r) - I_z * v_x);
      Fin (x + tau * (v_x * cos phi - v_y * sin phi));
      Fin (y + tau * (v_x * sin phi + v_y * cos phi));
      Fin ((phi + tau * r) * 180 / PI) ] in
  Ok (next_state,
      [alpha_f v_x v_y r steer; alpha_r v_x v_y r; miu_f a_x; miu_r a_x]).

(** [f_xu] on a batch.  The columns of [states], then those of [actions],
    are read first.  With batches of different lengths the arithmetic or one
    of the two [np.stack] raises [ValueError], also when one batch has a
    single row: the columns stacked do not all depend on both batches. *)
Definition f_xu (states actions : list (list R)) (tau : R)
  : result (list (list npfloat) * list (list npfloat)) :=
  _ <- batch (fun s => col s 5) states ;;
  _ <- batch (fun u => col u 1) actions ;;
  if Nat.eqb (length states) (length actions) then
    rows <- batch (fun su => f_xu_row (fst su) (snd su) tau) (combine states actions) ;;
    Ok (map fst rows, map snd rows)
  else Raise ValueError.

(** [prediction]: one step of [1 / frequency] seconds; [frequency] is a
    Python float, so a zero frequency raises. *)
Definition prediction_row (x_1 u_1 : list R) (frequency : R)
  : result (list npfloat * list npfloat) :=
  if Req_dec_T frequency 0 then Raise ZeroDivisionError
  else f_xu_row x_1 u_1 (1 / frequency).

Definition prediction (x_1 u_1 : list (list R)) (frequency : R)
  : result (list (list npfloat) * list (list npfloat)) :=
  if Req_dec_T frequency 0 then Raise ZeroDivisionError
  else f_xu x_1 u_1 (1 / frequency).

End VehicleDynamics.

(** ** class ReferencePath *)

Module ReferencePath.

Record t : Type := {
  task : string;
  path_list : list path_t;
  ref_index : nat;
  path : path_t
}.

(** [_construct_ref_path]: the three tasks build their candidate paths, any
    other task fails the assertion of the last branch. *)
Definition _construct_ref_path (O : outside) (task : string) : result (list path_t) :=
  if String.eqb task "left" then Ok (planed_trjs O task)
  else if String.eqb task "straight" then Ok (planed_trjs O task)
  else if String.eqb task "right" then Ok (planed_trjs O task)
  else Raise AssertionError.

(** [__init__]: without a [ref_index] the active path is drawn at random,
    and [np.random.choice(0)] raises. *)
Definition init (O : outside) (task : string) (ref_index : option nat) : result t :=
  path_list <- _construct_ref_path O task ;;
  ref_index <-
    match ref_index with
    | Some i => Ok i
    | None => if Nat.eqb (length path_list) 0 then Raise ValueError
              else Ok (random_choice O (length path_list))
    end ;;
  path <- col path_list ref_index ;;
  Ok {| task := task; path_list := path_list; ref_index := ref_index; path := path |}.

(** [len(self.path[0])]. *)
Definition path_len (self : t) : Z :=
  Z.of_nat (length (fst (fst (path self)))).

(** [indexs2points] for one index.  numpy holds [indexs] as an int64: the
    definition is the function on the indices of that range. *)
Definition indexs2points (self : t) (indexs : Z) : result (R * R * R) :=
  let indexs := np_where (0 <=? indexs)%Z indexs 0%Z in
  let indexs := np_where (indexs <? path_len self)%Z indexs (path_len self - 1)%Z in
  p0 <- py_index (fst (fst (path self))) indexs ;;
  p1 <- py_index (snd (fst (path self))) indexs ;;
  p2 <- py_index (snd (path self)) indexs ;;
  Ok (p0, p1, p2).

(** The body of the loop of [future_n_data], run [k] times. *)
Fixpoint future_n_loop (self : t) (k : nat) (current_indexs : Z)
  : result (list (R * R * R)) :=
  match k with
  | O => Ok []
  | S k' =>
      let current_indexs := (current_indexs + 80)%Z in
      let current_indexs :=
        np_where (path_len self - 2 <=? current_indexs)%Z
                 (path_len self - 2)%Z current_indexs in
      point <- indexs2points self current_indexs ;;
      future_data_list <- future_n_loop self k' current_indexs ;;
      Ok (point :: future_data_list)
  end.

(** [future_n_data]: [range(n)] is empty for a negative [n]. *)
Definition future_n_data (self : t) (current_indexs : Z) (n : Z)
  : result (list (R * R * R)) :=
  future_n_loop self (Z.to_nat n) current_indexs.

(** [find_closest_point] for one query point [(xs, ys)]: the index, a
    multiple of [ratio], of the nearest sample among every [ratio]-th one,
    and that sample. *)
Definition find_closest_point_row (self : t) (xs ys : R) (ratio : nat)
  : result (Z * (R * R * R)) :=
  let path_len := length (fst (fst (path self))) in
  reduced_idx <- np_arange path_len ratio ;;
  reduced_path_x <- batch (fun i => py_index (fst (fst (path self))) (Z.of_nat i))
                          reduced_idx ;;
  reduced_path_y <- batch (fun i => py_index (snd (fst (path self))) (Z.of_nat i))
                          reduced_idx ;;
  let dist_array :=
    map (fun p => np_square (xs - fst p) + np_square (ys - snd p))
        (combine reduced_path_x reduced_path_y) in
  k <- np_argmin dist_array ;;
  let indexs := Z.of_nat (k * ratio) in
  points <- indexs2points self indexs ;;
  Ok (indexs, points).

(** The function [two2one] inside [tracking_error_vector], for one ego
    position and one reference point.  Each square root is taken of a sum of
    two squares. *)
Definition two2one (O : outside) (self : t) (ego_xs ego_ys ref_xs ref_ys : R)
  : result R :=
  let CS := CROSSROAD_SIZE O in
  if String.eqb (task self) "left" then
    let delta_ :=
      sqrt (np_square (ego_xs - (- CS / 2)) + np_square (ego_ys - (- CS / 2)))
      - sqrt (np_square (ref_xs - (- CS / 2)) + np_square (ref_ys - (- CS / 2))) in
    let delta_ := np_where (np_lt ego_ys (- CS / 2)) (ego_xs - ref_xs) delta_ in
    let delta_ := np_where (np_lt ego_xs (- CS / 2)) (ego_ys - ref_ys) delta_ in
    Ok (- delta_)
  else if String.eqb (task self) "straight" then
    let delta_ := ego_xs - ref_xs in
    Ok (- delta_)
  else if String.eqb (task self) "right" then
    let delta_ :=
      - (sqrt (np_square (ego_xs - CS / 2) + np_square (ego_ys - (- CS / 2)))
         - sqrt (np_square (ref_xs - CS / 2) + np_square (ref_ys - (- CS / 2)))) in
    let delta_ := np_where (np_lt ego_ys (- CS / 2)) (ego_xs - ref_xs) delta_ in
    let delta_ := np_where (np_gt ego_xs (CS / 2)) (- (ego_ys - ref_ys)) delta_ in
    Ok (- delta_)
  else Raise AssertionError.

End ReferencePath.

(** ** class EnvironmentModel *)

Module EnvironmentModel.

(** The attributes that [__init__] sets to a literal. *)
Definition base_frequency : R := 10.
Definition exp_v : R := 8.
Definition ego_info_dim : nat := 6.
Definition per_veh_info_dim : nat := 4.
Definition per_veh_cstr_dim : nat := 4.
Definition per_tracking_info_dim : nat := 3.

(** The attributes that depend on the arguments of [__init__]; the ones it
    sets to [None] are left out. *)
Record t : Type := {
  task : string;
  ref_path : ReferencePath.t;
  num_future_data : nat;
  rewards_mode : pyval
}.

(** [__init__(self, task, num_future_data=0, costs_mode='penalty')].  The
    right-hand sides read the parameters, except the one of
    [self.rewards_mode = rewards_mode], which reads a name that is no
    parameter. *)
Definition init (O : outside) (task : string) (num_future_data : nat)
  (costs_mode : string) : result t :=
  let locals : scope :=
    [ ("self", PyObj "EnvironmentModel"); ("task", PyStr task);
      ("num_future_data", PyInt (Z.of_nat num_future_data));
      ("costs_mode", PyStr costs_mode) ]%string in
  ref_path <- ReferencePath.init O task None ;;
  rewards_mode <- load_name locals module_globals builtins "rewards_mode" ;;
  Ok {| task := task; ref_path := ref_path;
        num_future_data := num_future_data; rewards_mode := rewards_mode |}.

Definition _action_transformation_for_end2end_row (actions : list R) : result (list R) :=
  let actions := map (fun x => np_clip x (-1.05) 1.05) actions in
  steer_norm <- col actions 0 ;;
  a_xs_norm <- col actions 1 ;;
  let steer_scale := 0.4 * steer_norm in
  let a_xs_scale := 3 * a_xs_norm - 1 in
  Ok [steer_scale; a_xs_scale].

(** The three slices [ego_infos, tracking_infos, veh_infos] of a row. *)
Definition segments (self : t) (obses : list R) : list R * list R * list R :=
  (slice obses 0 ego_info_dim,
   slice obses ego_info_dim
         (ego_info_dim + per_tracking_info_dim * (num_future_data self + 1)),
   slice_from obses
         (ego_info_dim + per_tracking_info_dim * (num_future_data self + 1))).

Definition convert_vehs_to_rela_row (self : t) (obs_abso : list R) : result (list R) :=
  let '(ego_infos, tracking_infos, veh_infos) := segments self obs_abso in
  ego_x <- col ego_infos 3 ;;
  ego_y <- col ego_infos 4 ;;
  let ego := np_tile [ego_x; ego_y; 0; 0] (length veh_infos / per_veh_info_dim) in
  vehs_rela <- broadcast2 Rminus veh_infos ego ;;
  Ok (ego_infos ++ tracking_infos ++ vehs_rela).

Definition convert_vehs_to_abso_row (self : t) (obs_rela : list R) : result (list R) :=
  let '(ego_infos, tracking_infos, veh_rela) := segments self obs_rela in
  ego_x <- col ego_infos 3 ;;
  ego_y <- col ego_infos 4 ;;
  let ego := np_tile [ego_x; ego_y; 0; 0] (length veh_rela / per_veh_info_dim) in
  vehs_abso <- broadcast2 Rplus veh_rela ego ;;
  Ok (ego_infos ++ tracking_infos ++ vehs_abso).

Definition convert_vehs_to_rela (self : t) (obs_abso : list (list R)) :=
  batch (convert_vehs_to_rela_row self) obs_abso.

Definition convert_vehs_to_abso (self : t) (obs_rela : list (list R)) :=
  batch (convert_vehs_to_abso_row self) obs_rela.

(** The two statements in the innermost loop of the vehicle-to-vehicle
    block: [acc] is [(veh2veh4training, veh2veh4real)].  The source reads
    [veh2veh_dist] here and neither [ego_point] nor [veh_point]. *)
Definition veh2veh_pair (veh2veh_dist : R) (acc : R * R) (ego_point veh_point : R * R)
  : R * R :=
  (fst acc + np_where (np_lt (veh2veh_dist - 3.5) 0) (np_square (veh2veh_dist - 3.5)) 0,
   snd acc + np_where (np_lt (veh2veh_dist - 2.5) 0) (veh2veh_dist - 2.5) 0).

(** The loop [for veh_index in range(veh_nums)], over the indices left. *)
Fixpoint veh2veh_loop (O : outside) (veh_infos : list R)
  (ego_front_points ego_rear_points : R * R) (veh2veh_dist : R)
  (veh_indexes : list nat) (acc : R * R) : result (R * R) :=
  match veh_indexes with
  | [] => Ok acc
  | veh_index :: rest =>
      let vehs := slice veh_infos (veh_index * per_veh_info_dim)
                        ((veh_index + 1) * per_veh_info_dim) in
      let veh_lws := (L O - W O) / 2 in
      vehs0 <- col vehs 0 ;;
      vehs1 <- col vehs 1 ;;
      vehs3 <- col vehs 3 ;;
      let veh_front_points := (vehs0 + veh_lws * cos (vehs3 * PI / 180),
                               vehs1 + veh_lws * sin (vehs3 * PI / 180)) in
      let veh_rear_points := (vehs0 - veh_lws * cos (vehs3 * PI / 180),
                              vehs1 - veh_lws * sin (vehs3 * PI / 180)) in
      let acc :=
        fold_left (fun acc ego_point =>
          fold_left (fun acc veh_point => veh2veh_pair veh2veh_dist acc ego_point veh_point)
                    [veh_front_points; veh_rear_points] acc)
          [ego_front_points; ego_rear_points] acc in
      veh2veh_loop O veh_infos ego_front_points ego_rear_points veh2veh_dist rest acc
  end.

(** [np.where(logical_and(c1, c2), np.square(e), zeros)]. *)
Definition road_term (c1 c2 : bool) (e : R) : R :=
  np_where (logical_and c1 c2) (np_square e) 0.

(** The vehicle-to-road block for one ego point: what it adds to
    [veh2road4training] and to [veh2road4real]. *)
Definition veh2road_point (O : outside) (task : string) (acc : R * R) (ego_point : R * R)
  : result (R * R) :=
  let p0 := fst ego_point in
  let p1 := snd ego_point in
  let CS := CROSSROAD_SIZE O in
  let LW := LANE_WIDTH O in
  let LN := INR (LANE_NUMBER O) in
  if String.eqb task "left" then
    let tr := fst acc in
    let tr := tr + road_term (np_lt p1 (- CS / 2)) (np_lt p0 1) (p0 - 1) in
    let tr := tr + road_term (np_lt p1 (- CS / 2)) (np_lt (LW - p0) 1) (LW - p0 - 1) in
    let tr := tr + road_term (np_lt p0 0) (np_lt (LW * LN - p1) 1) (LW * LN - p1 - 1) in
    let tr := tr + road_term (np_lt p0 (- CS / 2)) (np_lt (p1 - 0) 1) (p1 - 0 - 1) in
    let re := snd acc in
    let re := re + road_term (np_lt p1 (- CS / 2)) (np_lt p0 1) (p0 - 1) in
    let re := re + road_term (np_lt p1 (- CS / 2)) (np_lt (LW - p0) 1) (LW - p0 - 1) in
    let re := re + road_term (np_lt p0 (- CS / 2)) (np_lt (LW * LN - p1) 1) (LW * LN - p1 - 1) in
    let re := re + road_term (np_lt p0 (- CS / 2)) (np_lt (p1 - 0) 1) (p1 - 0 - 1) in
    Ok (tr, re)
  else if String.eqb task "straight" then
    let tr := fst acc in
    let tr := tr + road_term (np_lt p1 (- CS / 2)) (np_lt (p0 - LW) 1) (p0 - LW - 1) in
    let tr := tr + road_term (np_lt p1 (- CS / 2)) (np_lt (2 * LW - p0) 1) (2 * LW - p0 - 1) in
    let tr := tr + road_term (np_gt p1 (CS / 2)) (np_lt (LW * LN - p0) 1) (LW * LN - p0 - 1) in
    let tr := tr + road_term (np_gt p1 (CS / 2)) (np_lt (p0 - 0) 1) (p0 - 0 - 1) in
    let re := snd acc in
    let re := re + road_term (np_lt p1 (- CS / 2)) (np_lt (p0 - LW) 1) (p0 - LW - 1) in
    let re := re + road_term (np_lt p1 (- CS / 2)) (np_lt (2 * LW - p0) 1) (2 * LW - p0 - 1) in
    let re := re + road_term (np_gt p1 (CS / 2)) (np_lt (LW * LN - p0) 1) (LW * LN - p0 - 1) in
    let re := re + road_term (np_gt p1 (CS / 2)) (np_lt (p0 - 0) 1) (p0 - 0 - 1) in
    Ok (tr, re)
  else if String.eqb task "right" then
    let tr := fst acc in
    let tr := tr + road_term (np_lt p1 (- CS / 2)) (np_lt (p0 - 2 * LW) 1) (p0 - 2 * LW - 1) in
    let tr := tr + road_term (np_lt p1 (- CS / 2)) (np_lt (LN * LW - p0) 1) (LN * LW - p0 - 1) in
    let tr := tr + road_term (np_gt p0 (CS / 2)) (np_lt (0 - p1) 1) (0 - p1 - 1) in
    let tr := tr + road_term (np_gt p0 (CS / 2)) (np_lt (p1 - - (LW * LN)) 1) (p1 - - (LW * LN) - 1) in
    let re := snd acc in
    let re := re + road_term (np_lt p1 (- CS / 2)) (np_lt (p0 - 2 * LW) 1) (p0 - 2 * LW - 1) in
    let re := re + road_term (np_lt p1 (- CS / 2)) (np_lt (LN * LW - p0) 1) (LN * LW - p0 - 1) in
    let re := re + road_term (np_gt p0 (CS / 2)) (np_lt (0 - p1) 1) (0 - p1 - 1) in
    let re := re + road_term (np_gt p0 (CS / 2)) (np_lt (p1 - - (LW * LN)) 1) (p1 - - (LW * LN) - 1) in
    Ok (tr, re)
  else Raise AssertionError.

(** The loop [for ego_point in [ego_front_points, ego_rear_points]]. *)
Definition veh2road (O : outside) (task : string) (ego_front_points ego_rear_points : R * R)
  : result (R * R) :=
  acc <- veh2road_point O task (0, 0) ego_front_points ;;
  veh2road_point O task acc ego_rear_points.

(** The vehicle-to-vehicle block of [compute_rewards]:
    [(veh2veh4training, veh2veh4real)].  [veh2veh_dist] is the array of zeros
    the source allocates before the loop and never assigns again. *)
Definition veh2veh (O : outside) (ego_front_points ego_rear_points : R * R)
  (veh_infos : list R) : result (R * R) :=
  let veh_nums := (length veh_infos / per_veh_info_dim)%nat in
  _ <- col veh_infos 0 ;;
  let veh2veh4real := 0 in
  let veh2veh4training := 0 in
  let veh2veh_dist := 0 in
  veh2veh_loop O veh_infos ego_front_points ego_rear_points veh2veh_dist
               (seq 0 veh_nums) (veh2veh4training, veh2veh4real).

(** [compute_rewards] on one row: [(rewards, punish_term_for_training,
    real_punish_term, veh2veh4real, veh2road4real)]. *)
Definition compute_rewards_row (O : outside) (self : t) (obses actions : list R)
  : result (R * R * R * R * R) :=
  obses <- convert_vehs_to_abso_row self obses ;;
  let '(ego_infos, tracking_infos, veh_infos) := segments self obses in
  steers <- col actions 0 ;;
  a_xs <- col actions 1 ;;
  let punish_steer := - np_square steers in
  let punish_a_x := - np_square a_xs in
  ego2 <- col ego_infos 2 ;;
  let punish_yaw_rate := - np_square ego2 in
  tracking0 <- col tracking_infos 0 ;;
  tracking1 <- col tracking_infos 1 ;;
  tracking2 <- col tracking_infos 2 ;;
  let devi_y := - np_square tracking0 in
  let devi_phi := - np_square (tracking1 * PI / 180) in
  let devi_v := - np_square tracking2 in
  let ego_lws := (L O - W O) / 2 in
  ego3 <- col ego_infos 3 ;;
  ego4 <- col ego_infos 4 ;;
  ego5 <- col ego_infos 5 ;;
  let ego_front_points := (ego3 + ego_lws * cos (ego5 * PI / 180),
                           ego4 + ego_lws * sin (ego5 * PI / 180)) in
  let ego_rear_points := (ego3 - ego_lws * cos (ego5 * PI / 180),
                          ego4 - ego_lws * sin (ego5 * PI / 180)) in
  v2v <- veh2veh O ego_front_points ego_rear_points veh_infos ;;
  let veh2veh4training := fst v2v in
  let veh2veh4real := snd v2v in
  v2r <- veh2road O (task self) ego_front_points ego_rear_points ;;
  let veh2road4training := fst v2r in
  let veh2road4real := snd v2r in
  let rewards := 0.05 * devi_v + 0.8 * devi_y + 30 * devi_phi
                 + 0.02 * punish_yaw_rate + 5 * punish_steer + 0.05 * punish_a_x in
  let punish_term_for_training := veh2veh4training + veh2road4training in
  let real_punish_term := veh2veh4real + veh2road4real in
  Ok (rewards, punish_term_for_training, real_punish_term, veh2veh4real, veh2road4real).

(** The columns of [actions] that [compute_rewards] reads, on one row:
    [(punish_steer, punish_a_x)]. *)
Definition action_terms (actions : list R) : result (R * R) :=
  steers <- col actions 0 ;;
  a_xs <- col actions 1 ;;
  Ok (- np_square steers, - np_square a_xs).

(** What [compute_rewards] computes from one converted observation row: the
    terms of the reward that read the observation, and the four penalty
    channels. *)
Definition observation_terms (O : outside) (self : t) (obses : list R)
  : result (R * R * R * R * R) :=
  let '(ego_infos, tracking_infos, veh_infos) := segments self obses in
  ego2 <- col ego_infos 2 ;;
  let punish_yaw_rate := - np_square ego2 in
  tracking0 <- col tracking_infos 0 ;;
  tracking1 <- col tracking_infos 1 ;;
  tracking2 <- col tracking_infos 2 ;;
  let devi_y := - np_square tracking0 in
  let devi_phi := - np_square (tracking1 * PI / 180) in
  let devi_v := - np_square tracking2 in
  let ego_lws := (L O - W O) / 2 in
  ego3 <- col ego_infos 3 ;;
  ego4 <- col ego_infos 4 ;;
  ego5 <- col ego_infos 5 ;;
  let ego_front_points := (ego3 + ego_lws * cos (ego5 * PI / 180),
                           ego4 + ego_lws * sin (ego5 * PI / 180)) in
  let ego_rear_points := (ego3 - ego_lws * cos (ego5 * PI / 180),
                          ego4 - ego_lws * sin (ego5 * PI / 180)) in
  v2v <- veh2veh O ego_front_points ego_rear_points veh_infos ;;
  let veh2veh4training := fst v2v in
  let veh2veh4real := snd v2v in
  v2r <- veh2road O (task self) ego_front_points ego_rear_points ;;
  let veh2road4training := fst v2r in
  let veh2road4real := snd v2r in
  Ok (0.05 * devi_v + 0.8 * devi_y + 30 * devi_phi + 0.02 * punish_yaw_rate,
      veh2veh4training + veh2road4training, veh2veh4real + veh2road4real,
      veh2veh4real, veh2road4real).

(** The rows of the two batches in order: each observation row through the
    conversion and its terms, each action row through its columns, a row of
    [obses] and the row of [actions] at the same place in the order of the
    source. *)
Fixpoint batch_terms (O : outside) (self : t) (obses actions : list (list R))
  : result (list (R * R * R * R * R) * list (R * R)) :=
  match obses with
  | [] => a <- batch action_terms actions ;; Ok ([], a)
  | obs :: obses' =>
      match actions with
      | [] =>
          obs <- convert_vehs_to_abso_row self obs ;;
          t <- observation_terms O self obs ;;
          rest <- batch_terms O self obses' [] ;;
          Ok (t :: fst rest, snd rest)
      | u :: actions' =>
          obs <- convert_vehs_to_abso_row self obs ;;
          a <- action_terms u ;;
          t <- observation_terms O self obs ;;
          rest <- batch_terms O self obses' actions' ;;
          Ok (t :: fst rest, a :: snd rest)
      end
  end.

(** [compute_rewards] on a batch: the five arrays [(rewards,
    punish_term_for_training, real_punish_term, veh2veh4real,
    veh2road4real)].  The penalties have one element for each observation;
    the sum of the reward adds arrays of the observation batch and arrays of
    the action batch, with numpy's broadcasting. *)
Definition compute_rewards (O : outside) (self : t) (obses actions : list (list R))
  : result (list R * list R * list R * list R * list R) :=
  terms <- batch_terms O self obses actions ;;
  let punish_steer := map fst (snd terms) in
  let punish_a_x := map snd (snd terms) in
  r <- broadcast2 Rplus (map (fun t => fst (fst (fst (fst t)))) (fst terms))
                        (map (Rmult 5) punish_steer) ;;
  rewards <- broadcast2 Rplus r (map (Rmult 0.05) punish_a_x) ;;
  Ok (rewards,
      map (fun t => snd (fst (fst (fst t)))) (fst terms),
      map (fun t => snd (fst (fst t))) (fst terms),
      map (fun t => snd (fst t)) (fst terms),
      map (fun t => snd t) (fst terms)).

(** The layout of one observation row: the ego segment, the tracking
    segment of the current and the future reference points, and four columns
    for each of [V] other vehicles. *)
Definition well_formed (self : t) (V : nat) (obs : list R) : Prop :=
  length obs = (ego_info_dim + per_tracking_info_dim * (num_future_data self + 1)
                + per_veh_info_dim * V)%nat.

Definition ego_predict_row (self : t) (ego_infos actions : list R) : result (list npfloat) :=
  pr <- VehicleDynamics.prediction_row (slice ego_infos 0 6) actions base_frequency ;;
  let ego_next_infos := fst pr in
  v_xs <- col ego_next_infos 0 ;;
  v_ys <- col ego_next_infos 1 ;;
  rs <- col ego_next_infos 2 ;;
  xs <- col ego_next_infos 3 ;;
  ys <- col ego_next_infos 4 ;;
  phis <- col ego_next_infos 5 ;;
  let v_xs := np_fclip v_xs 0 35 in
  Ok [v_xs; v_ys; rs; xs; ys; phis].

(** The lines of [ego_predict] after the prediction, on one predicted row. *)
Definition ego_clip_row (ego_next_infos : list npfloat) : result (list npfloat) :=
  v_xs <- col ego_next_infos 0 ;;
  v_ys <- col ego_next_infos 1 ;;
  rs <- col ego_next_infos 2 ;;
  xs <- col ego_next_infos 3 ;;
  ys <- col ego_next_infos 4 ;;
  phis <- col ego_next_infos 5 ;;
  let v_xs := np_fclip v_xs 0 35 in
  Ok [v_xs; v_ys; rs; xs; ys; phis].

(** [ego_predict] on a batch: the prediction of [VehicleDynamics] on the
    first six columns, which raises on batches of different lengths, then the
    clip row by row. *)
Definition ego_predict (self : t) (ego_infos actions : list (list R))
  : result (list (list npfloat)) :=
  pr <- VehicleDynamics.prediction (map (fun row => slice row 0 6) ego_infos) actions
                                   base_frequency ;;
  batch ego_clip_row (fst pr).

(** [predict_for_a_mode] on the four columns of one vehicle. *)
Definition predict_for_a_mode_row (O : outside) (vehs : list R) (mode : string)
  : result (list npfloat) :=
  veh_xs <- col vehs 0 ;;
  veh_ys <- col vehs 1 ;;
  veh_vs <- col vehs 2 ;;
  veh_phis <- col vehs 3 ;;
  let CS := CROSSROAD_SIZE O in
  let LW := LANE_WIDTH O in
  let veh_phis_rad := veh_phis * PI / 180 in
  let middle_cond :=
    logical_and (logical_and (np_gt veh_xs (- CS / 2)) (np_lt veh_xs (CS / 2)))
                (logical_and (np_gt veh_ys (- CS / 2)) (np_lt veh_ys (CS / 2))) in
  let zeros := Fin 0 in
  let veh_xs_delta := veh_vs / base_frequency * cos veh_phis_rad in
  let veh_ys_delta := veh_vs / base_frequency * sin veh_phis_rad in
  let veh_phis_rad_delta :=
    if existsb (String.eqb mode) ["dl"; "rd"; "ur"; "lu"]%string then
      np_where middle_cond
               (np_fdiv (np_div veh_vs (CS / 2 + 0.5 * LW)) base_frequency) zeros
    else if existsb (String.eqb mode) ["dr"; "ru"; "ul"; "ld"]%string then
      np_where middle_cond
               (np_fdiv (np_fneg (np_div veh_vs (CS / 2 - 2.5 * LW))) base_frequency)
               zeros
    else zeros in
  let next_veh_xs := veh_xs + veh_xs_delta in
  let next_veh_ys := veh_ys + veh_ys_delta in
  let next_veh_vs := veh_vs in
  let next_veh_phis_rad := np_fadd veh_phis_rad veh_phis_rad_delta in
  let next_veh_phis_rad :=
    np_where (np_fgt next_veh_phis_rad PI) (np_fsub next_veh_phis_rad (2 * PI))
             next_veh_phis_rad in
  let next_veh_phis_rad :=
    np_where (np_fle next_veh_phis_rad (- PI)) (np_fadd (2 * PI) next_veh_phis_rad)
             next_veh_phis_rad in
  let next_veh_phis := np_fdiv (np_fmul next_veh_phis_rad 180) PI in
  Ok [Fin next_veh_xs; Fin next_veh_ys; Fin next_veh_vs; next_veh_phis].

(** The loop of [veh_predict] over the indices left of [veh_mode_list]. *)
Fixpoint veh_predict_loop (O : outside) (veh_infos : list R)
  (veh_mode_list : list string) (vehs_index : nat) : result (list (list npfloat)) :=
  match veh_mode_list with
  | [] => Ok []
  | mode :: modes =>
      p <- predict_for_a_mode_row O
             (slice veh_infos (vehs_index * per_veh_info_dim)
                    ((vehs_index + 1) * per_veh_info_dim)) mode ;;
      ps <- veh_predict_loop O veh_infos modes (S vehs_index) ;;
      Ok (p :: ps)
  end.

(** [veh_predict] on one row.  [VEHICLE_MODE_LIST] is the table of
    [endtoend_env_utils], taken here with an entry for every task;
    [np.concatenate] raises on an empty list. *)
Definition veh_predict_row (O : outside) (VEHICLE_MODE_LIST : string -> list string)
  (self : t) (veh_infos : list R) : result (list npfloat) :=
  let veh_mode_list := VEHICLE_MODE_LIST (task self) in
  predictions_to_be_concat <- veh_predict_loop O veh_infos veh_mode_list 0 ;;
  match predictions_to_be_concat with
  | [] => Raise ValueError
  | _ => Ok (concat predictions_to_be_concat)
  end.

(** [self.args], which the class reads and never assigns: the fields that
    [barrier_lambda_schedule] reads, the iteration counts as integers. *)
Record args_t : Type := {
  barrier_lambda_scheduler : R * Z * R;
  barrier_lambda_interval : Z;
  max_updated_steps : Z
}.

(** [barrier_lambda_schedule]: the value returned, which is also the one
    stored in [self.barrier_lambda]. *)
Definition barrier_lambda_schedule (args : args_t) (ite : Z) : result R :=
  let init_lambda := fst (fst (barrier_lambda_scheduler args)) in
  let end_lambda := snd (barrier_lambda_scheduler args) in
  let end_ite := snd (fst (barrier_lambda_scheduler args)) in
  let interval := barrier_lambda_interval args in
  if (ite <=? end_ite)%Z then
    q <- py_floordiv ite interval ;;
    d <- py_floordiv (max_updated_steps args) interval ;;
    factor <- py_truediv q d ;;
    Ok ((init_lambda - end_lambda) * (1 - factor) + end_lambda)
  else Ok end_lambda.

End EnvironmentModel.

(** ** deal_with_phi_diff *)

(** One element of the array [phi_diff]. *)
Definition deal_with_phi_diff1 (phi_diff : R) : R :=
  let phi_diff := np_where (np_gt phi_diff 180) (phi_diff - 360) phi_diff in
  let phi_diff := np_where (np_lt phi_diff (-180)) (phi_diff + 360) phi_diff in
  phi_diff.

Definition deal_with_phi_diff (phi_diff : list R) : list R :=
  map deal_with_phi_diff1 phi_diff.

(** ** Vocabulary of the properties *)

(** The row [ego] that both conversions add or subtract. *)
Definition ego_tile (ego_infos : list R) (V : nat) : list R :=
  np_tile [nth 3 ego_infos 0; nth 4 ego_infos 0; 0; 0] V.

(** The ego and the tracking segment of two rows agree. *)
Definition same_ego_tracking (self : EnvironmentModel.t) (obs obs' : list R) : Prop :=
  fst (EnvironmentModel.segments self obs') = fst (EnvironmentModel.segments self obs).

Definition valid_task (task : string) : Prop :=
  task = "left"%string \/ task = "straight"%string \/ task = "right"%string.

(** The reward of one row, written on the columns it reads: the three
    tracking deviations of the current reference point, the yaw rate and the
    two actions. *)
Definition tracking_reward (obs actions : list R) : R :=
  - (0.05 * np_square (nth 8 obs 0) + 0.8 * np_square (nth 6 obs 0)
     + 30 * np_square (nth 7 obs 0 * PI / 180) + 0.02 * np_square (nth 2 obs 0)
     + 5 * np_square (nth 0 actions 0) + 0.05 * np_square (nth 1 actions 0)).

(** The constants of a three-lane crossroad, without candidate paths. *)
Definition crossroad : outside :=
  {| L := 4.8; W := 2; CROSSROAD_SIZE := 50; LANE_WIDTH := 3.75; LANE_NUMBER := 3;
     planed_trjs := fun _ => []; random_choice := fun _ => 0%nat |}.

(** An instance for [task], bare of paths. *)
Definition model_of (task : string) (num_future_data : nat) : EnvironmentModel.t :=
  {| EnvironmentModel.task := task;
     EnvironmentModel.ref_path :=
       {| ReferencePath.task := task; ReferencePath.path_list := [];
          ReferencePath.ref_index := 0; ReferencePath.path := ([], [], []) |};
     EnvironmentModel.num_future_data := num_future_data;
     EnvironmentModel.rewards_mode := PyNone |}.

(** The bumper-centre points of a vehicle at [(x, y)] with heading [phi]
    degrees, and the distance between two such points. *)
Definition front_point (lws x y phi : R) : R * R :=
  (x + lws * cos (phi * PI / 180), y + lws * sin (phi * PI / 180)).
Definition rear_point (lws x y phi : R) : R * R :=
  (x - lws * cos (phi * PI / 180), y - lws * sin (phi * PI / 180)).
Definition corner_dist (p q : R * R) : R :=
  sqrt (np_square (fst p - fst q) + np_square (snd p - snd q)).

(** A path with at least one sample and three arrays of one length. *)
Definition well_formed_path (self : ReferencePath.t) : Prop :=
  let '(xs, ys, phis) := ReferencePath.path self in
  (1 <= length xs)%nat /\ length ys = length xs /\ length phis = length xs.

(** The sample of index [j]. *)
Definition point_at (self : ReferencePath.t) (j : Z) : R * R * R :=
  let '(xs, ys, phis) := ReferencePath.path self in
  (nth (Z.to_nat j) xs 0, nth (Z.to_nat j) ys 0, nth (Z.to_nat j) phis 0).

(** The index of the [m]-th point that [future_n_data] returns from the
    start [i]: [m] steps of 80 samples, held at [len - 2] and at 0. *)
Definition future_index (self : ReferencePath.t) (i : Z) (m : nat) : Z :=
  Z.max 0 (Z.min (i + 80 * Z.of_nat m) (ReferencePath.path_len self - 2)).

(** A path of three samples along the x axis. *)
Definition three_samples : ReferencePath.t :=
  {| ReferencePath.task := "straight"; ReferencePath.path_list := [];
     ReferencePath.ref_index := 0;
     ReferencePath.path := ([0; 1; 2], [0; 0; 0], [0; 0; 0]) |}.

(** A float that is a real number, neither [inf] nor [nan]. *)
Definition is_finite (x : npfloat) : Prop := exists r, x = Fin r.

(** The squared distance from [(x, y)] to the sample of index [j]. *)
Definition sq_dist_to (self : ReferencePath.t) (x y : R) (j : nat) : R :=
  let '(xs, ys, _) := ReferencePath.path self in
  np_square (x - nth j xs 0) + np_square (y - nth j ys 0).

(** The open central square of the crossroad, where [predict_for_a_mode]
    lets a vehicle turn. *)
Definition in_square (O : outside) (x y : R) : Prop :=
  - CROSSROAD_SIZE O / 2 < x < CROSSROAD_SIZE O / 2 /\
  - CROSSROAD_SIZE O / 2 < y < CROSSROAD_SIZE O / 2.

(** The modes for which [predict_for_a_mode] turns the heading. *)
Definition curving_mode (mode : string) : bool :=
  existsb (String.eqb mode) ["dl"; "rd"; "ur"; "lu"; "dr"; "ru"; "ul"; "ld"]%string.

(** The reward of one instance from the terms of its observation and of
    its action, as the sum of [compute_rewards] adds them. *)
Definition row_reward (ta : (R * R * R * R * R) * (R * R)) : R :=
  fst (fst (fst (fst (fst ta)))) + 5 * fst (snd ta) + 0.05 * snd (snd ta).

(** The integers that numpy holds as an int64. *)
Definition int64 (i : Z) : Prop :=
  (-9223372036854775808 <= i < 9223372036854775808)%Z.

(** * Properties *)

(** ** The primitives *)

Lemma np_lt_true (x y : R) : x < y -> np_lt x y = true.
Proof. intro H; unfold np_lt; destruct (Rlt_dec x y); [reflexivity | contradiction]. Qed.

Lemma np_lt_false (x y : R) : y <= x -> np_lt x y = false.
Proof. intro H; unfold np_lt; destruct (Rlt_dec x y); [lra | reflexivity]. Qed.

Lemma np_clip_bounds (x lo hi : R) : lo <= hi -> lo <= np_clip x lo hi <= hi.
Proof.
  intro H; unfold np_clip, Rmin, Rmax.
  destruct (Rle_dec x lo); destruct (Rle_dec _ hi); lra.
Qed.

Lemma columns6 {A : Type} (row : list A) :
  (6 <= length row)%nat ->
  exists c0 c1 c2 c3 c4 c5 rest, row = c0 :: c1 :: c2 :: c3 :: c4 :: c5 :: rest.
Proof.
  intro H.
  destruct row as [|c0 [|c1 [|c2 [|c3 [|c4 [|c5 rest]]]]]]; simpl in H; try lia.
  now exists c0, c1, c2, c3, c4, c5, rest.
Qed.

Lemma columns2 {A : Type} (row : list A) :
  (2 <= length row)%nat -> exists c0 c1 rest, row = c0 :: c1 :: rest.
Proof.
  intro H. destruct row as [|c0 [|c1 rest]]; simpl in H; try lia.
  now exists c0, c1, rest.
Qed.

Lemma slice_length_le {A : Type} (row : list A) (hi : nat) :
  (hi <= length row)%nat -> length (slice row 0 hi) = hi.
Proof.
  intro H; unfold slice. rewrite length_firstn. cbn [skipn]. lia.
Qed.

(** Case analysis on every comparison of the goal. *)
Ltac np_cases :=
  unfold np_where, np_gt, np_lt in *;
  repeat match goal with
         | |- context [Rlt_dec ?a ?b] => destruct (Rlt_dec a b)
         | H : context [Rlt_dec ?a ?b] |- _ => destruct (Rlt_dec a b)
         end.

(** ** deal_with_phi_diff *)

Lemma deal_with_phi_diff1_rule (d : R) :
  (180 < d -> deal_with_phi_diff1 d = d - 360) /\
  (d < -180 -> deal_with_phi_diff1 d = d + 360) /\
  (-180 <= d <= 180 -> deal_with_phi_diff1 d = d).
Proof.
  unfold deal_with_phi_diff1; repeat split; intros; np_cases; lra.
Qed.

Lemma deal_with_phi_diff1_range (d : R) :
  -540 <= d <= 540 -> -180 <= deal_with_phi_diff1 d <= 180.
Proof.
  intros Hd; unfold deal_with_phi_diff1; np_cases; lra.
Qed.

Lemma deal_with_phi_diff1_range_open (d : R) :
  -540 < d <= 540 -> d <> -180 -> -180 < deal_with_phi_diff1 d <= 180.
Proof.
  intros Hd Hn; unfold deal_with_phi_diff1; np_cases; lra.
Qed.

Lemma deal_with_phi_diff1_fix (d : R) :
  -180 <= d <= 180 -> deal_with_phi_diff1 d = d.
Proof. apply deal_with_phi_diff1_rule. Qed.

Lemma deal_with_phi_diff1_idem (d : R) :
  -540 <= d <= 540 ->
  deal_with_phi_diff1 (deal_with_phi_diff1 d) = deal_with_phi_diff1 d.
Proof.
  intro Hd; apply deal_with_phi_diff1_fix, deal_with_phi_diff1_range, Hd.
Qed.

Lemma deal_with_phi_diff_at (d : R) : deal_with_phi_diff [d] = [deal_with_phi_diff1 d].
Proof. reflexivity. Qed.

(** C3, as the code has it.  For every input the function follows the rule
    (more than 180: subtract 360; less than -180: add 360; otherwise
    unchanged).  For every input in [-540, 540] the output lies in
    [-180, 180] and applying the function twice equals applying it once; the
    output lies in (-180, 180] when moreover the input is neither -180 nor
    -540. *)
Theorem deal_with_phi_diff_wraps (phi_diff : list R) :
  Forall2 (fun d w => (180 < d -> w = d - 360) /\
                      (d < -180 -> w = d + 360) /\
                      (-180 <= d <= 180 -> w = d))
          phi_diff (deal_with_phi_diff phi_diff) /\
  (Forall (fun d => -540 <= d <= 540) phi_diff ->
   Forall (fun w => -180 <= w <= 180) (deal_with_phi_diff phi_diff) /\
   deal_with_phi_diff (deal_with_phi_diff phi_diff) = deal_with_phi_diff phi_diff) /\
  (Forall (fun d => -540 < d <= 540 /\ d <> -180) phi_diff ->
   Forall (fun w => -180 < w <= 180) (deal_with_phi_diff phi_diff)).
Proof.
  unfold deal_with_phi_diff; repeat split.
  - induction phi_diff as [|d ds IH]; simpl; constructor;
      [apply deal_with_phi_diff1_rule | exact IH].
  - induction H as [|d ds Hd _ IH]; simpl; constructor;
      [apply deal_with_phi_diff1_range, Hd | exact IH].
  - induction H as [|d ds Hd _ IH]; simpl; [reflexivity|].
    rewrite deal_with_phi_diff1_idem by exact Hd. now rewrite IH.
  - intro H; induction H as [|d ds [Hd Hn] _ IH]; simpl; constructor;
      [apply deal_with_phi_diff1_range_open; assumption | exact IH].
Qed.

Lemma deal_with_phi_diff_wraps_witness :
  Forall (fun w => -180 < w <= 180) (deal_with_phi_diff [270.5; -200; 10]) /\
  deal_with_phi_diff (deal_with_phi_diff [270.5; -200; 10])
  = deal_with_phi_diff [270.5; -200; 10].
Proof.
  destruct (deal_with_phi_diff_wraps [270.5; -200; 10]) as (_ & Hclosed & Hopen).
  split.
  - apply Hopen; repeat constructor; lra.
  - apply Hclosed; repeat constructor; lra.
Defined.

(** C3 as stated fails: 1000 is sent to 640, outside (-180, 180], and a
    second application sends 640 to 280; -180 is sent to -180, which the
    half-open interval excludes. *)
Lemma deal_with_phi_diff_not_range_exact :
  ~ Forall (fun w => -180 < w <= 180) (deal_with_phi_diff [1000]) /\
  deal_with_phi_diff (deal_with_phi_diff [1000]) <> deal_with_phi_diff [1000] /\
  ~ Forall (fun w => -180 < w <= 180) (deal_with_phi_diff [-180]).
Proof.
  assert (H1 : deal_with_phi_diff1 1000 = 640)
    by (unfold deal_with_phi_diff1; np_cases; lra).
  assert (H2 : deal_with_phi_diff1 640 = 280)
    by (unfold deal_with_phi_diff1; np_cases; lra).
  assert (H3 : deal_with_phi_diff1 (-180) = -180)
    by (unfold deal_with_phi_diff1; np_cases; lra).
  rewrite !deal_with_phi_diff_at, !H1, H2, H3.
  repeat split.
  - intro H; inversion H; subst; lra.
  - intro H; injection H; lra.
  - intro H; inversion H; subst; lra.
Qed.

(** ** VehicleDynamics *)

Lemma F_zf_pos : 0 < VehicleDynamics.F_zf.
Proof.
  unfold VehicleDynamics.F_zf, VehicleDynamics.a, VehicleDynamics.b,
    VehicleDynamics.mass, VehicleDynamics.g. lra.
Qed.

Lemma F_zr_pos : 0 < VehicleDynamics.F_zr.
Proof.
  unfold VehicleDynamics.F_zr, VehicleDynamics.a, VehicleDynamics.b,
    VehicleDynamics.mass, VehicleDynamics.g. lra.
Qed.

(** C5.  A negative commanded acceleration gives equal front and rear
    longitudinal forces, [mass * a_x / 2] each; a non-negative one gives a
    zero front force and the rear force [mass * a_x]. *)
Theorem f_xu_force_split (a_x : R) :
  (a_x < 0 ->
   VehicleDynamics.F_xf a_x = VehicleDynamics.mass * a_x / 2 /\
   VehicleDynamics.F_xr a_x = VehicleDynamics.mass * a_x / 2) /\
  (0 <= a_x ->
   VehicleDynamics.F_xf a_x = 0 /\
   VehicleDynamics.F_xr a_x = VehicleDynamics.mass * a_x).
Proof.
  unfold VehicleDynamics.F_xf, VehicleDynamics.F_xr; split; intro H.
  - rewrite (np_lt_true _ _ H); split; reflexivity.
  - rewrite (np_lt_false _ _ H); split; reflexivity.
Qed.

Lemma f_xu_force_split_witness :
  (VehicleDynamics.F_xf (-2) = VehicleDynamics.mass * (-2) / 2 /\
   VehicleDynamics.F_xr (-2) = VehicleDynamics.mass * (-2) / 2) /\
  (VehicleDynamics.F_xf 1.5 = 0 /\
   VehicleDynamics.F_xr 1.5 = VehicleDynamics.mass * 1.5).
Proof.
  split.
  - apply (f_xu_force_split (-2)); lra.
  - apply (f_xu_force_split 1.5); lra.
Defined.

Lemma np_fdiv_sqrt_in (u F : R) :
  0 <= u -> F <> 0 -> np_fdiv (np_sqrt u) F = Fin (sqrt (Rmax 0 u) / F).
Proof.
  intros Hu HF; unfold np_sqrt, np_fdiv, np_div.
  destruct (Rlt_dec u 0); [lra|].
  destruct (Req_dec_T F 0); [contradiction|].
  now rewrite Rmax_right.
Qed.

Lemma np_fdiv_sqrt_out (u F : R) : u < 0 -> np_fdiv (np_sqrt u) F = NaN.
Proof.
  intros Hu; unfold np_sqrt, np_fdiv.
  destruct (Rlt_dec u 0); [reflexivity | lra].
Qed.

Lemma action_transformation_range (actions : list R) :
  (2 <= length actions)%nat ->
  exists steer a_x,
    EnvironmentModel._action_transformation_for_end2end_row actions = Ok [steer; a_x] /\
    -0.42 <= steer <= 0.42 /\ -4.15 <= a_x <= 2.15.
Proof.
  intro H. destruct (columns2 _ H) as (s0 & a0 & rest & ->).
  unfold EnvironmentModel._action_transformation_for_end2end_row.
  cbn [map]. cbv [col nth_error bind].
  eexists; eexists; split; [reflexivity|].
  pose proof (np_clip_bounds s0 (-1.05) 1.05) as Hs.
  pose proof (np_clip_bounds a0 (-1.05) 1.05) as Ha.
  lra.
Qed.

(** The accelerations that [_action_transformation_for_end2end] can return
    keep both axles inside the friction circle. *)
Lemma de_normalised_in_circle (a_x : R) :
  -4.15 <= a_x <= 2.15 ->
  np_square (VehicleDynamics.F_xf a_x)
  <= np_square (VehicleDynamics.miu * VehicleDynamics.F_zf) /\
  np_square (VehicleDynamics.F_xr a_x)
  <= np_square (VehicleDynamics.miu * VehicleDynamics.F_zr).
Proof.
  intros Ha.
  assert (Hf : 8000 <= VehicleDynamics.miu * VehicleDynamics.F_zf).
  { unfold VehicleDynamics.F_zf, VehicleDynamics.miu, VehicleDynamics.a,
      VehicleDynamics.b, VehicleDynamics.mass, VehicleDynamics.g. lra. }
  assert (Hr : 5000 <= VehicleDynamics.miu * VehicleDynamics.F_zr).
  { unfold VehicleDynamics.F_zr, VehicleDynamics.miu, VehicleDynamics.a,
      VehicleDynamics.b, VehicleDynamics.mass, VehicleDynamics.g. lra. }
  unfold VehicleDynamics.F_xf, VehicleDynamics.F_xr, VehicleDynamics.mass, np_square.
  split; np_cases; nra.
Qed.

(** C6, as the code has it.  On an axle whose longitudinal force is inside
    the friction circle, [F_x^2 <= (miu * F_z)^2], the returned coefficient is
    [sqrt((miu * F_z)^2 - F_x^2) / F_z], which is the clamped formula; this
    covers every acceleration in [-4.15, 2.15].  [f_xu] has no clamp: outside
    the friction circle the coefficient is [nan]. *)
Theorem f_xu_friction_coefficients (a_x : R) :
  let u_f := np_square (VehicleDynamics.miu * VehicleDynamics.F_zf)
             - np_square (VehicleDynamics.F_xf a_x) in
  let u_r := np_square (VehicleDynamics.miu * VehicleDynamics.F_zr)
             - np_square (VehicleDynamics.F_xr a_x) in
  (0 <= u_f ->
   VehicleDynamics.miu_f a_x = Fin (sqrt (Rmax 0 u_f) / VehicleDynamics.F_zf)) /\
  (0 <= u_r ->
   VehicleDynamics.miu_r a_x = Fin (sqrt (Rmax 0 u_r) / VehicleDynamics.F_zr)) /\
  (-4.15 <= a_x <= 2.15 -> 0 <= u_f /\ 0 <= u_r) /\
  (u_f < 0 -> VehicleDynamics.miu_f a_x = NaN) /\
  (u_r < 0 -> VehicleDynamics.miu_r a_x = NaN).
Proof.
  intros u_f u_r; unfold VehicleDynamics.miu_f, VehicleDynamics.miu_r.
  fold u_f u_r. repeat split.
  - intro H; apply np_fdiv_sqrt_in; [exact H | pose proof F_zf_pos; lra].
  - intro H; apply np_fdiv_sqrt_in; [exact H | pose proof F_zr_pos; lra].
  - destruct (de_normalised_in_circle a_x H) as [Hf _]; unfold u_f; lra.
  - destruct (de_normalised_in_circle a_x H) as [_ Hr]; unfold u_r; lra.
  - apply np_fdiv_sqrt_out.
  - apply np_fdiv_sqrt_out.
Qed.

Lemma f_xu_friction_coefficients_witness :
  VehicleDynamics.miu_f (-1)
  = Fin (sqrt (Rmax 0 (np_square (VehicleDynamics.miu * VehicleDynamics.F_zf)
                       - np_square (VehicleDynamics.F_xf (-1))))
         / VehicleDynamics.F_zf) /\
  VehicleDynamics.miu_r (-1)
  = Fin (sqrt (Rmax 0 (np_square (VehicleDynamics.miu * VehicleDynamics.F_zr)
                       - np_square (VehicleDynamics.F_xr (-1))))
         / VehicleDynamics.F_zr).
Proof.
  destruct (f_xu_friction_coefficients (-1)) as (Hf & Hr & Hin & _).
  destruct Hin as [Huf Hur]; [lra|].
  split; [apply Hf, Huf | apply Hr, Hur].
Defined.

(** C6 as stated fails: at the acceleration 4 the rear force [mass * 4]
    exceeds [miu * F_zr], the square root has a negative argument and the
    rear coefficient is [nan], not the clamped value. *)
Lemma f_xu_friction_not_clamped :
  VehicleDynamics.miu_r 4 = NaN /\
  VehicleDynamics.miu_r 4
  <> Fin (sqrt (Rmax 0 (np_square (VehicleDynamics.miu * VehicleDynamics.F_zr)
                        - np_square (VehicleDynamics.F_xr 4)))
          / VehicleDynamics.F_zr).
Proof.
  assert (H : VehicleDynamics.miu_r 4 = NaN).
  { apply np_fdiv_sqrt_out.
    assert (Hr : VehicleDynamics.miu * VehicleDynamics.F_zr <= 5100).
    { unfold VehicleDynamics.F_zr, VehicleDynamics.miu, VehicleDynamics.a,
        VehicleDynamics.b, VehicleDynamics.mass, VehicleDynamics.g. lra. }
    pose proof F_zr_pos as Hp.
    assert (Hm : 0 < VehicleDynamics.miu * VehicleDynamics.F_zr)
      by (unfold VehicleDynamics.miu; lra).
    unfold VehicleDynamics.F_xr, VehicleDynamics.mass, np_square.
    np_cases; nra. }
  split; [exact H | rewrite H; discriminate].
Qed.

(** C7.  With zero lateral velocity, zero yaw rate and a nonzero
    longitudinal velocity, one step of [f_xu] with zero steering and zero
    acceleration moves the position by [v_x * tau] along the heading and
    leaves the heading as it was. *)
Theorem f_xu_straight_step (v_x x y phi tau : R) :
  v_x <> 0 ->
  exists next_state diagnostics,
    VehicleDynamics.f_xu_row [v_x; 0; 0; x; y; phi] [0; 0] tau
    = Ok (next_state, diagnostics) /\
    nth_error next_state 3 = Some (Fin (x + v_x * tau * cos (phi * PI / 180))) /\
    nth_error next_state 4 = Some (Fin (y + v_x * tau * sin (phi * PI / 180))) /\
    nth_error next_state 5 = Some (Fin phi).
Proof.
  intros _.
  cbv [VehicleDynamics.f_xu_row col bind nth_error].
  eexists; eexists; split; [reflexivity|].
  cbv [nth_error]; repeat split; f_equal; f_equal.
  - ring.
  - ring.
  - field. apply PI_neq0.
Qed.

Lemma f_xu_straight_step_witness :
  exists next_state diagnostics,
    VehicleDynamics.f_xu_row [8; 0; 0; 1.875; -30; 90] [0; 0] 0.1
    = Ok (next_state, diagnostics) /\
    nth_error next_state 3 = Some (Fin (1.875 + 8 * 0.1 * cos (90 * PI / 180))) /\
    nth_error next_state 4 = Some (Fin (-30 + 8 * 0.1 * sin (90 * PI / 180))) /\
    nth_error next_state 5 = Some (Fin 90).
Proof.
  apply (f_xu_straight_step 8 1.875 (-30) 90 0.1); lra.
Defined.

(** ** Batches *)

Lemma batch_Forall2 {A B : Type} (f : A -> result B) (P : A -> B -> Prop)
  (rows : list A) :
  Forall (fun row => exists b, f row = Ok b /\ P row b) rows ->
  exists bs, batch f rows = Ok bs /\ Forall2 P rows bs.
Proof.
  induction 1 as [|row rows (b & Hb & HP) _ (bs & Hbs & IH)]; simpl.
  - exists []; split; [reflexivity | constructor].
  - rewrite Hb; simpl; rewrite Hbs; simpl.
    exists (b :: bs); split; [reflexivity | constructor; assumption].
Qed.

Lemma Forall_combine {A B : Type} (P : A -> Prop) (Q : B -> Prop)
  (u : list A) (v : list B) :
  Forall P u -> Forall Q v -> Forall (fun p => P (fst p) /\ Q (snd p)) (combine u v).
Proof.
  intros Hu; revert v; induction Hu as [|a u Ha _ IH]; intros v Hv; simpl.
  - constructor.
  - destruct Hv as [|b v Hb Hv]; constructor; [split; assumption | apply IH, Hv].
Qed.

(** ** ego_predict *)

Lemma ego_predict_row_clips (self : EnvironmentModel.t) (ego_infos actions : list R) :
  (6 <= length ego_infos)%nat -> (2 <= length actions)%nat ->
  exists v rest diagnostics,
    VehicleDynamics.f_xu_row (slice ego_infos 0 6) actions (1 / 10)
    = Ok (Fin v :: rest, diagnostics) /\
    EnvironmentModel.ego_predict_row self ego_infos actions
    = Ok (Fin (np_clip v 0 35) :: rest) /\
    0 <= np_clip v 0 35 <= 35.
Proof.
  intros He Hu.
  destruct (columns6 _ He) as (v_x & v_y & r & x & y & phi & rest & ->).
  destruct (columns2 _ Hu) as (steer & a_x & rest' & ->).
  unfold EnvironmentModel.ego_predict_row, VehicleDynamics.prediction_row.
  destruct (Req_dec_T EnvironmentModel.base_frequency 0) as [e|_];
    [unfold EnvironmentModel.base_frequency in e; lra|].
  unfold EnvironmentModel.base_frequency.
  cbv [VehicleDynamics.f_xu_row slice firstn skipn Nat.sub col bind nth_error fst np_fclip].
  eexists; eexists; eexists; split; [reflexivity|].
  split; [reflexivity|].
  apply np_clip_bounds; lra.
Qed.

Lemma batch_cols {A : Type} (n : nat) (rows : list (list A)) :
  Forall (fun row => (n < length row)%nat) rows ->
  exists vs, batch (fun row => col row n) rows = Ok vs.
Proof.
  induction 1 as [|row rows Hr _ (vs & IH)]; [exists []; reflexivity|].
  cbn [batch]. unfold col at 1.
  destruct (nth_error row n) as [v|] eqn:E;
    [|apply nth_error_None in E; lia].
  cbv [bind]. rewrite IH. eexists; reflexivity.
Qed.

Lemma ego_predict_row_unfold (self : EnvironmentModel.t) (ego_infos actions : list R) :
  EnvironmentModel.ego_predict_row self ego_infos actions
  = (pr <- VehicleDynamics.f_xu_row (slice ego_infos 0 6) actions (1 / 10) ;;
     EnvironmentModel.ego_clip_row (fst pr)).
Proof.
  unfold EnvironmentModel.ego_predict_row, VehicleDynamics.prediction_row.
  destruct (Req_dec_T EnvironmentModel.base_frequency 0) as [e|_];
    [unfold EnvironmentModel.base_frequency in e; lra|].
  reflexivity.
Qed.

(** The rows of two batches of one length, through [f_xu] and the clip. *)
Lemma ego_predict_paired (self : EnvironmentModel.t) (ego_infos actions : list (list R)) :
  length ego_infos = length actions ->
  Forall (fun row => (6 <= length row)%nat) ego_infos ->
  Forall (fun row => (2 <= length row)%nat) actions ->
  exists rows ego_next_infos,
    batch (fun su => VehicleDynamics.f_xu_row (fst su) (snd su) (1 / 10))
          (combine (map (fun row => slice row 0 6) ego_infos) actions) = Ok rows /\
    batch EnvironmentModel.ego_clip_row (map fst rows) = Ok ego_next_infos /\
    Forall2 (fun eu next =>
               exists v rest diagnostics,
                 VehicleDynamics.f_xu_row (slice (fst eu) 0 6) (snd eu) (1 / 10)
                 = Ok (Fin v :: rest, diagnostics) /\
                 next = Fin (np_clip v 0 35) :: rest /\
                 0 <= np_clip v 0 35 <= 35)
            (combine ego_infos actions) ego_next_infos.
Proof.
  intros Hlen He; revert actions Hlen.
  induction He as [|e es H6 _ IH]; intros [|u us] Hlen Hu; simpl in Hlen; try lia.
  - exists [], []. repeat split; constructor.
  - inversion Hu as [|u' us' H2 Hus]; subst.
    destruct (IH us) as (rows & nexts & Hrows & Hnexts & Hall); [lia | exact Hus |].
    destruct (ego_predict_row_clips self e u H6 H2) as (v & rest & dg & Hf & Hp & Hb).
    pose proof (ego_predict_row_unfold self e u) as Hun.
    rewrite Hf, Hp in Hun. cbv [bind] in Hun. cbn [fst] in Hun.
    cbn [map combine batch fst snd]. rewrite Hf. cbv [bind]. rewrite Hrows.
    exists ((Fin v :: rest, dg) :: rows), ((Fin (np_clip v 0 35) :: rest) :: nexts).
    split; [reflexivity|]. split.
    + cbn [map batch fst]. rewrite <- Hun. cbv [bind]. rewrite Hnexts. reflexivity.
    + constructor; [|exact Hall]. exists v, rest, dg. repeat split; try assumption; apply Hb.
Qed.

Lemma sliced_six (ego_infos : list (list R)) :
  Forall (fun row => (6 <= length row)%nat) ego_infos ->
  Forall (fun row => (5 < length row)%nat) (map (fun row => slice row 0 6) ego_infos).
Proof.
  induction 1 as [|row rows H _ IH]; cbn [map]; constructor; [|exact IH].
  rewrite slice_length_le by lia. lia.
Qed.

(** Batches of different lengths: [f_xu] raises, and [ego_predict] with it. *)
Lemma ego_predict_lengths (self : EnvironmentModel.t) (ego_infos actions : list (list R)) :
  length ego_infos <> length actions ->
  Forall (fun row => (6 <= length row)%nat) ego_infos ->
  Forall (fun row => (2 <= length row)%nat) actions ->
  EnvironmentModel.ego_predict self ego_infos actions = Raise ValueError.
Proof.
  intros Hlen He Hu.
  unfold EnvironmentModel.ego_predict, VehicleDynamics.prediction.
  destruct (Req_dec_T EnvironmentModel.base_frequency 0) as [e|_];
    [unfold EnvironmentModel.base_frequency in e; lra|].
  unfold VehicleDynamics.f_xu.
  destruct (batch_cols 5 _ (sliced_six ego_infos He)) as (vs & ->).
  destruct (batch_cols 1 actions) as (ws & ->);
    [apply (Forall_impl _ (P := fun row => (2 <= length row)%nat)); [intros; lia | exact Hu]|].
  cbv [bind]. rewrite length_map.
  destruct (Nat.eqb_spec (length ego_infos) (length actions)); [contradiction | reflexivity].
Qed.

(** C9.  On every batch of ego states and batch of de-normalised actions of
    the same length, [ego_predict] returns the state that [f_xu] predicts
    for the step [1 / 10] s, with the longitudinal velocity clipped into
    [0, 35]. *)
Theorem ego_predict_speed_clipped (self : EnvironmentModel.t)
  (ego_infos actions : list (list R)) :
  length ego_infos = length actions ->
  Forall (fun row => (6 <= length row)%nat) ego_infos ->
  Forall (fun row => (2 <= length row)%nat) actions ->
  exists ego_next_infos,
    EnvironmentModel.ego_predict self ego_infos actions = Ok ego_next_infos /\
    Forall2 (fun eu next =>
               exists v rest diagnostics,
                 VehicleDynamics.f_xu_row (slice (fst eu) 0 6) (snd eu) (1 / 10)
                 = Ok (Fin v :: rest, diagnostics) /\
                 next = Fin (np_clip v 0 35) :: rest /\
                 0 <= np_clip v 0 35 <= 35)
            (combine ego_infos actions) ego_next_infos.
Proof.
  intros Hlen He Hu.
  destruct (ego_predict_paired self ego_infos actions Hlen He Hu)
    as (rows & nexts & Hrows & Hnexts & Hall).
  exists nexts. split; [|exact Hall].
  unfold EnvironmentModel.ego_predict, VehicleDynamics.prediction.
  destruct (Req_dec_T EnvironmentModel.base_frequency 0) as [e|_];
    [unfold EnvironmentModel.base_frequency in e; lra|].
  unfold VehicleDynamics.f_xu, EnvironmentModel.base_frequency.
  destruct (batch_cols 5 _ (sliced_six ego_infos He)) as (vs & ->).
  destruct (batch_cols 1 actions) as (ws & ->);
    [apply (Forall_impl _ (P := fun row => (2 <= length row)%nat)); [intros; lia | exact Hu]|].
  cbv [bind]. rewrite length_map, Hlen, Nat.eqb_refl, Hrows.
  cbn [fst]. exact Hnexts.
Qed.

Lemma ego_predict_speed_clipped_witness :
  exists ego_next_infos,
    EnvironmentModel.ego_predict (model_of "straight" 0)
      [[34.9; 0; 0; 0; 0; 90]] [[0; 2]] = Ok ego_next_infos /\
    Forall2 (fun eu next =>
               exists v rest diagnostics,
                 VehicleDynamics.f_xu_row (slice (fst eu) 0 6) (snd eu) (1 / 10)
                 = Ok (Fin v :: rest, diagnostics) /\
                 next = Fin (np_clip v 0 35) :: rest /\
                 0 <= np_clip v 0 35 <= 35)
            (combine [[34.9; 0; 0; 0; 0; 90]] [[0; 2]]) ego_next_infos.
Proof.
  apply ego_predict_speed_clipped; [reflexivity | |]; repeat constructor.
Defined.

(** ** The layout of an observation row *)

Lemma zipw_length (op : R -> R -> R) (u v : list R) :
  length u = length v -> length (zipw op u v) = length u.
Proof.
  intro H; unfold zipw. rewrite length_map, length_combine, <- H. apply Nat.min_id.
Qed.

Lemma zipw_plus_minus (u v : list R) :
  length u = length v -> zipw Rminus (zipw Rplus u v) v = u.
Proof.
  revert v; induction u as [|a u IH]; intros [|b v] H; simpl in H; try discriminate.
  - reflexivity.
  - unfold zipw in *; simpl. f_equal; [ring | apply IH; lia].
Qed.

Lemma broadcast2_same (op : R -> R -> R) (u v : list R) :
  length u = length v -> broadcast2 op u v = Ok (zipw op u v).
Proof.
  intro H; unfold broadcast2. now rewrite H, Nat.eqb_refl.
Qed.

Lemma np_tile_length {A : Type} (block : list A) (k : nat) :
  length (np_tile block k) = (k * length block)%nat.
Proof.
  induction k as [|k IH]; simpl; [reflexivity|]. now rewrite length_app, IH.
Qed.

Lemma firstn_app_exact {A : Type} (u v : list A) : firstn (length u) (u ++ v) = u.
Proof. induction u as [|a u IH]; simpl; [now destruct v | now rewrite IH]. Qed.

Lemma skipn_app_exact {A : Type} (u v : list A) : skipn (length u) (u ++ v) = v.
Proof. induction u as [|a u IH]; simpl; [reflexivity | exact IH]. Qed.

Lemma segments_app (self : EnvironmentModel.t) (ego trk veh : list R) :
  length ego = 6%nat ->
  length trk = (3 * (EnvironmentModel.num_future_data self + 1))%nat ->
  EnvironmentModel.segments self (ego ++ trk ++ veh) = (ego, trk, veh).
Proof.
  intros He Ht.
  unfold EnvironmentModel.segments, slice, slice_from,
    EnvironmentModel.ego_info_dim, EnvironmentModel.per_tracking_info_dim.
  rewrite Nat.sub_0_r, Nat.add_comm, Nat.add_sub. simpl skipn at 1.
  rewrite <- He at 1. rewrite firstn_app_exact.
  rewrite <- He at 1. rewrite skipn_app_exact.
  rewrite <- Ht at 1. rewrite firstn_app_exact.
  rewrite Nat.add_comm, <- Ht, <- He, <- length_app, app_assoc, skipn_app_exact.
  reflexivity.
Qed.

Lemma well_formed_split (self : EnvironmentModel.t) (V : nat) (obs : list R) :
  EnvironmentModel.well_formed self V obs ->
  exists ego trk veh,
    obs = ego ++ trk ++ veh /\ length ego = 6%nat /\
    length trk = (3 * (EnvironmentModel.num_future_data self + 1))%nat /\
    length veh = (4 * V)%nat.
Proof.
  unfold EnvironmentModel.well_formed, EnvironmentModel.ego_info_dim,
    EnvironmentModel.per_tracking_info_dim, EnvironmentModel.per_veh_info_dim.
  set (T := (3 * (EnvironmentModel.num_future_data self + 1))%nat).
  intro H.
  exists (firstn 6 obs), (firstn T (skipn 6 obs)), (skipn T (skipn 6 obs)).
  repeat split.
  - now rewrite !firstn_skipn.
  - rewrite length_firstn; lia.
  - rewrite length_firstn, length_skipn; lia.
  - rewrite !length_skipn; lia.
Qed.

(** ** convert_vehs_to_abso and convert_vehs_to_rela *)

Lemma convert_row_shape (op : R -> R -> R) (self : EnvironmentModel.t) (V : nat)
  (ego trk veh : list R) :
  length ego = 6%nat ->
  length trk = (3 * (EnvironmentModel.num_future_data self + 1))%nat ->
  length veh = (4 * V)%nat ->
  (let '(ego_infos, tracking_infos, veh_infos) :=
     EnvironmentModel.segments self (ego ++ trk ++ veh) in
   ego_x <- col ego_infos 3 ;;
   ego_y <- col ego_infos 4 ;;
   let ego := np_tile [ego_x; ego_y; 0; 0]
                      (length veh_infos / EnvironmentModel.per_veh_info_dim) in
   vehs <- broadcast2 op veh_infos ego ;;
   Ok (ego_infos ++ tracking_infos ++ vehs))
  = Ok (ego ++ trk ++ zipw op veh (ego_tile ego V)).
Proof.
  intros He Ht Hv. rewrite (segments_app self ego trk veh He Ht).
  destruct (columns6 ego) as (c0 & c1 & c2 & c3 & c4 & c5 & rest & ->); [lia|].
  unfold EnvironmentModel.per_veh_info_dim, ego_tile.
  cbv [col nth_error bind nth].
  rewrite Hv, Nat.mul_comm, Nat.div_mul by discriminate.
  rewrite broadcast2_same; [reflexivity|].
  rewrite np_tile_length; simpl; lia.
Qed.

Lemma convert_vehs_to_abso_row_wf (self : EnvironmentModel.t) (V : nat)
  (ego trk veh : list R) :
  length ego = 6%nat ->
  length trk = (3 * (EnvironmentModel.num_future_data self + 1))%nat ->
  length veh = (4 * V)%nat ->
  EnvironmentModel.convert_vehs_to_abso_row self (ego ++ trk ++ veh)
  = Ok (ego ++ trk ++ zipw Rplus veh (ego_tile ego V)).
Proof. apply (convert_row_shape Rplus). Qed.

Lemma convert_vehs_to_rela_row_wf (self : EnvironmentModel.t) (V : nat)
  (ego trk veh : list R) :
  length ego = 6%nat ->
  length trk = (3 * (EnvironmentModel.num_future_data self + 1))%nat ->
  length veh = (4 * V)%nat ->
  EnvironmentModel.convert_vehs_to_rela_row self (ego ++ trk ++ veh)
  = Ok (ego ++ trk ++ zipw Rminus veh (ego_tile ego V)).
Proof. apply (convert_row_shape Rminus). Qed.

Lemma ego_tile_length (ego : list R) (V : nat) : length (ego_tile ego V) = (4 * V)%nat.
Proof. unfold ego_tile; rewrite np_tile_length; simpl; lia. Qed.

Lemma convert_rows_inverse (self : EnvironmentModel.t) (V : nat) (obs : list R) :
  EnvironmentModel.well_formed self V obs ->
  exists abso rela,
    EnvironmentModel.convert_vehs_to_abso_row self obs = Ok abso /\
    EnvironmentModel.convert_vehs_to_rela_row self abso = Ok obs /\
    same_ego_tracking self obs abso /\
    EnvironmentModel.convert_vehs_to_rela_row self obs = Ok rela /\
    same_ego_tracking self obs rela.
Proof.
  intro Hwf.
  destruct (well_formed_split self V obs Hwf) as (ego & trk & veh & -> & He & Ht & Hv).
  pose proof (ego_tile_length ego V) as Hl.
  exists (ego ++ trk ++ zipw Rplus veh (ego_tile ego V)),
         (ego ++ trk ++ zipw Rminus veh (ego_tile ego V)).
  rewrite (convert_vehs_to_abso_row_wf self V) by assumption.
  rewrite (convert_vehs_to_rela_row_wf self V ego trk veh) by assumption.
  rewrite (convert_vehs_to_rela_row_wf self V ego trk (zipw Rplus veh (ego_tile ego V)))
    by (try assumption; rewrite zipw_length; lia).
  rewrite zipw_plus_minus by lia.
  unfold same_ego_tracking. rewrite !segments_app by assumption.
  repeat split; reflexivity.
Qed.

(** C4.  On a batch of well-formed rows, [convert_vehs_to_abso] returns a
    batch that [convert_vehs_to_rela] sends back to the input, and both
    conversions return the ego and tracking segments of their input. *)
Theorem convert_vehs_inverse (self : EnvironmentModel.t) (obs : list (list R)) :
  Forall (fun row => exists V, EnvironmentModel.well_formed self V row) obs ->
  exists abso rela,
    EnvironmentModel.convert_vehs_to_abso self obs = Ok abso /\
    EnvironmentModel.convert_vehs_to_rela self abso = Ok obs /\
    Forall2 (same_ego_tracking self) obs abso /\
    EnvironmentModel.convert_vehs_to_rela self obs = Ok rela /\
    Forall2 (same_ego_tracking self) obs rela.
Proof.
  unfold EnvironmentModel.convert_vehs_to_abso, EnvironmentModel.convert_vehs_to_rela.
  induction 1 as [|row rows [V Hwf] _ (abso & rela & Ha & Hb & Hs & Hr & Hs')].
  - exists [], []; repeat split; constructor.
  - destruct (convert_rows_inverse self V row Hwf)
      as (a & r & Ha1 & Hb1 & Hs1 & Hr1 & Hs1').
    exists (a :: abso), (r :: rela); simpl.
    rewrite Ha1, Hr1; simpl. rewrite Ha, Hr; simpl. rewrite Hb1; simpl. rewrite Hb; simpl.
    repeat split; try reflexivity; constructor; assumption.
Qed.

Lemma convert_vehs_inverse_witness :
  exists abso rela,
    EnvironmentModel.convert_vehs_to_abso (model_of "left" 0)
      [[8; 0; 0; 1; 2; 90; 0; 0; 0; 5; 6; 3; 90]] = Ok abso /\
    EnvironmentModel.convert_vehs_to_rela (model_of "left" 0) abso
    = Ok [[8; 0; 0; 1; 2; 90; 0; 0; 0; 5; 6; 3; 90]] /\
    Forall2 (same_ego_tracking (model_of "left" 0))
            [[8; 0; 0; 1; 2; 90; 0; 0; 0; 5; 6; 3; 90]] abso /\
    EnvironmentModel.convert_vehs_to_rela (model_of "left" 0)
      [[8; 0; 0; 1; 2; 90; 0; 0; 0; 5; 6; 3; 90]] = Ok rela /\
    Forall2 (same_ego_tracking (model_of "left" 0))
            [[8; 0; 0; 1; 2; 90; 0; 0; 0; 5; 6; 3; 90]] rela.
Proof.
  apply (convert_vehs_inverse (model_of "left" 0)
           [[8; 0; 0; 1; 2; 90; 0; 0; 0; 5; 6; 3; 90]]).
  repeat constructor. exists 1%nat. reflexivity.
Defined.

(** ** compute_rewards *)

Lemma veh2veh_pair_zero (acc : R * R) (ego_point veh_point : R * R) :
  EnvironmentModel.veh2veh_pair 0 acc ego_point veh_point
  = (fst acc + 12.25, snd acc - 2.5).
Proof.
  unfold EnvironmentModel.veh2veh_pair, np_square.
  rewrite !np_lt_true by lra. unfold np_where. f_equal; lra.
Qed.

Lemma slice_length {A : Type} (row : list A) (lo hi : nat) :
  (hi <= length row)%nat -> length (slice row lo hi) = (hi - lo)%nat.
Proof.
  intro H; unfold slice. rewrite length_firstn, length_skipn. lia.
Qed.

Lemma columns4 {A : Type} (row : list A) :
  length row = 4%nat -> exists c0 c1 c2 c3, row = [c0; c1; c2; c3].
Proof.
  intro H. destruct row as [|c0 [|c1 [|c2 [|c3 [|c4 rest]]]]]; simpl in H; try lia.
  now exists c0, c1, c2, c3.
Qed.

(** Every vehicle adds 4 * 3.5^2 to the training channel and 4 * (-2.5) to
    the real channel, wherever it is. *)
Lemma veh2veh_loop_value (O : outside) (veh_infos : list R) (front rear : R * R)
  (k s : nat) (acc : R * R) :
  (4 * (s + k) <= length veh_infos)%nat ->
  EnvironmentModel.veh2veh_loop O veh_infos front rear 0 (seq s k) acc
  = Ok (fst acc + 49 * INR k, snd acc - 10 * INR k).
Proof.
  revert s acc; induction k as [|k IH]; intros s acc H.
  - simpl. destruct acc; simpl; f_equal; f_equal; lra.
  - cbn [seq EnvironmentModel.veh2veh_loop].
    unfold EnvironmentModel.per_veh_info_dim.
    destruct (columns4 (slice veh_infos (s * 4) ((s + 1) * 4)))
      as (c0 & c1 & c2 & c3 & ->); [rewrite slice_length; lia|].
    cbv [col nth_error bind fold_left].
    rewrite !veh2veh_pair_zero. rewrite IH by lia.
    cbn [fst snd]. rewrite S_INR. f_equal; f_equal; lra.
Qed.

Lemma veh2veh_value (O : outside) (front rear : R * R) (veh_infos : list R) (V : nat) :
  length veh_infos = (4 * V)%nat -> (1 <= V)%nat ->
  EnvironmentModel.veh2veh O front rear veh_infos = Ok (49 * INR V, - 10 * INR V).
Proof.
  intros Hl HV. unfold EnvironmentModel.veh2veh, EnvironmentModel.per_veh_info_dim.
  destruct veh_infos as [|v0 rest]; [simpl in Hl; lia|].
  cbv [col nth_error bind].
  rewrite Hl, Nat.mul_comm, Nat.div_mul by discriminate.
  rewrite veh2veh_loop_value by lia.
  cbn [fst snd]. f_equal; f_equal; lra.
Qed.

Lemma veh2road_point_total (O : outside) (task : string) (acc point : R * R) :
  valid_task task -> exists v, EnvironmentModel.veh2road_point O task acc point = Ok v.
Proof.
  intros [-> | [-> | ->]]; unfold EnvironmentModel.veh2road_point; simpl;
    eexists; reflexivity.
Qed.

Lemma veh2road_total (O : outside) (task : string) (front rear : R * R) :
  valid_task task -> exists v, EnvironmentModel.veh2road O task front rear = Ok v.
Proof.
  intro Ht. unfold EnvironmentModel.veh2road.
  destruct (veh2road_point_total O task (0, 0) front Ht) as [acc ->]. simpl.
  apply veh2road_point_total, Ht.
Qed.

Lemma tracking_reward_nonpos (obs actions : list R) : tracking_reward obs actions <= 0.
Proof.
  unfold tracking_reward, np_square.
  pose proof (Rle_0_sqr (nth 8 obs 0)) as H1.
  pose proof (Rle_0_sqr (nth 6 obs 0)) as H2.
  pose proof (Rle_0_sqr (nth 7 obs 0 * PI / 180)) as H3.
  pose proof (Rle_0_sqr (nth 2 obs 0)) as H4.
  pose proof (Rle_0_sqr (nth 0 actions 0)) as H5.
  pose proof (Rle_0_sqr (nth 1 actions 0)) as H6.
  unfold Rsqr in *. lra.
Qed.

Lemma compute_rewards_row_value (O : outside) (self : EnvironmentModel.t) (V : nat)
  (obs actions : list R) :
  valid_task (EnvironmentModel.task self) ->
  EnvironmentModel.well_formed self V obs -> (1 <= V)%nat ->
  (2 <= length actions)%nat ->
  exists training real veh2road4real,
    EnvironmentModel.compute_rewards_row O self obs actions
    = Ok (tracking_reward obs actions, training, real, - 10 * INR V, veh2road4real).
Proof.
  intros Htask Hwf HV Hact.
  destruct (well_formed_split self V obs Hwf) as (ego & trk & veh & -> & He & Ht & Hv).
  destruct (columns2 _ Hact) as (steer & a_x & rest' & ->).
  unfold EnvironmentModel.compute_rewards_row.
  rewrite (convert_vehs_to_abso_row_wf self V) by assumption.
  cbv [bind]. rewrite segments_app by assumption.
  destruct (columns6 ego) as (c0 & c1 & c2 & c3 & c4 & c5 & rest & ->); [lia|].
  assert (rest = []) as -> by (destruct rest; [reflexivity | simpl in He; lia]).
  destruct trk as [|t0 [|t1 [|t2 trest]]]; simpl in Ht; try lia.
  cbv [col nth_error].
  rewrite (veh2veh_value O _ _ _ V)
    by first [assumption
             | rewrite zipw_length; [assumption | rewrite ego_tile_length; lia]].
  match goal with
  | |- context [EnvironmentModel.veh2road O ?t ?f ?r] =>
      destruct (veh2road_total O t f r Htask) as [[tr re] ->]
  end.
  cbn [fst snd].
  eexists; eexists; eexists. f_equal. f_equal. f_equal. f_equal. f_equal.
  unfold tracking_reward. cbn [nth app]. ring.
Qed.

(** A row of [compute_rewards], as the conversion of the observation, the
    columns of the action and the terms of the converted observation. *)
Lemma compute_rewards_row_terms (O : outside) (self : EnvironmentModel.t)
  (obs actions : list R) :
  EnvironmentModel.compute_rewards_row O self obs actions
  = (obs' <- EnvironmentModel.convert_vehs_to_abso_row self obs ;;
     a <- EnvironmentModel.action_terms actions ;;
     t <- EnvironmentModel.observation_terms O self obs' ;;
     Ok (fst (fst (fst (fst t))) + 5 * fst a + 0.05 * snd a,
         snd (fst (fst (fst t))), snd (fst (fst t)), snd (fst t), snd t)).
Proof.
  unfold EnvironmentModel.compute_rewards_row, EnvironmentModel.observation_terms,
    EnvironmentModel.action_terms, EnvironmentModel.segments, bind.
  repeat match goal with
         | |- context [match ?x with Ok _ => _ | Raise _ => _ end] => destruct x
         end; reflexivity.
Qed.

Lemma row_terms_ok (O : outside) (self : EnvironmentModel.t) (V : nat)
  (obs actions : list R) :
  valid_task (EnvironmentModel.task self) ->
  EnvironmentModel.well_formed self V obs -> (1 <= V)%nat ->
  (2 <= length actions)%nat ->
  exists obs' a t,
    EnvironmentModel.convert_vehs_to_abso_row self obs = Ok obs' /\
    EnvironmentModel.action_terms actions = Ok a /\
    EnvironmentModel.observation_terms O self obs' = Ok t /\
    fst (fst (fst (fst t))) + 5 * fst a + 0.05 * snd a = tracking_reward obs actions.
Proof.
  intros Htask Hwf HV Hact.
  destruct (compute_rewards_row_value O self V obs actions Htask Hwf HV Hact)
    as (tr & re & w & Hrow).
  rewrite compute_rewards_row_terms in Hrow. unfold bind in Hrow.
  destruct (EnvironmentModel.convert_vehs_to_abso_row self obs) as [obs'|]; [|discriminate].
  destruct (EnvironmentModel.action_terms actions) as [a|]; [|discriminate].
  destruct (EnvironmentModel.observation_terms O self obs') as [t|] eqn:Et; [|discriminate].
  exists obs', a, t. split; [reflexivity|]. split; [reflexivity|]. split; [exact Et|].
  injection Hrow as H _ _ _ _. exact H.
Qed.

Lemma row_terms_raise (O : outside) (self : EnvironmentModel.t) (obs actions : list R)
  (e : exn) :
  EnvironmentModel.compute_rewards_row O self obs actions = Raise e ->
  (2 <= length actions)%nat ->
  (exists obs', EnvironmentModel.convert_vehs_to_abso_row self obs = Ok obs') ->
  exists obs' a,
    EnvironmentModel.convert_vehs_to_abso_row self obs = Ok obs' /\
    EnvironmentModel.action_terms actions = Ok a /\
    EnvironmentModel.observation_terms O self obs' = Raise e.
Proof.
  intros Hrow Hact (obs' & Hc).
  destruct (columns2 _ Hact) as (st & ax & rest & ->).
  rewrite compute_rewards_row_terms, Hc in Hrow. cbv [bind] in Hrow.
  cbv [EnvironmentModel.action_terms col nth_error bind] in *.
  exists obs'. eexists. split; [exact Hc|]. split; [reflexivity|].
  destruct (EnvironmentModel.observation_terms O self obs') as [t|e']; [discriminate|].
  now injection Hrow as ->.
Qed.

Lemma batch_terms_paired (O : outside) (self : EnvironmentModel.t)
  (obses actions : list (list R)) :
  valid_task (EnvironmentModel.task self) ->
  length obses = length actions ->
  Forall (fun row => exists V, EnvironmentModel.well_formed self V row /\ (1 <= V)%nat)
         obses ->
  Forall (fun row => (2 <= length row)%nat) actions ->
  exists ts acts,
    EnvironmentModel.batch_terms O self obses actions = Ok (ts, acts) /\
    length ts = length acts /\
    Forall2 (fun oa r => r = tracking_reward (fst oa) (snd oa))
            (combine obses actions) (map row_reward (combine ts acts)).
Proof.
  intros Htask Hlen Hobs; revert actions Hlen.
  induction Hobs as [|o os (V & Hwf & HV) _ IH]; intros [|u us] Hlen Hact;
    simpl in Hlen; try lia.
  - exists [], []. repeat split; constructor.
  - inversion Hact as [|u' us' H2 Hus]; subst.
    destruct (IH us) as (ts & acts & Hts & Hl & Hall); [lia | exact Hus |].
    destruct (row_terms_ok O self V o u Htask Hwf HV H2) as (o' & a & t & Hc & Ha & Ht & Hr).
    cbn [EnvironmentModel.batch_terms]. rewrite Hc. cbv [bind]. rewrite Ha, Ht, Hts.
    cbn [fst snd]. exists (t :: ts), (a :: acts).
    split; [reflexivity|]. split; [simpl; lia|].
    cbn [combine map]. constructor; [|exact Hall].
    unfold row_reward. cbn [fst snd]. exact Hr.
Qed.

Lemma zipw_row_reward (ts : list (R * R * R * R * R)) (acts : list (R * R)) :
  length ts = length acts ->
  zipw Rplus (zipw Rplus (map (fun t => fst (fst (fst (fst t)))) ts)
                         (map (Rmult 5) (map fst acts)))
       (map (Rmult 0.05) (map snd acts))
  = map row_reward (combine ts acts).
Proof.
  revert acts; induction ts as [|t ts IH]; intros [|a acts] H; simpl in H; try lia.
  - reflexivity.
  - specialize (IH acts). unfold zipw in *. cbn [map combine fst snd].
    rewrite IH by lia. reflexivity.
Qed.

Lemma neg_squares_nonpos (a b c d : R) :
  0.05 * - np_square a + 0.8 * - np_square b + 30 * - np_square c
  + 0.02 * - np_square d <= 0.
Proof.
  unfold np_square.
  pose proof (Rle_0_sqr a) as Ha. pose proof (Rle_0_sqr b) as Hb.
  pose proof (Rle_0_sqr c) as Hc. pose proof (Rle_0_sqr d) as Hd.
  unfold Rsqr in *. lra.
Qed.

Lemma observation_terms_nonpos (O : outside) (self : EnvironmentModel.t)
  (obs : list R) (t : R * R * R * R * R) :
  EnvironmentModel.observation_terms O self obs = Ok t ->
  fst (fst (fst (fst t))) <= 0.
Proof.
  unfold EnvironmentModel.observation_terms, EnvironmentModel.segments, bind.
  intro H.
  repeat match type of H with
         | context [match ?x with Ok _ => _ | Raise _ => _ end] =>
             destruct x; try discriminate H
         end.
  injection H as <-. cbn [fst]. apply neg_squares_nonpos.
Qed.

Lemma action_terms_nonpos (actions : list R) (a : R * R) :
  EnvironmentModel.action_terms actions = Ok a -> fst a <= 0 /\ snd a <= 0.
Proof.
  unfold EnvironmentModel.action_terms, bind. intro H.
  repeat match type of H with
         | context [match ?x with Ok _ => _ | Raise _ => _ end] =>
             destruct x; try discriminate H
         end.
  injection H as <-. cbn [fst snd]. unfold np_square.
  match goal with |- - (?x * ?x) <= 0 /\ - (?y * ?y) <= 0 =>
    pose proof (Rle_0_sqr x) as Hx; pose proof (Rle_0_sqr y) as Hy end.
  unfold Rsqr in *. lra.
Qed.

Lemma batch_action_terms_nonpos (actions : list (list R)) (acts : list (R * R)) :
  batch EnvironmentModel.action_terms actions = Ok acts ->
  Forall (fun a => fst a <= 0 /\ snd a <= 0) acts.
Proof.
  revert acts; induction actions as [|u us IH]; intros acts H; cbn [batch] in H.
  - injection H as <-. constructor.
  - unfold bind in H.
    destruct (EnvironmentModel.action_terms u) as [a|] eqn:Ea; [|discriminate].
    destruct (batch EnvironmentModel.action_terms us) as [acts'|]; [|discriminate].
    injection H as <-. constructor; [apply (action_terms_nonpos u a Ea) | now apply IH].
Qed.

Lemma batch_terms_nonpos (O : outside) (self : EnvironmentModel.t)
  (obses actions : list (list R)) (ts : list (R * R * R * R * R)) (acts : list (R * R)) :
  EnvironmentModel.batch_terms O self obses actions = Ok (ts, acts) ->
  Forall (fun t => fst (fst (fst (fst t))) <= 0) ts /\
  Forall (fun a => fst a <= 0 /\ snd a <= 0) acts.
Proof.
  revert actions ts acts; induction obses as [|o os IH]; intros actions ts acts H;
    cbn [EnvironmentModel.batch_terms] in H.
  - unfold bind in H.
    destruct (batch EnvironmentModel.action_terms actions) as [acts'|] eqn:Ea;
      [|discriminate].
    injection H as <- <-. split; [constructor | now apply (batch_action_terms_nonpos actions)].
  - destruct actions as [|u us]; unfold bind in H.
    + destruct (EnvironmentModel.convert_vehs_to_abso_row self o) as [o'|]; [|discriminate].
      destruct (EnvironmentModel.observation_terms O self o') as [t|] eqn:Et; [|discriminate].
      destruct (EnvironmentModel.batch_terms O self os []) as [[ts' acts']|] eqn:Er;
        [|discriminate].
      injection H as <- <-. destruct (IH [] ts' acts' Er) as [Ht Ha].
      split; [constructor; [apply (observation_terms_nonpos O self o' t Et) | exact Ht]
             | exact Ha].
    + destruct (EnvironmentModel.convert_vehs_to_abso_row self o) as [o'|]; [|discriminate].
      destruct (EnvironmentModel.action_terms u) as [a|] eqn:Ea; [|discriminate].
      destruct (EnvironmentModel.observation_terms O self o') as [t|] eqn:Et; [|discriminate].
      destruct (EnvironmentModel.batch_terms O self os us) as [[ts' acts']|] eqn:Er;
        [|discriminate].
      injection H as <- <-. destruct (IH us ts' acts' Er) as [Ht Ha].
      split; constructor; try assumption.
      * apply (observation_terms_nonpos O self o' t Et).
      * apply (action_terms_nonpos u a Ea).
Qed.

Lemma Forall_map_nonpos {A : Type} (f : A -> R) (P : A -> Prop) (l : list A) :
  (forall a, P a -> f a <= 0) -> Forall P l -> Forall (fun r => r <= 0) (map f l).
Proof.
  intros Hf; induction 1; cbn [map]; constructor; auto.
Qed.

Lemma broadcast2_plus_nonpos (u v w : list R) :
  broadcast2 Rplus u v = Ok w ->
  Forall (fun r => r <= 0) u -> Forall (fun r => r <= 0) v ->
  Forall (fun r => r <= 0) w.
Proof.
  intros H Hu Hv. unfold broadcast2 in H.
  assert (Hz : forall u' v', Forall (fun r => r <= 0) u' -> Forall (fun r => r <= 0) v' ->
                             Forall (fun r => r <= 0) (zipw Rplus u' v')).
  { intros u' v' Hu'; revert v'; induction Hu' as [|a u' Ha _ IH]; intros v' Hv'.
    - constructor.
    - destruct Hv' as [|b v' Hb Hv']; [constructor|].
      unfold zipw in *; cbn [combine map fst snd]. constructor; [lra | apply IH, Hv']. }
  assert (Hl : forall a l, a <= 0 -> Forall (fun r => r <= 0) l ->
                           Forall (fun r => r <= 0) (map (fun b => a + b) l)).
  { intros a l Ha Hl. apply (Forall_map_nonpos _ (fun r => r <= 0)); [intros; lra | exact Hl]. }
  assert (Hr : forall b l, b <= 0 -> Forall (fun r => r <= 0) l ->
                           Forall (fun r => r <= 0) (map (fun a => a + b) l)).
  { intros b l Hb Hl'. apply (Forall_map_nonpos _ (fun r => r <= 0)); [intros; lra | exact Hl']. }
  destruct (Nat.eqb (length u) (length v)).
  - injection H as <-. apply Hz; assumption.
  - destruct u as [|a [|a' u]].
    + destruct v as [|b [|b' v]]; try discriminate H.
      injection H as <-. constructor.
    + injection H as <-. apply Hl; [now inversion Hu | exact Hv].
    + destruct v as [|b [|b' v]]; try discriminate H.
      injection H as <-. apply (Hr b (a :: a' :: u)); [now inversion Hv | exact Hu].
Qed.

Lemma broadcast2_value_error (op : R -> R -> R) (u v : list R) :
  length u <> length v -> length u <> 1%nat -> length v <> 1%nat ->
  broadcast2 op u v = Raise ValueError.
Proof.
  intros Hne Hu Hv. unfold broadcast2.
  destruct (Nat.eqb_spec (length u) (length v)); [contradiction|].
  destruct u as [|a [|a' u]]; destruct v as [|b [|b' v]]; simpl in *; try lia; reflexivity.
Qed.

Lemma broadcast2_ok (op : R -> R -> R) (u v : list R) :
  length u = length v \/ length u = 1%nat \/ length v = 1%nat ->
  exists w, broadcast2 op u v = Ok w /\
            length w = if Nat.eqb (length u) 1 then length v else length u.
Proof.
  intro H. unfold broadcast2.
  destruct (Nat.eqb_spec (length u) (length v)) as [e|ne].
  - eexists; split; [reflexivity|]. rewrite zipw_length by exact e.
    destruct (Nat.eqb_spec (length u) 1); lia.
  - destruct u as [|a [|a' u]]; destruct v as [|b [|b' v]]; simpl in *;
      try lia; eexists; (split; [reflexivity|]); cbn [map length];
      rewrite ?length_map; reflexivity.
Qed.

Lemma batch_action_terms_total (actions : list (list R)) :
  Forall (fun row => (2 <= length row)%nat) actions ->
  exists acts, batch EnvironmentModel.action_terms actions = Ok acts /\
               length acts = length actions.
Proof.
  induction 1 as [|u us H2 _ (acts & IH & Hl)]; [exists []; split; reflexivity|].
  destruct (columns2 _ H2) as (st & ax & rest & ->).
  cbn [batch]. cbv [EnvironmentModel.action_terms col nth_error bind] in *.
  rewrite IH. eexists; split; [reflexivity | simpl; lia].
Qed.

(** On rows that are well formed, [batch_terms] returns the terms of every
    observation and of every action, whatever the two lengths. *)
Lemma batch_terms_total (O : outside) (self : EnvironmentModel.t)
  (obses actions : list (list R)) :
  valid_task (EnvironmentModel.task self) ->
  Forall (fun row => exists V, EnvironmentModel.well_formed self V row /\ (1 <= V)%nat)
         obses ->
  Forall (fun row => (2 <= length row)%nat) actions ->
  exists ts acts,
    EnvironmentModel.batch_terms O self obses actions = Ok (ts, acts) /\
    length ts = length obses /\ length acts = length actions.
Proof.
  intros Htask Hobs; revert actions.
  induction Hobs as [|o os (V & Hwf & HV) _ IH]; intros actions Hact.
  - cbn [EnvironmentModel.batch_terms].
    destruct (batch_action_terms_total actions Hact) as (acts & -> & Hl).
    cbv [bind]. exists [], acts. split; [reflexivity|]. split; [reflexivity | exact Hl].
  - cbn [EnvironmentModel.batch_terms]. destruct actions as [|u us].
    + destruct (row_terms_ok O self V o [0; 0] Htask Hwf HV) as (o' & a & t & Hc & _ & Ht & _);
        [simpl; lia|].
      destruct (IH [] Hact) as (ts & acts & Hts & Hl1 & Hl2).
      rewrite Hc. cbv [bind]. rewrite Ht, Hts. cbn [fst snd].
      exists (t :: ts), acts. split; [reflexivity|]. split; [simpl; lia | exact Hl2].
    + inversion Hact as [|u' us' H2 Hus]; subst.
      destruct (row_terms_ok O self V o u Htask Hwf HV H2) as (o' & a & t & Hc & Ha & Ht & _).
      destruct (IH us Hus) as (ts & acts & Hts & Hl1 & Hl2).
      rewrite Hc. cbv [bind]. rewrite Ha, Ht, Hts. cbn [fst snd].
      exists (t :: ts), (a :: acts). split; [reflexivity|]. split; simpl; lia.
Qed.

(** What [compute_rewards] does with the lengths of its two batches, on
    well-formed rows: the penalties have the length of the observation
    batch; one action row is applied to every observation; one observation
    row gives a reward for every action; any other pair of different lengths
    raises [ValueError] in the sum of the reward. *)
Lemma compute_rewards_shapes (O : outside) (self : EnvironmentModel.t)
  (obses actions : list (list R)) :
  valid_task (EnvironmentModel.task self) ->
  Forall (fun row => exists V, EnvironmentModel.well_formed self V row /\ (1 <= V)%nat)
         obses ->
  Forall (fun row => (2 <= length row)%nat) actions ->
  (length obses <> length actions -> length obses <> 1%nat -> length actions <> 1%nat ->
   EnvironmentModel.compute_rewards O self obses actions = Raise ValueError) /\
  (length obses = length actions \/ length obses = 1%nat \/ length actions = 1%nat ->
   exists rewards training real veh2veh4real veh2road4real,
     EnvironmentModel.compute_rewards O self obses actions
     = Ok (rewards, training, real, veh2veh4real, veh2road4real) /\
     length rewards
     = (if Nat.eqb (length obses) 1 then length actions else length obses) /\
     length training = length obses /\ length real = length obses /\
     length veh2veh4real = length obses /\ length veh2road4real = length obses).
Proof.
  intros Htask Hobs Hact.
  destruct (batch_terms_total O self obses actions Htask Hobs Hact)
    as (ts & acts & Hts & Hl1 & Hl2).
  unfold EnvironmentModel.compute_rewards. rewrite Hts. cbv [bind]. cbn [fst snd].
  split.
  - intros Hne H1 H2.
    rewrite broadcast2_value_error by (rewrite ?length_map; lia). reflexivity.
  - intro Hsh.
    destruct (broadcast2_ok Rplus (map (fun t => fst (fst (fst (fst t)))) ts)
                (map (Rmult 5) (map fst acts))) as (r & -> & Hr);
      [rewrite !length_map; lia|].
    rewrite !length_map in Hr.
    destruct (broadcast2_ok Rplus r (map (Rmult 0.05) (map snd acts))) as (w & -> & Hw).
    { rewrite !length_map, Hr. destruct (Nat.eqb_spec (length ts) 1); lia. }
    rewrite !length_map in Hw.
    do 5 eexists. split; [reflexivity|]. rewrite !length_map.
    repeat split; try exact Hl1.
    rewrite Hw, Hr, <- Hl1, <- Hl2.
    destruct (Nat.eqb_spec (length ts) 1) as [e1|n1].
    + destruct (Nat.eqb_spec (length acts) 1); lia.
    + destruct (Nat.eqb_spec (length ts) 1); lia.
Qed.

(** C10.  The reward that [compute_rewards] returns is nonpositive for
    every instance, whatever the two batches: it is a sum of negated squares
    with the weights 0.05, 0.8, 30, 0.02, 5, 0.05.  On well-formed rows with
    at least one vehicle, a valid task and batches of the same length,
    [compute_rewards] does return, and the reward of each instance is the
    negated weighted sum of the six squares of its tracking deviations, its
    yaw rate and its actions, with no term of the vehicle or road blocks. *)
Theorem compute_rewards_nonpositive (O : outside) (self : EnvironmentModel.t)
  (obses actions : list (list R)) :
  valid_task (EnvironmentModel.task self) ->
  Forall (fun row => exists V, EnvironmentModel.well_formed self V row /\ (1 <= V)%nat)
         obses ->
  Forall (fun row => (2 <= length row)%nat) actions ->
  (forall rewards training real veh2veh4real veh2road4real,
     EnvironmentModel.compute_rewards O self obses actions
     = Ok (rewards, training, real, veh2veh4real, veh2road4real) ->
     Forall (fun r => r <= 0) rewards) /\
  (length obses = length actions ->
   exists rewards training real veh2veh4real veh2road4real,
     EnvironmentModel.compute_rewards O self obses actions
     = Ok (rewards, training, real, veh2veh4real, veh2road4real) /\
     Forall2 (fun oa r => r = tracking_reward (fst oa) (snd oa) /\ r <= 0)
             (combine obses actions) rewards).
Proof.
  intros Htask Hobs Hact. split.
  - intros rewards tr re v2v v2r H.
    unfold EnvironmentModel.compute_rewards, bind in H.
    destruct (EnvironmentModel.batch_terms O self obses actions) as [[ts acts]|] eqn:Et;
      [|discriminate].
    cbn [fst snd] in H.
    destruct (batch_terms_nonpos O self obses actions ts acts Et) as [Hts Hacts].
    destruct (broadcast2 Rplus _ _) as [r|] eqn:E1; [|discriminate].
    destruct (broadcast2 Rplus r _) as [r'|] eqn:E2; [|discriminate].
    injection H as <- _ _ _ _.
    apply (broadcast2_plus_nonpos _ _ _ E2).
    + apply (broadcast2_plus_nonpos _ _ _ E1).
      * apply (Forall_map_nonpos _ _ ts (fun t H => H) Hts).
      * rewrite map_map.
        apply (Forall_map_nonpos _ (fun a => fst a <= 0 /\ snd a <= 0));
          [intros a [Ha _]; lra | exact Hacts].
    + rewrite map_map.
      apply (Forall_map_nonpos _ (fun a => fst a <= 0 /\ snd a <= 0));
        [intros a [_ Ha]; lra | exact Hacts].
  - intro Hlen.
    destruct (batch_terms_paired O self obses actions Htask Hlen Hobs Hact)
      as (ts & acts & Hts & Hl & Hall).
    unfold EnvironmentModel.compute_rewards. rewrite Hts. cbv [bind]. cbn [fst snd].
    rewrite broadcast2_same by (rewrite !length_map; exact Hl).
    rewrite broadcast2_same
      by (rewrite zipw_length; rewrite !length_map; [exact Hl | exact Hl]).
    rewrite zipw_row_reward by exact Hl.
    do 5 eexists. split; [reflexivity|].
    revert Hall. generalize (map row_reward (combine ts acts)).
    generalize (combine obses actions).
    induction 1 as [|oa r l l' -> _ IH]; constructor; [|exact IH].
    split; [reflexivity | apply tracking_reward_nonpos].
Qed.

Lemma compute_rewards_nonpositive_witness :
  exists rewards training real veh2veh4real veh2road4real,
    EnvironmentModel.compute_rewards crossroad (model_of "left" 0)
      [[8; 0; 0.1; 1.875; -30; 90; 0.5; 3; -1; 5; 6; 3; 90]] [[0.2; -1]]
    = Ok (rewards, training, real, veh2veh4real, veh2road4real) /\
    Forall2 (fun oa r => r = tracking_reward (fst oa) (snd oa) /\ r <= 0)
            (combine [[8; 0; 0.1; 1.875; -30; 90; 0.5; 3; -1; 5; 6; 3; 90]]
                     [[0.2; -1]]) rewards.
Proof.
  destruct (compute_rewards_nonpositive crossroad (model_of "left" 0)
              [[8; 0; 0.1; 1.875; -30; 90; 0.5; 3; -1; 5; 6; 3; 90]] [[0.2; -1]])
    as [_ Htotal].
  - left; reflexivity.
  - repeat constructor. exists 1%nat. split; [reflexivity | lia].
  - repeat constructor.
  - apply Htotal. reflexivity.
Defined.

Lemma corner_dist_lower (p q : R * R) (d : R) :
  0 <= d -> d * d <= np_square (fst p - fst q) + np_square (snd p - snd q) ->
  d <= corner_dist p q.
Proof.
  intros Hd H. unfold corner_dist.
  rewrite <- (sqrt_square d) by exact Hd.
  apply sqrt_le_1_alt, H.
Qed.

(** C1 fails on the code.  An ego vehicle at the origin and one other
    vehicle 100 m away: every corner-to-corner distance exceeds 3.5 m, and
    yet the training channel of the vehicle block is 4 * 3.5^2 = 49 and the
    returned [veh2veh4real] is 4 * (-2.5) = -10. *)
Theorem compute_rewards_veh2veh_far_vehicle (O : outside) :
  let lws := (L O - W O) / 2 in
  let ego_front_points := front_point lws 0 0 0 in
  let ego_rear_points := rear_point lws 0 0 0 in
  let veh_front_points := front_point lws 0 100 0 in
  let veh_rear_points := rear_point lws 0 100 0 in
  let obs := [8; 0; 0; 0; 0; 0; 0; 0; 0; 0; 100; 5; 0] in
  Forall (fun ego_point =>
            Forall (fun veh_point => 3.5 < corner_dist ego_point veh_point)
                   [veh_front_points; veh_rear_points])
         [ego_front_points; ego_rear_points] /\
  EnvironmentModel.veh2veh O ego_front_points ego_rear_points [0; 100; 5; 0]
  = Ok (49, -10) /\
  exists training real veh2road4real,
    EnvironmentModel.compute_rewards_row O (model_of "left" 0) obs [0; 0]
    = Ok (tracking_reward obs [0; 0], training, real, -10, veh2road4real).
Proof.
  intros lws ef er vf vr obs. repeat split.
  - assert (Hfar : forall p q, snd p = 0 -> snd q = 100 -> 3.5 < corner_dist p q).
    { intros p q Hp Hq. apply Rlt_le_trans with 100; [lra|].
      apply corner_dist_lower; [lra|]. rewrite Hp, Hq. unfold np_square.
      pose proof (Rle_0_sqr (fst p - fst q)) as H; unfold Rsqr in H. lra. }
    assert (Hs : sin (0 * PI / 180) = 0)
      by (replace (0 * PI / 180) with 0 by lra; apply sin_0).
    repeat constructor; apply Hfar; unfold ef, er, vf, vr, front_point, rear_point;
      cbn [snd]; rewrite Hs; lra.
  - rewrite (veh2veh_value O _ _ _ 1) by (simpl; lia).
    simpl INR. f_equal; f_equal; lra.
  - destruct (compute_rewards_row_value O (model_of "left" 0) 1 obs [0; 0])
      as (tr & re & w & H).
    + left; reflexivity.
    + reflexivity.
    + lia.
    + simpl; lia.
    + exists tr, re, w. rewrite H. simpl INR. do 4 f_equal. lra.
Qed.

(** ** EnvironmentModel.__init__ *)

Lemma rewards_mode_unbound (locals : scope) :
  lookup "rewards_mode" locals = None ->
  load_name locals module_globals builtins "rewards_mode"
  = Raise (NameError "rewards_mode").
Proof. intro H; unfold load_name; rewrite H; reflexivity. Qed.

Lemma init_unfolded (O : outside) (task : string)
  (num_future_data : nat) (costs_mode : string) :
  EnvironmentModel.init O task num_future_data costs_mode
  = match ReferencePath.init O task None with
    | Ok _ => Raise (NameError "rewards_mode")
    | Raise e => Raise e
    end.
Proof.
  unfold EnvironmentModel.init.
  destruct (ReferencePath.init O task None) as [ref_path|e]; [|reflexivity].
  cbv [bind]. rewrite rewards_mode_unbound; reflexivity.
Qed.

(** The call of [test_model], [EnvironmentModel('left', 0)], on a crossroad
    with one candidate path. *)
Example EnvironmentModel_left_raises :
  EnvironmentModel.init
    {| L := 4.8; W := 2; CROSSROAD_SIZE := 50; LANE_WIDTH := 3.75; LANE_NUMBER := 1;
       planed_trjs := fun _ => [([0; 1], [0; 0], [0; 0])];
       random_choice := fun _ => 0%nat |}
    "left" 0 "penalty"
  = Raise (NameError "rewards_mode").
Proof. rewrite init_unfolded. reflexivity. Qed.

(** C2 fails on the code.  [__init__] never returns an instance: either
    building the reference path raises, or the assignment of
    [self.rewards_mode] raises [NameError], for every task, number of future
    points and cost mode. *)
Theorem EnvironmentModel_init_raises (O : outside) (task : string)
  (num_future_data : nat) (costs_mode : string) :
  (exists e, EnvironmentModel.init O task num_future_data costs_mode = Raise e) /\
  EnvironmentModel.init O task num_future_data costs_mode
  = match ReferencePath.init O task None with
    | Ok _ => Raise (NameError "rewards_mode")
    | Raise e => Raise e
    end.
Proof.
  split; [|apply init_unfolded].
  rewrite init_unfolded.
  destruct (ReferencePath.init O task None) as [ref_path|e]; eexists; reflexivity.
Qed.

(** ** ReferencePath.future_n_data *)

Lemma py_index_in_range (arr : list R) (i : Z) :
  (0 <= i < Z.of_nat (length arr))%Z -> py_index arr i = Ok (nth (Z.to_nat i) arr 0).
Proof.
  intros [H0 H1]. unfold py_index.
  destruct (Z.leb_spec 0 i); [|lia]. destruct (Z.ltb_spec i (Z.of_nat (length arr))); [|lia].
  cbn [andb]. unfold col. rewrite (nth_error_nth' arr 0) by lia. reflexivity.
Qed.

Lemma indexs2points_clamped (self : ReferencePath.t) (i : Z) :
  well_formed_path self ->
  ReferencePath.indexs2points self i
  = Ok (point_at self (Z.max 0 (Z.min i (ReferencePath.path_len self - 1)))).
Proof.
  unfold well_formed_path, ReferencePath.indexs2points, point_at, ReferencePath.path_len.
  destruct (ReferencePath.path self) as [[xs ys] phis]; cbn [fst snd].
  intros (Hx & Hy & Hp).
  set (n := Z.of_nat (length xs)).
  set (j := np_where (np_where (0 <=? i)%Z i 0%Z <? n)%Z
                     (np_where (0 <=? i)%Z i 0%Z) (n - 1)%Z).
  assert (Hj : j = Z.max 0 (Z.min i (n - 1))).
  { unfold j, np_where. destruct (Z.leb_spec 0 i);
      match goal with |- context [(?a <? ?b)%Z] => destruct (Z.ltb_spec a b) end; lia. }
  rewrite Hj.
  assert (Hr : (0 <= Z.max 0 (Z.min i (n - 1)) < n)%Z) by lia.
  rewrite !py_index_in_range by (try rewrite Hy; try rewrite Hp; exact Hr).
  reflexivity.
Qed.

Lemma future_n_loop_points (self : ReferencePath.t) (k : nat) (i : Z) :
  well_formed_path self ->
  ReferencePath.future_n_loop self k i
  = Ok (map (fun m => point_at self (future_index self i m)) (seq 1 k)).
Proof.
  intro Hwf. revert i; induction k as [|k IH]; intro i; [reflexivity|].
  cbn [ReferencePath.future_n_loop seq map].
  set (len := ReferencePath.path_len self).
  assert (Hlen : (1 <= len)%Z).
  { unfold len, ReferencePath.path_len. unfold well_formed_path in Hwf.
    destruct (ReferencePath.path self) as [[xs ys] phis]; cbn [fst snd]. lia. }
  assert (Hc : np_where (len - 2 <=? i + 80)%Z (len - 2)%Z (i + 80)%Z
               = Z.min (i + 80) (len - 2)).
  { unfold np_where. destruct (Z.leb_spec (len - 2) (i + 80)); lia. }
  rewrite Hc, indexs2points_clamped by exact Hwf. cbv [bind].
  rewrite IH. fold len. f_equal. f_equal.
  - f_equal. unfold future_index. fold len. lia.
  - rewrite <- (seq_shift k 1), map_map. apply map_ext. intro m.
    f_equal. unfold future_index. fold len. lia.
Qed.

(** C8, as the code has it.  On a path with at least one sample, for every
    starting index and every [n >= 0], [future_n_data] returns [n] points;
    the point of rank [m] is the sample of index
    [max 0 (min (index + 80 * (m + 1)) (len - 2))].  No such index exceeds the
    last valid index [len - 1], and every advanced index at or past
    [len - 2], so every one past the end of the path, yields the sample of
    index [len - 2] (of index 0 on a path of one sample). *)
Theorem future_n_data_clamped (self : ReferencePath.t) (i n : Z) :
  well_formed_path self -> (0 <= n)%Z ->
  exists points,
    ReferencePath.future_n_data self i n = Ok points /\
    Z.of_nat (length points) = n /\
    forall m, (m < length points)%nat ->
      let j := future_index self i (S m) in
      nth_error points m = Some (point_at self j) /\
      ReferencePath.indexs2points self j = Ok (point_at self j) /\
      (0 <= j <= ReferencePath.path_len self - 1)%Z /\
      ((ReferencePath.path_len self - 2 <= i + 80 * Z.of_nat (S m))%Z ->
       j = Z.max 0 (ReferencePath.path_len self - 2)).
Proof.
  intros Hwf Hn. unfold ReferencePath.future_n_data.
  rewrite future_n_loop_points by exact Hwf.
  eexists; split; [reflexivity|].
  rewrite length_map, length_seq. split; [lia|].
  intros m Hm. set (j := future_index self i (S m)).
  assert (Hlen : (1 <= ReferencePath.path_len self)%Z).
  { unfold ReferencePath.path_len. unfold well_formed_path in Hwf.
    destruct (ReferencePath.path self) as [[xs ys] phis]; cbn [fst snd]. lia. }
  repeat split.
  - rewrite nth_error_map, nth_error_seq.
    destruct (Nat.ltb_spec m (Z.to_nat n)); [reflexivity | lia].
  - rewrite indexs2points_clamped by exact Hwf. f_equal. f_equal.
    unfold j, future_index. lia.
  - unfold j, future_index; lia.
  - unfold j, future_index; lia.
  - intro H. unfold j, future_index. lia.
Qed.

Lemma future_n_data_clamped_witness :
  exists points,
    ReferencePath.future_n_data three_samples 0 2 = Ok points /\
    Z.of_nat (length points) = 2%Z /\
    forall m, (m < length points)%nat ->
      let j := future_index three_samples 0 (S m) in
      nth_error points m = Some (point_at three_samples j) /\
      ReferencePath.indexs2points three_samples j = Ok (point_at three_samples j) /\
      (0 <= j <= ReferencePath.path_len three_samples - 1)%Z /\
      ((ReferencePath.path_len three_samples - 2 <= 0 + 80 * Z.of_nat (S m))%Z ->
       j = Z.max 0 (ReferencePath.path_len three_samples - 2)).
Proof.
  apply (future_n_data_clamped three_samples 0 2).
  - unfold well_formed_path, three_samples; cbn; repeat split; lia.
  - lia.
Defined.

(** C8 as stated fails: on the path of three samples the index 0 + 80 is
    past the end, and the point returned is the sample of index 1, not the
    final sample, of index 2. *)
Lemma future_n_data_not_final_point :
  ReferencePath.future_n_data three_samples 0 1 = Ok [(1, 0, 0)] /\
  ReferencePath.indexs2points three_samples 2 = Ok (2, 0, 0) /\
  (1, 0, 0) <> (2, 0, 0) :> R * R * R.
Proof.
  repeat split.
  intro H; injection H; lra.
Qed.

(** * Further properties *)

(** ** VehicleDynamics.f_xu *)

Lemma np_div_fin (x y : R) : y <> 0 -> np_div x y = Fin (x / y).
Proof.
  intro H; unfold np_div. destruct (Req_dec_T y 0); [contradiction | reflexivity].
Qed.

Lemma stiffness_sum_neg : VehicleDynamics.C_f + VehicleDynamics.C_r < 0.
Proof. unfold VehicleDynamics.C_f, VehicleDynamics.C_r. lra. Qed.

Lemma yaw_stiffness_neg :
  np_square VehicleDynamics.a * VehicleDynamics.C_f
  + np_square VehicleDynamics.b * VehicleDynamics.C_r < 0.
Proof.
  unfold np_square, VehicleDynamics.a, VehicleDynamics.b, VehicleDynamics.C_f,
    VehicleDynamics.C_r. lra.
Qed.

Lemma lateral_denominator_pos (v_x tau : R) :
  0 <= v_x -> 0 < tau ->
  0 < VehicleDynamics.mass * v_x - tau * (VehicleDynamics.C_f + VehicleDynamics.C_r).
Proof.
  intros Hv Ht. pose proof stiffness_sum_neg as Hs.
  assert (0 <= VehicleDynamics.mass * v_x)
    by (unfold VehicleDynamics.mass; nra).
  nra.
Qed.

Lemma yaw_denominator_neg (v_x tau : R) :
  0 <= v_x -> 0 < tau ->
  tau * (np_square VehicleDynamics.a * VehicleDynamics.C_f
         + np_square VehicleDynamics.b * VehicleDynamics.C_r)
  - VehicleDynamics.I_z * v_x < 0.
Proof.
  intros Hv Ht. pose proof yaw_stiffness_neg as Hs.
  assert (0 <= VehicleDynamics.I_z * v_x)
    by (unfold VehicleDynamics.I_z; nra).
  nra.
Qed.

(** X1.  For a non-negative longitudinal velocity and a positive time step,
    no denominator of [f_xu] vanishes: the six columns of the next state and
    both slip angles are real numbers, whatever the other inputs. *)
Theorem f_xu_finite_forward (v_x v_y r x y phi steer a_x tau : R) :
  0 <= v_x -> 0 < tau ->
  exists next_state a_f a_r,
    VehicleDynamics.f_xu_row [v_x; v_y; r; x; y; phi] [steer; a_x] tau
    = Ok (next_state,
          [Fin a_f; Fin a_r; VehicleDynamics.miu_f a_x; VehicleDynamics.miu_r a_x]) /\
    length next_state = 6%nat /\
    Forall is_finite next_state /\
    - (PI / 2) < a_r < PI / 2.
Proof.
  intros Hv Ht.
  pose proof (lateral_denominator_pos v_x tau Hv Ht) as Hd1.
  pose proof (yaw_denominator_neg v_x tau Hv Ht) as Hd2.
  cbv [VehicleDynamics.f_xu_row col bind nth_error].
  unfold VehicleDynamics.alpha_f, VehicleDynamics.alpha_r.
  rewrite !(np_div_fin _ (v_x + 1e-8)) by lra.
  rewrite (np_div_fin _ _ (Rgt_not_eq _ _ Hd1)).
  rewrite (np_div_fin _ _ (Rlt_not_eq _ _ Hd2)).
  cbn [np_arctan np_fsub].
  eexists; eexists; eexists; split; [reflexivity|].
  split; [reflexivity|]. split.
  - repeat constructor; eexists; reflexivity.
  - pose proof (atan_bound ((v_y - VehicleDynamics.b * r) / (v_x + 1e-8))). lra.
Qed.

Lemma f_xu_finite_forward_witness :
  exists next_state a_f a_r,
    VehicleDynamics.f_xu_row [0; 0.3; 0.1; 1; 2; 90] [0.2; -1] 0.1
    = Ok (next_state,
          [Fin a_f; Fin a_r; VehicleDynamics.miu_f (-1); VehicleDynamics.miu_r (-1)]) /\
    length next_state = 6%nat /\
    Forall is_finite next_state /\
    - (PI / 2) < a_r < PI / 2.
Proof.
  apply (f_xu_finite_forward 0 0.3 0.1 1 2 90 0.2 (-1) 0.1); lra.
Defined.

(** X2.  Straight motion is kept: with zero lateral velocity, zero yaw rate
    and zero steering, a non-negative speed and a positive step, the next
    lateral velocity and yaw rate are zero, the speed gains [tau * a_x], the
    position moves along the heading and the heading is unchanged. *)
Theorem f_xu_straight_motion (v_x x y phi a_x tau : R) :
  0 <= v_x -> 0 < tau ->
  exists diagnostics,
    VehicleDynamics.f_xu_row [v_x; 0; 0; x; y; phi] [0; a_x] tau
    = Ok ([Fin (v_x + tau * a_x); Fin 0; Fin 0;
           Fin (x + tau * v_x * cos (phi * PI / 180));
           Fin (y + tau * v_x * sin (phi * PI / 180)); Fin phi],
          diagnostics).
Proof.
  intros Hv Ht.
  pose proof (lateral_denominator_pos v_x tau Hv Ht) as Hd1.
  pose proof (yaw_denominator_neg v_x tau Hv Ht) as Hd2.
  cbv [VehicleDynamics.f_xu_row col bind nth_error].
  rewrite (np_div_fin _ _ (Rgt_not_eq _ _ Hd1)).
  rewrite (np_div_fin _ _ (Rlt_not_eq _ _ Hd2)).
  eexists. apply f_equal. apply (f_equal2 pair); [|reflexivity].
  repeat (apply (f_equal2 cons); [apply (f_equal Fin)|]); try reflexivity.
  - ring.
  - field. lra.
  - field. lra.
  - ring.
  - ring.
  - field. apply PI_neq0.
Qed.

Lemma f_xu_straight_motion_witness :
  exists diagnostics,
    VehicleDynamics.f_xu_row [0; 0; 0; 1; 2; 90] [0; 0] 0.1
    = Ok ([Fin (0 + 0.1 * 0); Fin 0; Fin 0;
           Fin (1 + 0.1 * 0 * cos (90 * PI / 180));
           Fin (2 + 0.1 * 0 * sin (90 * PI / 180)); Fin 90],
          diagnostics).
Proof.
  apply (f_xu_straight_motion 0 1 2 90 0 0.1); lra.
Defined.

(** X3.  The additive epsilon moves the singular speed of the slip angles
    from 0 to -1e-8 and does not remove it.  For every other longitudinal
    velocity the rear slip angle is a real number strictly between -pi/2 and
    pi/2; at -1e-8 it is pi/2, -pi/2 or [nan], by the sign of
    [v_y - b * r]. *)
Theorem alpha_r_epsilon_guard (v_x v_y r : R) :
  (v_x <> -1e-8 ->
   exists alpha, VehicleDynamics.alpha_r v_x v_y r = Fin alpha /\
                 - (PI / 2) < alpha < PI / 2) /\
  (v_x = -1e-8 ->
   (VehicleDynamics.b * r < v_y -> VehicleDynamics.alpha_r v_x v_y r = Fin (PI / 2)) /\
   (v_y < VehicleDynamics.b * r ->
    VehicleDynamics.alpha_r v_x v_y r = Fin (- (PI / 2))) /\
   (v_y = VehicleDynamics.b * r -> VehicleDynamics.alpha_r v_x v_y r = NaN)).
Proof.
  unfold VehicleDynamics.alpha_r. split.
  - intro H. rewrite np_div_fin by lra. cbn [np_arctan].
    eexists; split; [reflexivity|].
    pose proof (atan_bound ((v_y - VehicleDynamics.b * r) / (v_x + 1e-8))). lra.
  - intros ->. unfold np_div.
    destruct (Req_dec_T (-1e-8 + 1e-8) 0) as [_|n]; [|exfalso; apply n; lra].
    repeat split; intro H;
      destruct (Rlt_dec 0 (v_y - VehicleDynamics.b * r));
      destruct (Rlt_dec (v_y - VehicleDynamics.b * r) 0);
      try lra; reflexivity.
Qed.

Lemma alpha_r_epsilon_guard_witness :
  (exists alpha, VehicleDynamics.alpha_r 0 1 0 = Fin alpha /\
                 - (PI / 2) < alpha < PI / 2) /\
  VehicleDynamics.alpha_r (-1e-8) 0 0 = NaN.
Proof.
  split.
  - apply (alpha_r_epsilon_guard 0 1 0); lra.
  - apply (alpha_r_epsilon_guard (-1e-8) 0 0); [reflexivity | lra].
Defined.

Lemma sqrt_over_le (u F : R) : 0 < F -> 0 <= u <= F * F -> 0 <= sqrt u / F <= 1.
Proof.
  intros HF [H0 H1].
  assert (Hs : sqrt u <= F).
  { rewrite <- (sqrt_square F) by lra. apply sqrt_le_1_alt, H1. }
  pose proof (sqrt_pos u) as Hp.
  split.
  - apply Rmult_le_pos; [exact Hp | left; apply Rinv_0_lt_compat, HF].
  - apply Rmult_le_reg_r with F; [exact HF|].
    unfold Rdiv. rewrite Rmult_assoc, Rinv_l by lra. lra.
Qed.

Lemma friction_in_unit (a_x : R) :
  -4.15 <= a_x <= 2.15 ->
  exists mf mr,
    VehicleDynamics.miu_f a_x = Fin mf /\ VehicleDynamics.miu_r a_x = Fin mr /\
    0 <= mf <= 1 /\ 0 <= mr <= 1 /\ (0 <= a_x -> mf = 1).
Proof.
  intro Ha. destruct (de_normalised_in_circle a_x Ha) as [Hf Hr].
  pose proof F_zf_pos as Pf. pose proof F_zr_pos as Pr.
  unfold VehicleDynamics.miu_f, VehicleDynamics.miu_r, np_sqrt, np_fdiv.
  destruct (Rlt_dec _ 0) as [c|_]; [lra|].
  destruct (Rlt_dec _ 0) as [c|_]; [lra|].
  rewrite !np_div_fin by lra.
  eexists; eexists; split; [reflexivity|]. split; [reflexivity|].
  unfold VehicleDynamics.miu, np_square in *.
  split; [|split].
  - apply sqrt_over_le; [exact Pf|].
    pose proof (Rle_0_sqr (VehicleDynamics.F_xf a_x)) as Hq; unfold Rsqr in Hq. lra.
  - apply sqrt_over_le; [exact Pr|].
    pose proof (Rle_0_sqr (VehicleDynamics.F_xr a_x)) as Hq; unfold Rsqr in Hq. lra.
  - intro H0. unfold VehicleDynamics.F_xf. rewrite np_lt_false by exact H0.
    unfold np_where.
    replace (1.0 * VehicleDynamics.F_zf * (1.0 * VehicleDynamics.F_zf) - 0 * 0)
      with (VehicleDynamics.F_zf * VehicleDynamics.F_zf) by lra.
    rewrite sqrt_square by lra. field. lra.
Qed.

(** X4.  Along the path of [rollout_out], from a raw action to the tire
    diagnostics, the friction coefficients are never [nan]: for every action
    row, clipped and rescaled by [_action_transformation_for_end2end], and
    every state, [f_xu] returns front and rear coefficients that are real
    numbers in [0, 1]. *)
Theorem rollout_friction_in_unit (states actions : list R) (tau : R) :
  (6 <= length states)%nat -> (2 <= length actions)%nat ->
  exists u next_state diagnostics mf mr,
    EnvironmentModel._action_transformation_for_end2end_row actions = Ok u /\
    VehicleDynamics.f_xu_row states u tau = Ok (next_state, diagnostics) /\
    nth_error diagnostics 2 = Some (Fin mf) /\
    nth_error diagnostics 3 = Some (Fin mr) /\
    0 <= mf <= 1 /\ 0 <= mr <= 1.
Proof.
  intros Hs Hu.
  destruct (action_transformation_range actions Hu) as (st & ax & Ht & _ & Hax).
  destruct (columns6 _ Hs) as (c0 & c1 & c2 & c3 & c4 & c5 & rest & ->).
  destruct (friction_in_unit ax Hax) as (mf & mr & Hf & Hr & Bf & Br & _).
  exists [st; ax]. rewrite Ht.
  cbv [VehicleDynamics.f_xu_row col bind nth_error].
  rewrite Hf, Hr.
  eexists; eexists; exists mf, mr.
  repeat split; try reflexivity; try apply Bf; apply Br.
Qed.

Lemma rollout_friction_in_unit_witness :
  exists u next_state diagnostics mf mr,
    EnvironmentModel._action_transformation_for_end2end_row [0.5; 7] = Ok u /\
    VehicleDynamics.f_xu_row [8; 0; 0; 1; 2; 90] u 0.1 = Ok (next_state, diagnostics) /\
    nth_error diagnostics 2 = Some (Fin mf) /\
    nth_error diagnostics 3 = Some (Fin mr) /\
    0 <= mf <= 1 /\ 0 <= mr <= 1.
Proof.
  apply (rollout_friction_in_unit [8; 0; 0; 1; 2; 90] [0.5; 7] 0.1); simpl; lia.
Defined.

(** ** EnvironmentModel._action_transformation_for_end2end *)

Lemma np_clip_inside (x lo hi : R) : lo <= x <= hi -> np_clip x lo hi = x.
Proof.
  intros [H1 H2]. unfold np_clip.
  rewrite Rmax_left by exact H1. apply Rmin_left, H2.
Qed.

(** X5.  The action transformation returns two columns, a steering angle in
    [-0.42, 0.42] and an acceleration in [-4.15, 2.15], whatever the raw
    action; a raw action in [-1.05, 1.05] is mapped by [0.4 * s] and
    [3 * a - 1]; columns after the second are dropped and a row of fewer than
    two columns raises [IndexError]. *)
Theorem action_transformation_spec (actions : list R) :
  ((length actions < 2)%nat ->
   EnvironmentModel._action_transformation_for_end2end_row actions = Raise IndexError) /\
  (forall s a rest, actions = s :: a :: rest ->
   exists steer a_x,
     EnvironmentModel._action_transformation_for_end2end_row actions
     = Ok [steer; a_x] /\
     -0.42 <= steer <= 0.42 /\ -4.15 <= a_x <= 2.15 /\
     (-1.05 <= s <= 1.05 -> steer = 0.4 * s) /\
     (-1.05 <= a <= 1.05 -> a_x = 3 * a - 1)).
Proof.
  split.
  - intro H. destruct actions as [|s [|a rest]]; simpl in H; try lia; reflexivity.
  - intros s a rest ->.
    unfold EnvironmentModel._action_transformation_for_end2end_row.
    cbn [map]. cbv [col nth_error bind].
    eexists; eexists; split; [reflexivity|].
    pose proof (np_clip_bounds s (-1.05) 1.05) as Hs.
    pose proof (np_clip_bounds a (-1.05) 1.05) as Ha.
    repeat split; try lra.
    + intro H; now rewrite np_clip_inside.
    + intro H; now rewrite np_clip_inside.
Qed.

Lemma action_transformation_spec_witness :
  EnvironmentModel._action_transformation_for_end2end_row [0.3] = Raise IndexError /\
  exists steer a_x,
    EnvironmentModel._action_transformation_for_end2end_row [0.5; 7; 9]
    = Ok [steer; a_x] /\
    -0.42 <= steer <= 0.42 /\ -4.15 <= a_x <= 2.15 /\
    (-1.05 <= 0.5 <= 1.05 -> steer = 0.4 * 0.5) /\
    (-1.05 <= 7 <= 1.05 -> a_x = 3 * 7 - 1).
Proof.
  split.
  - apply (action_transformation_spec [0.3]); simpl; lia.
  - apply (action_transformation_spec [0.5; 7; 9] : _ /\ _) with (rest := [9]).
    reflexivity.
Defined.

(** ** EnvironmentModel.ego_predict *)

(** X6.  The ego states with a non-negative longitudinal velocity are closed
    under [ego_predict]: from such a state and any action, the next state
    has six real columns and a longitudinal velocity in [0, 35], so the
    prediction can be applied again. *)
Theorem ego_predict_closed (self : EnvironmentModel.t)
  (v_x v_y r x y phi steer a_x : R) :
  0 <= v_x ->
  exists v_x' v_y' r' x' y' phi',
    EnvironmentModel.ego_predict_row self [v_x; v_y; r; x; y; phi] [steer; a_x]
    = Ok (map Fin [v_x'; v_y'; r'; x'; y'; phi']) /\
    0 <= v_x' <= 35.
Proof.
  intro Hv.
  assert (Ht : 0 < 1 / 10) by lra.
  pose proof (lateral_denominator_pos v_x (1 / 10) Hv Ht) as Hd1.
  pose proof (yaw_denominator_neg v_x (1 / 10) Hv Ht) as Hd2.
  unfold EnvironmentModel.ego_predict_row, VehicleDynamics.prediction_row.
  destruct (Req_dec_T EnvironmentModel.base_frequency 0) as [e|_];
    [unfold EnvironmentModel.base_frequency in e; lra|].
  unfold EnvironmentModel.base_frequency.
  cbv [VehicleDynamics.f_xu_row slice firstn skipn Nat.sub col bind nth_error fst np_fclip].
  rewrite (np_div_fin _ _ (Rgt_not_eq _ _ Hd1)).
  rewrite (np_div_fin _ _ (Rlt_not_eq _ _ Hd2)).
  do 6 eexists. split; [reflexivity|].
  apply np_clip_bounds; lra.
Qed.

Lemma ego_predict_closed_witness :
  exists v_x' v_y' r' x' y' phi',
    EnvironmentModel.ego_predict_row (model_of "left" 0) [0; 0.2; 0.1; 1; 2; 90] [0.4; -4]
    = Ok (map Fin [v_x'; v_y'; r'; x'; y'; phi']) /\
    0 <= v_x' <= 35.
Proof.
  apply (ego_predict_closed (model_of "left" 0) 0 0.2 0.1 1 2 90 0.4 (-4)); lra.
Defined.

(** ** convert_vehs_to_abso and convert_vehs_to_rela, continued *)

Lemma zipw_minus_plus (u v : list R) :
  length u = length v -> zipw Rplus (zipw Rminus u v) v = u.
Proof.
  revert v; induction u as [|a u IH]; intros [|b v] H; simpl in H; try discriminate.
  - reflexivity.
  - unfold zipw in *; simpl. f_equal; [ring | apply IH; lia].
Qed.

(** X7.  The conversions are inverse in the other order as well: on a batch
    of well-formed rows, [convert_vehs_to_abso] sends the result of
    [convert_vehs_to_rela] back to the input. *)
Theorem convert_vehs_inverse_abso_rela (self : EnvironmentModel.t)
  (obs : list (list R)) :
  Forall (fun row => exists V, EnvironmentModel.well_formed self V row) obs ->
  exists rela,
    EnvironmentModel.convert_vehs_to_rela self obs = Ok rela /\
    EnvironmentModel.convert_vehs_to_abso self rela = Ok obs.
Proof.
  unfold EnvironmentModel.convert_vehs_to_abso, EnvironmentModel.convert_vehs_to_rela.
  induction 1 as [|row rows [V Hwf] _ (rela & Hr & Ha)].
  - exists []; split; reflexivity.
  - destruct (well_formed_split self V row Hwf) as (ego & trk & veh & -> & He & Ht & Hv).
    pose proof (ego_tile_length ego V) as Hl.
    exists ((ego ++ trk ++ zipw Rminus veh (ego_tile ego V)) :: rela). simpl.
    rewrite (convert_vehs_to_rela_row_wf self V ego trk veh) by assumption.
    simpl. rewrite Hr. simpl.
    rewrite (convert_vehs_to_abso_row_wf self V ego trk (zipw Rminus veh (ego_tile ego V)))
      by (try assumption; rewrite zipw_length; lia).
    simpl. rewrite Ha. simpl.
    rewrite zipw_minus_plus by lia. split; reflexivity.
Qed.

Lemma convert_vehs_inverse_abso_rela_witness :
  exists rela,
    EnvironmentModel.convert_vehs_to_rela (model_of "left" 0)
      [[8; 0; 0; 1; 2; 90; 0; 0; 0; 5; 6; 3; 90]] = Ok rela /\
    EnvironmentModel.convert_vehs_to_abso (model_of "left" 0) rela
    = Ok [[8; 0; 0; 1; 2; 90; 0; 0; 0; 5; 6; 3; 90]].
Proof.
  apply (convert_vehs_inverse_abso_rela (model_of "left" 0)
           [[8; 0; 0; 1; 2; 90; 0; 0; 0; 5; 6; 3; 90]]).
  repeat constructor. exists 1%nat. reflexivity.
Defined.

Lemma nth_np_tile (block : list R) (V k c : nat) :
  (k < V)%nat -> (c < length block)%nat ->
  nth (length block * k + c) (np_tile block V) 0 = nth c block 0.
Proof.
  revert k; induction V as [|V IH]; intros k Hk Hc; [lia|].
  destruct k as [|k].
  - cbn [np_tile]. rewrite Nat.mul_0_r, Nat.add_0_l.
    now rewrite app_nth1 by exact Hc.
  - cbn [np_tile]. rewrite app_nth2 by lia.
    replace (length block * S k + c - length block)%nat
      with (length block * k + c)%nat by lia.
    apply IH; lia.
Qed.

Lemma nth_zipw (op : R -> R -> R) (u v : list R) (i : nat) :
  length u = length v -> (i < length u)%nat ->
  nth i (zipw op u v) 0 = op (nth i u 0) (nth i v 0).
Proof.
  revert v i; induction u as [|a u IH]; intros [|b v] i Hl Hi; simpl in *; try lia.
  destruct i as [|i]; [reflexivity|]. apply IH; lia.
Qed.

(** X8.  [convert_vehs_to_abso] adds the ego position to the position of
    every vehicle and returns its speed and heading unchanged;
    [convert_vehs_to_rela] subtracts it: column [c] of vehicle [k] moves by
    column [c] of [ego_x, ego_y, 0, 0]. *)
Theorem convert_vehs_columns (self : EnvironmentModel.t) (V : nat) (obs : list R) :
  EnvironmentModel.well_formed self V obs ->
  exists abso rela,
    EnvironmentModel.convert_vehs_to_abso_row self obs = Ok abso /\
    EnvironmentModel.convert_vehs_to_rela_row self obs = Ok rela /\
    length abso = length obs /\ length rela = length obs /\
    forall k c, (k < V)%nat -> (c < 4)%nat ->
      let i := (6 + 3 * (EnvironmentModel.num_future_data self + 1) + 4 * k + c)%nat in
      let shift := nth c [nth 3 obs 0; nth 4 obs 0; 0; 0] 0 in
      nth i abso 0 = nth i obs 0 + shift /\ nth i rela 0 = nth i obs 0 - shift.
Proof.
  intro Hwf.
  destruct (well_formed_split self V obs Hwf) as (ego & trk & veh & -> & He & Ht & Hv).
  pose proof (ego_tile_length ego V) as Hl.
  rewrite (convert_vehs_to_abso_row_wf self V) by assumption.
  rewrite (convert_vehs_to_rela_row_wf self V) by assumption.
  eexists; eexists; split; [reflexivity|]. split; [reflexivity|].
  split; [|split].
  - rewrite !length_app, zipw_length; lia.
  - rewrite !length_app, zipw_length; lia.
  - intros k c Hk Hc i shift.
    assert (H3 : nth 3 (ego ++ trk ++ veh) 0 = nth 3 ego 0)
      by (apply app_nth1; lia).
    assert (H4 : nth 4 (ego ++ trk ++ veh) 0 = nth 4 ego 0)
      by (apply app_nth1; lia).
    assert (Hn : forall tl, nth i (ego ++ trk ++ tl) 0 = nth (4 * k + c) tl 0).
    { intro tl. unfold i. rewrite app_nth2 by lia. rewrite app_nth2 by lia.
      f_equal. lia. }
    unfold shift. rewrite H3, H4, !Hn, !nth_zipw by lia.
    assert (Hb : nth (4 * k + c) (ego_tile ego V) 0
                 = nth c [nth 3 ego 0; nth 4 ego 0; 0; 0] 0)
      by exact (nth_np_tile [nth 3 ego 0; nth 4 ego 0; 0; 0] V k c Hk Hc).
    rewrite Hb. split; reflexivity.
Qed.

Lemma convert_vehs_columns_witness :
  exists abso rela,
    EnvironmentModel.convert_vehs_to_abso_row (model_of "left" 0)
      [8; 0; 0; 1; 2; 90; 0; 0; 0; 5; 6; 3; 90] = Ok abso /\
    EnvironmentModel.convert_vehs_to_rela_row (model_of "left" 0)
      [8; 0; 0; 1; 2; 90; 0; 0; 0; 5; 6; 3; 90] = Ok rela /\
    length abso = 13%nat /\ length rela = 13%nat /\
    forall k c, (k < 1)%nat -> (c < 4)%nat ->
      let i := (6 + 3 * (0 + 1) + 4 * k + c)%nat in
      let shift := nth c [1; 2; 0; 0] 0 in
      nth i abso 0 = nth i [8; 0; 0; 1; 2; 90; 0; 0; 0; 5; 6; 3; 90] 0 + shift /\
      nth i rela 0 = nth i [8; 0; 0; 1; 2; 90; 0; 0; 0; 5; 6; 3; 90] 0 - shift.
Proof.
  apply (convert_vehs_columns (model_of "left" 0) 1
           [8; 0; 0; 1; 2; 90; 0; 0; 0; 5; 6; 3; 90]).
  reflexivity.
Defined.

Lemma row_split (self : EnvironmentModel.t) (n : nat) (obs : list R) :
  length obs = (6 + 3 * (EnvironmentModel.num_future_data self + 1) + n)%nat ->
  exists ego trk veh,
    obs = ego ++ trk ++ veh /\ length ego = 6%nat /\
    length trk = (3 * (EnvironmentModel.num_future_data self + 1))%nat /\
    length veh = n.
Proof.
  set (T := (3 * (EnvironmentModel.num_future_data self + 1))%nat).
  intro H.
  exists (firstn 6 obs), (firstn T (skipn 6 obs)), (skipn T (skipn 6 obs)).
  repeat split.
  - now rewrite !firstn_skipn.
  - rewrite length_firstn; lia.
  - rewrite length_firstn, length_skipn; lia.
  - rewrite !length_skipn; lia.
Qed.

Lemma convert_row_short (op : R -> R -> R) (self : EnvironmentModel.t) (obs : list R) :
  (length obs < 5)%nat ->
  (let '(ego_infos, tracking_infos, veh_infos) := EnvironmentModel.segments self obs in
   ego_x <- col ego_infos 3 ;;
   ego_y <- col ego_infos 4 ;;
   let ego := np_tile [ego_x; ego_y; 0; 0]
                      (length veh_infos / EnvironmentModel.per_veh_info_dim) in
   vehs <- broadcast2 op veh_infos ego ;;
   Ok (ego_infos ++ tracking_infos ++ vehs))
  = Raise IndexError.
Proof.
  intro H.
  destruct obs as [|c0 [|c1 [|c2 [|c3 [|c4 rest]]]]]; simpl in H; try lia; reflexivity.
Qed.

Lemma broadcast2_mismatch (op : R -> R -> R) (veh block : list R) (k : nat) :
  length block = 4%nat -> (2 <= length veh)%nat -> length veh <> (4 * k)%nat ->
  broadcast2 op veh (np_tile block k) = Raise ValueError.
Proof.
  intros Hb Hv Hne. unfold broadcast2.
  pose proof (np_tile_length block k) as Hl. rewrite Hb in Hl.
  destruct (Nat.eqb_spec (length veh) (length (np_tile block k))) as [e|_]; [lia|].
  destruct veh as [|a [|a' veh]]; simpl in Hv; try lia.
  destruct (np_tile block k) as [|t0 [|t1 tl]]; simpl in Hl; try lia; reflexivity.
Qed.

Lemma convert_row_malformed (op : R -> R -> R) (self : EnvironmentModel.t) (n : nat)
  (obs : list R) :
  length obs = (6 + 3 * (EnvironmentModel.num_future_data self + 1) + n)%nat ->
  (n mod 4 <> 0)%nat ->
  (let '(ego_infos, tracking_infos, veh_infos) := EnvironmentModel.segments self obs in
   ego_x <- col ego_infos 3 ;;
   ego_y <- col ego_infos 4 ;;
   let ego := np_tile [ego_x; ego_y; 0; 0]
                      (length veh_infos / EnvironmentModel.per_veh_info_dim) in
   vehs <- broadcast2 op veh_infos ego ;;
   Ok (ego_infos ++ tracking_infos ++ vehs))
  = if Nat.eqb n 1
    then Ok (firstn (6 + 3 * (EnvironmentModel.num_future_data self + 1)) obs)
    else Raise ValueError.
Proof.
  intros Hlen Hmod.
  destruct (row_split self n obs Hlen) as (ego & trk & veh & -> & He & Ht & Hv).
  rewrite (segments_app self ego trk veh He Ht).
  destruct (columns6 ego) as (c0 & c1 & c2 & c3 & c4 & c5 & rest & ->); [lia|].
  unfold EnvironmentModel.per_veh_info_dim. cbv [col nth_error bind].
  destruct (Nat.eqb_spec n 1) as [->|Hn1].
  - destruct veh as [|a [|a' veh]]; simpl in Hv; try lia.
    assert (Hf : firstn (6 + 3 * (EnvironmentModel.num_future_data self + 1))
                        ((c0 :: c1 :: c2 :: c3 :: c4 :: c5 :: rest) ++ trk ++ [a])
                 = (c0 :: c1 :: c2 :: c3 :: c4 :: c5 :: rest) ++ trk).
    { rewrite <- He, <- Ht, <- length_app, app_assoc. apply firstn_app_exact. }
    rewrite Hf. cbn. now rewrite app_nil_r.
  - rewrite broadcast2_mismatch; [reflexivity | reflexivity | |].
    + destruct n as [|[|n]]; simpl in Hmod; lia.
    + rewrite Hv. intro E.
      apply Hmod. rewrite (Nat.div_mod_eq n 4) in E at 1. lia.
Qed.

(** X9.  What the conversions do with a malformed row.  A row of fewer than
    five columns raises [IndexError].  A row whose vehicle segment is no
    multiple of four columns raises [ValueError], except when one single
    column is left over: by broadcasting that column is dropped without an
    error and the row returned ends after the tracking segment. *)
Theorem convert_vehs_malformed (self : EnvironmentModel.t) (obs : list R) :
  ((length obs < 5)%nat ->
   EnvironmentModel.convert_vehs_to_abso_row self obs = Raise IndexError /\
   EnvironmentModel.convert_vehs_to_rela_row self obs = Raise IndexError) /\
  (forall n,
   length obs = (6 + 3 * (EnvironmentModel.num_future_data self + 1) + n)%nat ->
   (n mod 4 <> 0)%nat ->
   (n <> 1%nat ->
    EnvironmentModel.convert_vehs_to_abso_row self obs = Raise ValueError /\
    EnvironmentModel.convert_vehs_to_rela_row self obs = Raise ValueError) /\
   (n = 1%nat ->
    EnvironmentModel.convert_vehs_to_abso_row self obs
    = Ok (firstn (6 + 3 * (EnvironmentModel.num_future_data self + 1)) obs) /\
    EnvironmentModel.convert_vehs_to_rela_row self obs
    = Ok (firstn (6 + 3 * (EnvironmentModel.num_future_data self + 1)) obs))).
Proof.
  unfold EnvironmentModel.convert_vehs_to_abso_row,
    EnvironmentModel.convert_vehs_to_rela_row.
  split.
  - intro H. split; apply convert_row_short, H.
  - intros n Hlen Hmod. split; intro Hn.
    + rewrite !(convert_row_malformed _ self n obs Hlen Hmod).
      destruct (Nat.eqb_spec n 1); [contradiction | split; reflexivity].
    + rewrite !(convert_row_malformed _ self n obs Hlen Hmod).
      subst n. split; reflexivity.
Qed.

Lemma convert_vehs_malformed_witness :
  EnvironmentModel.convert_vehs_to_abso_row (model_of "left" 0) [8; 0; 0; 1]
  = Raise IndexError /\
  EnvironmentModel.convert_vehs_to_abso_row (model_of "left" 0)
    [8; 0; 0; 1; 2; 90; 0; 0; 0; 5; 6; 3; 90; 7; 7] = Raise ValueError /\
  EnvironmentModel.convert_vehs_to_abso_row (model_of "left" 0)
    [8; 0; 0; 1; 2; 90; 0; 0; 0; 5]
  = Ok (firstn (6 + 3 * (0 + 1)) [8; 0; 0; 1; 2; 90; 0; 0; 0; 5]).
Proof.
  split; [|split].
  - apply (convert_vehs_malformed (model_of "left" 0) [8; 0; 0; 1]). simpl; lia.
  - apply (convert_vehs_malformed (model_of "left" 0)
             [8; 0; 0; 1; 2; 90; 0; 0; 0; 5; 6; 3; 90; 7; 7] : _ /\ _) with (n := 6%nat).
    + reflexivity.
    + simpl; lia.
    + lia.
  - apply (convert_vehs_malformed (model_of "left" 0)
             [8; 0; 0; 1; 2; 90; 0; 0; 0; 5] : _ /\ _) with (n := 1%nat).
    + reflexivity.
    + simpl; lia.
    + reflexivity.
Defined.

(** ** compute_rewards, continued *)

Lemma compute_rewards_row_no_vehicle (O : outside) (self : EnvironmentModel.t)
  (obs actions : list R) :
  EnvironmentModel.well_formed self 0 obs -> (2 <= length actions)%nat ->
  EnvironmentModel.compute_rewards_row O self obs actions = Raise IndexError.
Proof.
  intros Hwf Hact.
  destruct (well_formed_split self 0 obs Hwf) as (ego & trk & veh & -> & He & Ht & Hv).
  destruct (columns2 _ Hact) as (steer & a_x & rest' & ->).
  destruct veh; [|simpl in Hv; lia].
  unfold EnvironmentModel.compute_rewards_row.
  rewrite (convert_vehs_to_abso_row_wf self 0) by assumption.
  cbv [bind]. unfold ego_tile. cbn [np_tile zipw combine map].
  rewrite segments_app by assumption.
  destruct (columns6 ego) as (c0 & c1 & c2 & c3 & c4 & c5 & rest & ->); [lia|].
  destruct trk as [|t0 [|t1 [|t2 trest]]]; simpl in Ht; try lia.
  reflexivity.
Qed.

(** X10.  [compute_rewards] needs at least one other vehicle: on a batch
    whose first row is well formed with an empty vehicle segment it raises
    [IndexError], where it reads column 0 of that segment. *)
Theorem compute_rewards_no_vehicle (O : outside) (self : EnvironmentModel.t)
  (obs actions : list R) (obses actions_rest : list (list R)) :
  EnvironmentModel.well_formed self 0 obs -> (2 <= length actions)%nat ->
  EnvironmentModel.compute_rewards O self (obs :: obses) (actions :: actions_rest)
  = Raise IndexError.
Proof.
  intros Hwf Hact.
  destruct (convert_rows_inverse self 0 obs Hwf) as (abso & _ & Hc & _).
  destruct (row_terms_raise O self obs actions IndexError
              (compute_rewards_row_no_vehicle O self obs actions Hwf Hact) Hact
              (ex_intro _ abso Hc)) as (obs' & a & Hc' & Ha & Ht).
  unfold EnvironmentModel.compute_rewards. cbn [EnvironmentModel.batch_terms].
  rewrite Hc'. cbv [bind]. rewrite Ha, Ht. reflexivity.
Qed.

Lemma compute_rewards_no_vehicle_witness :
  EnvironmentModel.compute_rewards crossroad (model_of "left" 0)
    [[8; 0; 0; 1; 2; 90; 0; 0; 0]] [[0; 0]] = Raise IndexError.
Proof.
  apply compute_rewards_no_vehicle; [reflexivity | simpl; lia].
Defined.

Lemma veh2road_invalid (O : outside) (task : string) (front rear : R * R) :
  ~ valid_task task -> EnvironmentModel.veh2road O task front rear = Raise AssertionError.
Proof.
  intro H. unfold EnvironmentModel.veh2road, EnvironmentModel.veh2road_point.
  destruct (String.eqb_spec task "left") as [->|_];
    [exfalso; apply H; left; reflexivity|].
  destruct (String.eqb_spec task "straight") as [->|_];
    [exfalso; apply H; right; left; reflexivity|].
  destruct (String.eqb_spec task "right") as [->|_];
    [exfalso; apply H; right; right; reflexivity|].
  reflexivity.
Qed.

(** The row of [compute_rewards] once the vehicle block is done: what is
    left is the vehicle-to-road block. *)
Lemma compute_rewards_row_channels (O : outside) (self : EnvironmentModel.t) (V : nat)
  (obs actions : list R) :
  EnvironmentModel.well_formed self V obs -> (1 <= V)%nat ->
  (2 <= length actions)%nat ->
  exists front rear,
    EnvironmentModel.compute_rewards_row O self obs actions
    = match EnvironmentModel.veh2road O (EnvironmentModel.task self) front rear with
      | Ok v2r => Ok (tracking_reward obs actions, 49 * INR V + fst v2r,
                      - 10 * INR V + snd v2r, - 10 * INR V, snd v2r)
      | Raise e => Raise e
      end.
Proof.
  intros Hwf HV Hact.
  destruct (well_formed_split self V obs Hwf) as (ego & trk & veh & -> & He & Ht & Hv).
  destruct (columns2 _ Hact) as (steer & a_x & rest' & ->).
  unfold EnvironmentModel.compute_rewards_row.
  rewrite (convert_vehs_to_abso_row_wf self V) by assumption.
  cbv [bind]. rewrite segments_app by assumption.
  destruct (columns6 ego) as (c0 & c1 & c2 & c3 & c4 & c5 & rest & ->); [lia|].
  assert (rest = []) as -> by (destruct rest; [reflexivity | simpl in He; lia]).
  destruct trk as [|t0 [|t1 [|t2 trest]]]; simpl in Ht; try lia.
  cbv [col nth_error].
  rewrite (veh2veh_value O _ _ _ V)
    by first [assumption
             | rewrite zipw_length; [assumption | rewrite ego_tile_length; lia]].
  cbn [fst snd].
  match goal with
  | |- context [EnvironmentModel.veh2road O ?t ?f ?r] => exists f, r
  end.
  destruct (EnvironmentModel.veh2road O _ _ _) as [[tr re]|e]; [|reflexivity].
  cbn [fst snd]. do 5 f_equal.
  unfold tracking_reward. cbn [nth app]. ring.
Qed.

(** X11.  A task other than 'left', 'straight' and 'right' is rejected by
    the assertion of the vehicle-to-road block: on a well-formed row with at
    least one vehicle, [compute_rewards] raises [AssertionError]. *)
Theorem compute_rewards_invalid_task (O : outside) (self : EnvironmentModel.t) (V : nat)
  (obs actions : list R) (obses actions_rest : list (list R)) :
  ~ valid_task (EnvironmentModel.task self) ->
  EnvironmentModel.well_formed self V obs -> (1 <= V)%nat ->
  (2 <= length actions)%nat ->
  EnvironmentModel.compute_rewards O self (obs :: obses) (actions :: actions_rest)
  = Raise AssertionError.
Proof.
  intros Htask Hwf HV Hact.
  assert (Hrow : EnvironmentModel.compute_rewards_row O self obs actions
                 = Raise AssertionError).
  { destruct (compute_rewards_row_channels O self V obs actions Hwf HV Hact)
      as (front & rear & ->).
    now rewrite veh2road_invalid. }
  destruct (convert_rows_inverse self V obs Hwf) as (abso & _ & Hc & _).
  destruct (row_terms_raise O self obs actions AssertionError Hrow Hact
              (ex_intro _ abso Hc)) as (obs' & a & Hc' & Ha & Ht).
  unfold EnvironmentModel.compute_rewards. cbn [EnvironmentModel.batch_terms].
  rewrite Hc'. cbv [bind]. rewrite Ha, Ht. reflexivity.
Qed.

Lemma compute_rewards_invalid_task_witness :
  EnvironmentModel.compute_rewards crossroad (model_of "u-turn" 0)
    [[8; 0; 0; 1; 2; 90; 0; 0; 0; 5; 6; 3; 90]] [[0; 0]] = Raise AssertionError.
Proof.
  apply (compute_rewards_invalid_task crossroad (model_of "u-turn" 0) 1).
  - intros [H | [H | H]]; discriminate H.
  - reflexivity.
  - lia.
  - simpl; lia.
Defined.

Lemma road_term_nonneg (c1 c2 : bool) (e : R) : 0 <= EnvironmentModel.road_term c1 c2 e.
Proof.
  unfold EnvironmentModel.road_term, np_where, np_square.
  destruct (logical_and c1 c2); [|lra].
  pose proof (Rle_0_sqr e) as H; unfold Rsqr in H; exact H.
Qed.

Lemma road_term_gate (x g g' : R) (c2 : bool) (e : R) :
  g <= g' ->
  EnvironmentModel.road_term (np_lt x g) c2 e <= EnvironmentModel.road_term (np_lt x g') c2 e.
Proof.
  intro Hg. unfold EnvironmentModel.road_term, logical_and, np_where, np_square, np_lt.
  pose proof (Rle_0_sqr e) as H; unfold Rsqr in H.
  destruct (Rlt_dec x g); destruct (Rlt_dec x g'); destruct c2; simpl; lra.
Qed.

Ltac name_road_terms :=
  repeat match goal with
         | |- context [EnvironmentModel.road_term ?c1 ?c2 ?e] =>
             let H := fresh "Hterm" in
             pose proof (road_term_nonneg c1 c2 e) as H;
             let t := fresh "term" in
             set (t := EnvironmentModel.road_term c1 c2 e) in *
         end.

Lemma veh2road_point_bounds (O : outside) (task : string) (acc point : R * R) :
  valid_task task -> 0 <= CROSSROAD_SIZE O ->
  exists tr re,
    EnvironmentModel.veh2road_point O task acc point = Ok (tr, re) /\
    0 <= re - snd acc <= tr - fst acc /\
    (task <> "left"%string -> re - snd acc = tr - fst acc).
Proof.
  intros [-> | [-> | ->]] HCS; unfold EnvironmentModel.veh2road_point;
    cbn [String.eqb Ascii.eqb Bool.eqb]; cbv zeta;
    eexists; eexists; (split; [reflexivity|]).
  - pose proof (road_term_gate (fst point) (- CROSSROAD_SIZE O / 2) 0
                  (np_lt (LANE_WIDTH O * INR (LANE_NUMBER O) - snd point) 1)
                  (LANE_WIDTH O * INR (LANE_NUMBER O) - snd point - 1)) as Hgate.
    assert (Hle : - CROSSROAD_SIZE O / 2 <= 0) by lra.
    specialize (Hgate Hle).
    split; [|intro H; contradiction H; reflexivity].
    name_road_terms. lra.
  - split; [|intros _]; name_road_terms; lra.
  - split; [|intros _]; name_road_terms; lra.
Qed.

Lemma veh2road_bounds (O : outside) (task : string) (front rear : R * R) :
  valid_task task -> 0 <= CROSSROAD_SIZE O ->
  exists tr re,
    EnvironmentModel.veh2road O task front rear = Ok (tr, re) /\
    0 <= re <= tr /\ (task <> "left"%string -> re = tr).
Proof.
  intros Ht HCS. unfold EnvironmentModel.veh2road.
  destruct (veh2road_point_bounds O task (0, 0) front Ht HCS)
    as (tr1 & re1 & -> & B1 & E1).
  cbv [bind].
  destruct (veh2road_point_bounds O task (tr1, re1) rear Ht HCS)
    as (tr2 & re2 & -> & B2 & E2).
  cbn [fst snd] in *. exists tr2, re2. split; [reflexivity|].
  split; [lra|]. intro Hn. specialize (E1 Hn). specialize (E2 Hn). lra.
Qed.

(** X12.  How the channels returned by [compute_rewards] hang together, for
    a valid task and a non-negative crossroad size: the road channel
    [veh2road4real] is non-negative, [real_punish_term] is the sum of
    [veh2veh4real] and [veh2road4real], and the training term is at least
    [49 * V + veh2road4real], with equality for the tasks 'straight' and
    'right' (the task 'left' gates one training term more widely than its
    real counterpart). *)
Theorem compute_rewards_channels (O : outside) (self : EnvironmentModel.t) (V : nat)
  (obs actions : list R) :
  valid_task (EnvironmentModel.task self) -> 0 <= CROSSROAD_SIZE O ->
  EnvironmentModel.well_formed self V obs -> (1 <= V)%nat ->
  (2 <= length actions)%nat ->
  exists training real veh2veh4real veh2road4real,
    EnvironmentModel.compute_rewards_row O self obs actions
    = Ok (tracking_reward obs actions, training, real, veh2veh4real, veh2road4real) /\
    veh2veh4real = - 10 * INR V /\
    0 <= veh2road4real /\
    real = veh2veh4real + veh2road4real /\
    49 * INR V + veh2road4real <= training /\
    (EnvironmentModel.task self <> "left"%string ->
     training = 49 * INR V + veh2road4real).
Proof.
  intros Htask HCS Hwf HV Hact.
  destruct (compute_rewards_row_channels O self V obs actions Hwf HV Hact)
    as (front & rear & ->).
  destruct (veh2road_bounds O _ front rear Htask HCS) as (tr & re & -> & B & E).
  cbn [fst snd]. do 4 eexists. split; [reflexivity|].
  repeat split; try lra.
  intro Hn. specialize (E Hn). lra.
Qed.

Lemma compute_rewards_channels_witness :
  exists training real veh2veh4real veh2road4real,
    EnvironmentModel.compute_rewards_row crossroad (model_of "straight" 0)
      [8; 0; 0; 1; 2; 90; 0; 0; 0; 5; 6; 3; 90] [0; 0]
    = Ok (tracking_reward [8; 0; 0; 1; 2; 90; 0; 0; 0; 5; 6; 3; 90] [0; 0],
          training, real, veh2veh4real, veh2road4real) /\
    veh2veh4real = - 10 * INR 1 /\
    0 <= veh2road4real /\
    real = veh2veh4real + veh2road4real /\
    49 * INR 1 + veh2road4real <= training /\
    (EnvironmentModel.task (model_of "straight" 0) <> "left"%string ->
     training = 49 * INR 1 + veh2road4real).
Proof.
  apply (compute_rewards_channels crossroad (model_of "straight" 0) 1).
  - right; left; reflexivity.
  - unfold crossroad; simpl; lra.
  - reflexivity.
  - lia.
  - simpl; lia.
Defined.

(** ** EnvironmentModel.predict_for_a_mode *)

Lemma middle_cond_false (O : outside) (x y : R) :
  ~ in_square O x y ->
  logical_and (logical_and (np_gt x (- CROSSROAD_SIZE O / 2)) (np_lt x (CROSSROAD_SIZE O / 2)))
              (logical_and (np_gt y (- CROSSROAD_SIZE O / 2)) (np_lt y (CROSSROAD_SIZE O / 2)))
  = false.
Proof.
  intro H. unfold logical_and, np_gt, np_lt, in_square in *.
  repeat match goal with |- context [Rlt_dec ?a ?b] => destruct (Rlt_dec a b) end;
    try reflexivity.
  exfalso; apply H; lra.
Qed.

Lemma turn_delta_zero (O : outside) (mode : string) (mc : bool) (d1 d2 : npfloat) :
  curving_mode mode = false \/ mc = false ->
  (if existsb (String.eqb mode) ["dl"; "rd"; "ur"; "lu"]%string
   then np_where mc d1 (Fin 0)
   else if existsb (String.eqb mode) ["dr"; "ru"; "ul"; "ld"]%string
        then np_where mc d2 (Fin 0)
        else Fin 0) = Fin 0.
Proof.
  intros [H | ->].
  - unfold curving_mode in H. cbn [existsb] in *.
    repeat match type of H with
           | (_ || _)%bool = false => apply orb_false_elim in H; destruct H as [? H]
           end.
    repeat match goal with E : String.eqb _ _ = false |- _ => rewrite E; clear E end.
    reflexivity.
  - unfold np_where. destruct (existsb _ _); [reflexivity|].
    destruct (existsb _ _); reflexivity.
Qed.

Lemma pi_pos : 0 < PI.
Proof. exact PI_RGT_0. Qed.

Lemma degrees_of_radians (r : R) : - PI < r <= PI -> -180 < r * 180 / PI <= 180.
Proof.
  intros [H1 H2]. pose proof pi_pos as Hp.
  assert (Hk : 0 < / PI) by (apply Rinv_0_lt_compat, Hp).
  assert (Hi : PI * / PI = 1) by (apply Rinv_r; lra).
  unfold Rdiv. split; nra.
Qed.

Lemma radians_of_degrees (phi : R) : -180 < phi <= 180 -> - PI < phi * PI / 180 <= PI.
Proof. intros [H1 H2]. pose proof pi_pos as Hp. split; nra. Qed.

(** The two [np.where] of the heading wrap and the conversion to degrees, on
    a heading of at most one turn and a half on either side. *)
Lemma heading_wrap (r : R) :
  - (3 * PI) < r <= 3 * PI ->
  exists h,
    np_fdiv
      (np_fmul
         (np_where
            (np_fle (np_where (np_fgt (Fin r) PI) (np_fsub (Fin r) (2 * PI)) (Fin r)) (- PI))
            (np_fadd (2 * PI)
                     (np_where (np_fgt (Fin r) PI) (np_fsub (Fin r) (2 * PI)) (Fin r)))
            (np_where (np_fgt (Fin r) PI) (np_fsub (Fin r) (2 * PI)) (Fin r)))
         180) PI
    = Fin h /\
    -180 < h <= 180 /\
    (h * PI / 180 = r \/ h * PI / 180 = r - 2 * PI \/ h * PI / 180 = r + 2 * PI).
Proof.
  intros [H1 H2]. pose proof pi_pos as Hp.
  assert (Hback : forall q, q * 180 / PI * PI / 180 = q) by (intro q; field; lra).
  cbn [np_fgt np_fsub]. unfold np_gt, np_lt.
  destruct (Rlt_dec PI r) as [Hgt|Hle]; unfold np_where at 1 2 3 4.
  - cbn [np_fle np_fadd np_fmul np_fdiv]. unfold np_gt, np_lt.
    destruct (Rlt_dec (- PI) (r - 2 * PI)) as [_|n]; [|lra].
    cbn [negb np_fmul np_fdiv]. rewrite np_div_fin by lra.
    eexists; split; [reflexivity|]. split.
    + apply degrees_of_radians; lra.
    + right; left. apply Hback.
  - cbn [np_fle]. unfold np_gt, np_lt.
    destruct (Rlt_dec (- PI) r) as [Hin|Hout]; cbn [negb np_fadd np_fmul np_fdiv].
    + cbn [np_fmul np_fdiv]. rewrite np_div_fin by lra.
      eexists; split; [reflexivity|]. split.
      * apply degrees_of_radians; lra.
      * left. apply Hback.
    + cbn [np_fmul np_fdiv]. rewrite np_div_fin by lra.
      eexists; split; [reflexivity|]. split.
      * apply degrees_of_radians; lra.
      * right; right. rewrite Hback. lra.
Qed.

Lemma predict_row_short (O : outside) (vehs : list R) (mode : string) :
  (length vehs < 4)%nat ->
  EnvironmentModel.predict_for_a_mode_row O vehs mode = Raise IndexError.
Proof.
  intro H. destruct vehs as [|x [|y [|v [|phi rest]]]]; simpl in H; try lia; reflexivity.
Qed.

(** X13.  A vehicle in a straight mode, or one that is not strictly inside
    the central square, keeps its heading and its speed and advances by
    [speed / 10] along the heading; a row of fewer than four columns raises
    [IndexError]. *)
Theorem predict_for_a_mode_straight (O : outside) (vehs : list R) (mode : string) :
  ((length vehs < 4)%nat ->
   EnvironmentModel.predict_for_a_mode_row O vehs mode = Raise IndexError) /\
  (forall x y v phi rest, vehs = x :: y :: v :: phi :: rest ->
   curving_mode mode = false \/ ~ in_square O x y ->
   -180 < phi <= 180 ->
   EnvironmentModel.predict_for_a_mode_row O vehs mode
   = Ok [Fin (x + v / 10 * cos (phi * PI / 180));
         Fin (y + v / 10 * sin (phi * PI / 180)); Fin v; Fin phi]).
Proof.
  split.
  - apply predict_row_short.
  - intros x y v phi rest -> Hm Hphi.
    assert (Hz : curving_mode mode = false \/
                 logical_and
                   (logical_and (np_gt x (- CROSSROAD_SIZE O / 2))
                                (np_lt x (CROSSROAD_SIZE O / 2)))
                   (logical_and (np_gt y (- CROSSROAD_SIZE O / 2))
                                (np_lt y (CROSSROAD_SIZE O / 2))) = false)
      by (destruct Hm as [Hm | Hm]; [left; exact Hm | right; apply middle_cond_false, Hm]).
    cbv [EnvironmentModel.predict_for_a_mode_row col nth_error bind].
    rewrite (turn_delta_zero O mode _ _ _ Hz).
    cbn [np_fadd]. unfold EnvironmentModel.base_frequency.
    pose proof (radians_of_degrees phi Hphi) as Hr. pose proof pi_pos as Hp.
    cbn [np_fgt np_fsub]. unfold np_gt, np_lt.
    destruct (Rlt_dec PI (phi * PI / 180 + 0)) as [c|_]; [lra|].
    unfold np_where at 1 2 3 4. cbn [np_fle]. unfold np_gt, np_lt.
    destruct (Rlt_dec (- PI) (phi * PI / 180 + 0)) as [_|n]; [|lra].
    cbn [negb np_fmul np_fdiv]. rewrite np_div_fin by lra.
    do 4 f_equal. f_equal. f_equal. field. lra.
Qed.

Lemma predict_for_a_mode_straight_witness :
  EnvironmentModel.predict_for_a_mode_row crossroad [5] "dl" = Raise IndexError /\
  EnvironmentModel.predict_for_a_mode_row crossroad [30; 6; 3; 180] "dl"
  = Ok [Fin (30 + 3 / 10 * cos (180 * PI / 180));
        Fin (6 + 3 / 10 * sin (180 * PI / 180)); Fin 3; Fin 180].
Proof.
  split.
  - apply (predict_for_a_mode_straight crossroad [5] "dl"). simpl; lia.
  - apply (predict_for_a_mode_straight crossroad [30; 6; 3; 180] "dl" : _ /\ _)
      with (rest := @nil R).
    + reflexivity.
    + right. unfold in_square, crossroad; simpl. lra.
    + lra.
Defined.

Lemma quotient_bounds (v rad c : R) :
  0 < rad -> 0 <= v <= c * rad -> 0 <= v / rad <= c.
Proof.
  intros Hr [H0 H1].
  assert (Hk : 0 < / rad) by (apply Rinv_0_lt_compat, Hr).
  assert (Hi : rad * / rad = 1) by (apply Rinv_r; lra).
  unfold Rdiv. split; nra.
Qed.

Lemma turn_delta_bounded (O : outside) (mode : string) (mc : bool) (v : R) :
  0 <= LANE_WIDTH O ->
  0 < CROSSROAD_SIZE O / 2 - 2.5 * LANE_WIDTH O ->
  0 <= v <= 20 * PI * (CROSSROAD_SIZE O / 2 - 2.5 * LANE_WIDTH O) ->
  exists d,
    (if existsb (String.eqb mode) ["dl"; "rd"; "ur"; "lu"]%string
     then np_where mc
            (np_fdiv (np_div v (CROSSROAD_SIZE O / 2 + 0.5 * LANE_WIDTH O))
                     EnvironmentModel.base_frequency) (Fin 0)
     else if existsb (String.eqb mode) ["dr"; "ru"; "ul"; "ld"]%string
          then np_where mc
                 (np_fdiv (np_fneg (np_div v (CROSSROAD_SIZE O / 2 - 2.5 * LANE_WIDTH O)))
                          EnvironmentModel.base_frequency) (Fin 0)
          else Fin 0) = Fin d /\
    - (2 * PI) <= d <= 2 * PI.
Proof.
  intros HLW HR2 Hv. pose proof pi_pos as Hp.
  unfold EnvironmentModel.base_frequency.
  assert (Hzero : - (2 * PI) <= 0 <= 2 * PI) by lra.
  destruct (existsb _ _).
  - destruct mc; unfold np_where; [|exists 0; split; [reflexivity | exact Hzero]].
    rewrite np_div_fin by lra. cbn [np_fdiv]. rewrite np_div_fin by lra.
    eexists; split; [reflexivity|].
    assert (Hq : 0 <= v / (CROSSROAD_SIZE O / 2 + 0.5 * LANE_WIDTH O) <= 20 * PI)
      by (apply quotient_bounds; [lra | split; nra]).
    lra.
  - destruct (existsb _ _); [|exists 0; split; [reflexivity | exact Hzero]].
    destruct mc; unfold np_where; [|exists 0; split; [reflexivity | exact Hzero]].
    rewrite np_div_fin by lra. cbn [np_fneg np_fdiv]. rewrite np_div_fin by lra.
    eexists; split; [reflexivity|].
    assert (Hq : 0 <= v / (CROSSROAD_SIZE O / 2 - 2.5 * LANE_WIDTH O) <= 20 * PI)
      by (apply quotient_bounds; [lra | split; nra]).
    lra.
Qed.

(** X14.  The heading stays in (-180, 180] under [predict_for_a_mode], for
    every mode: when the smaller turning radius
    [CROSSROAD_SIZE / 2 - 2.5 * LANE_WIDTH] is positive and the speed turns
    the vehicle by at most one full circle in a step, a heading in
    (-180, 180] is sent to a heading in (-180, 180], and position and speed
    are those of the straight advance. *)
Theorem predict_for_a_mode_heading_range (O : outside) (mode : string)
  (x y v phi : R) (rest : list R) :
  0 <= LANE_WIDTH O ->
  0 < CROSSROAD_SIZE O / 2 - 2.5 * LANE_WIDTH O ->
  0 <= v <= 20 * PI * (CROSSROAD_SIZE O / 2 - 2.5 * LANE_WIDTH O) ->
  -180 < phi <= 180 ->
  exists h,
    EnvironmentModel.predict_for_a_mode_row O (x :: y :: v :: phi :: rest) mode
    = Ok [Fin (x + v / 10 * cos (phi * PI / 180));
          Fin (y + v / 10 * sin (phi * PI / 180)); Fin v; Fin h] /\
    -180 < h <= 180.
Proof.
  intros HLW HR2 Hv Hphi.
  pose proof (radians_of_degrees phi Hphi) as Hr. pose proof pi_pos as Hp.
  cbv [EnvironmentModel.predict_for_a_mode_row col nth_error bind].
  match goal with
  | |- context [np_fadd (phi * PI / 180) ?delta] =>
      destruct (turn_delta_bounded O mode
                  (logical_and
                     (logical_and (np_gt x (- CROSSROAD_SIZE O / 2))
                                  (np_lt x (CROSSROAD_SIZE O / 2)))
                     (logical_and (np_gt y (- CROSSROAD_SIZE O / 2))
                                  (np_lt y (CROSSROAD_SIZE O / 2))))
                  v HLW HR2 Hv) as (d & Hd & Bd)
  end.
  rewrite Hd. cbn [np_fadd].
  destruct (heading_wrap (phi * PI / 180 + d)) as (h & Hh & Bh & _); [lra|].
  rewrite Hh. unfold EnvironmentModel.base_frequency.
  exists h. split; [reflexivity | exact Bh].
Qed.

Lemma predict_for_a_mode_heading_range_witness :
  exists h,
    EnvironmentModel.predict_for_a_mode_row crossroad [1; 2; 8; 180] "dl"
    = Ok [Fin (1 + 8 / 10 * cos (180 * PI / 180));
          Fin (2 + 8 / 10 * sin (180 * PI / 180)); Fin 8; Fin h] /\
    -180 < h <= 180.
Proof.
  apply (predict_for_a_mode_heading_range crossroad "dl" 1 2 8 180 []).
  - unfold crossroad; simpl; lra.
  - unfold crossroad; simpl; lra.
  - unfold crossroad; simpl. pose proof PI_RGT_0. pose proof PI2_3_2. unfold PI2 in *.
    split; nra.
  - lra.
Defined.

(** ** EnvironmentModel.veh_predict *)

Lemma predict_row_shape (O : outside) (vehs : list R) (mode : string) :
  length vehs = 4%nat ->
  exists a b h,
    EnvironmentModel.predict_for_a_mode_row O vehs mode
    = Ok [Fin a; Fin b; Fin (nth 2 vehs 0); h].
Proof.
  intro H. destruct (columns4 vehs H) as (x & y & v & phi & ->).
  cbv [EnvironmentModel.predict_for_a_mode_row col nth_error bind nth].
  do 3 eexists. reflexivity.
Qed.

Lemma slice_four (veh : list R) (i : nat) :
  (4 * (i + 1) <= length veh)%nat ->
  length (slice veh (i * 4) ((i + 1) * 4)) = 4%nat /\
  nth 2 (slice veh (i * 4) ((i + 1) * 4)) 0 = nth (4 * i + 2) veh 0.
Proof.
  intro H. split.
  - rewrite slice_length; lia.
  - unfold slice. rewrite nth_firstn.
    replace ((i + 1) * 4 - i * 4)%nat with 4%nat by lia.
    cbn [Nat.ltb Nat.leb]. rewrite nth_skipn. f_equal. lia.
Qed.

Lemma veh_predict_loop_shape (O : outside) (veh : list R) (modes : list string) (i : nat) :
  (4 * (i + length modes) <= length veh)%nat ->
  exists ps,
    EnvironmentModel.veh_predict_loop O veh modes i = Ok ps /\
    length ps = length modes /\
    Forall (fun p => length p = 4%nat) ps /\
    forall k, (k < length modes)%nat ->
      exists a b h,
        nth_error ps k = Some [Fin a; Fin b; Fin (nth (4 * (i + k) + 2) veh 0); h].
Proof.
  revert i; induction modes as [|mode modes IH]; intros i H.
  - exists []. repeat split; [constructor | intros k Hk; simpl in Hk; lia].
  - cbn [length] in H. cbn [EnvironmentModel.veh_predict_loop].
    unfold EnvironmentModel.per_veh_info_dim.
    destruct (slice_four veh i) as [Hl Hn]; [lia|].
    destruct (predict_row_shape O _ mode Hl) as (a & b & h & ->).
    destruct (IH (S i)) as (ps & -> & Hlen & Hall & Hk); [lia|].
    cbv [bind]. eexists. split; [reflexivity|].
    split; [simpl; lia|]. split; [constructor; [reflexivity | exact Hall]|].
    intros [|k] Hlt.
    + exists a, b, h. cbn [nth_error]. rewrite Hn, Nat.add_0_r. reflexivity.
    + destruct (Hk k) as (a' & b' & h' & E); [simpl in Hlt; lia|].
      exists a', b', h'. cbn [nth_error]. rewrite E.
      replace (4 * (S i + k) + 2)%nat with (4 * (i + S k) + 2)%nat by lia.
      reflexivity.
Qed.

Lemma veh_predict_loop_short (O : outside) (veh : list R) (modes : list string) (i : nat) :
  (4 * i <= length veh)%nat ->
  (length veh < 4 * (i + length modes))%nat ->
  EnvironmentModel.veh_predict_loop O veh modes i = Raise IndexError.
Proof.
  revert i; induction modes as [|mode modes IH]; intros i H0 H.
  - simpl in H. lia.
  - cbn [length] in H. cbn [EnvironmentModel.veh_predict_loop].
    unfold EnvironmentModel.per_veh_info_dim.
    destruct (Nat.le_gt_cases (4 * (i + 1)) (length veh)) as [Hle|Hgt].
    + destruct (slice_four veh i Hle) as [Hl _].
      destruct (predict_row_shape O _ mode Hl) as (a & b & h & ->).
      cbv [bind]. rewrite IH by lia. reflexivity.
    + assert (Hs : (length (slice veh (i * 4) ((i + 1) * 4)) < 4)%nat).
      { unfold slice. rewrite length_firstn, length_skipn. lia. }
      rewrite (predict_row_short O _ mode Hs). reflexivity.
Qed.

Lemma nth_error_concat4 {A : Type} (ps : list (list A)) (k c : nat) :
  Forall (fun p => length p = 4%nat) ps -> (c < 4)%nat ->
  nth_error (concat ps) (4 * k + c)
  = match nth_error ps k with
    | Some p => nth_error p c
    | None => None
    end.
Proof.
  intros Hall Hc. revert k; induction Hall as [|p ps Hp _ IH]; intro k.
  - cbn [concat]. destruct k; [destruct c|]; reflexivity.
  - cbn [concat]. destruct k as [|k].
    + rewrite Nat.mul_0_r, Nat.add_0_l. cbn [nth_error].
      apply nth_error_app1. lia.
    + cbn [nth_error]. rewrite nth_error_app2 by lia.
      replace (4 * S k + c - length p)%nat with (4 * k + c)%nat by lia.
      apply IH.
Qed.

Lemma concat4_length {A : Type} (ps : list (list A)) :
  Forall (fun p => length p = 4%nat) ps -> length (concat ps) = (4 * length ps)%nat.
Proof.
  induction 1 as [|p ps Hp _ IH]; [reflexivity|].
  cbn [concat length]. rewrite length_app, IH, Hp. lia.
Qed.

(** X15.  [veh_predict] follows the mode list of the task, not the row: it
    returns four columns for each mode and reads no vehicle beyond them.
    With a non-empty mode list and at least four columns for each mode, every
    predicted vehicle keeps its speed; with fewer columns the call raises
    [IndexError], and with an empty mode list [ValueError]. *)
Theorem veh_predict_layout (O : outside) (VEHICLE_MODE_LIST : string -> list string)
  (self : EnvironmentModel.t) (veh_infos : list R) :
  let modes := VEHICLE_MODE_LIST (EnvironmentModel.task self) in
  (modes = [] ->
   EnvironmentModel.veh_predict_row O VEHICLE_MODE_LIST self veh_infos = Raise ValueError) /\
  ((length veh_infos < 4 * length modes)%nat ->
   EnvironmentModel.veh_predict_row O VEHICLE_MODE_LIST self veh_infos = Raise IndexError) /\
  (modes <> [] -> (4 * length modes <= length veh_infos)%nat ->
   exists row,
     EnvironmentModel.veh_predict_row O VEHICLE_MODE_LIST self veh_infos = Ok row /\
     length row = (4 * length modes)%nat /\
     forall k, (k < length modes)%nat ->
       nth_error row (4 * k + 2) = Some (Fin (nth (4 * k + 2) veh_infos 0))).
Proof.
  intro modes. unfold EnvironmentModel.veh_predict_row. fold modes.
  split; [|split].
  - intros ->. reflexivity.
  - intro H. rewrite veh_predict_loop_short by lia. reflexivity.
  - intros Hne Hlen.
    destruct (veh_predict_loop_shape O veh_infos modes 0) as (ps & -> & Hl & Hall & Hk);
      [lia|].
    cbv [bind]. destruct ps as [|p ps].
    + destruct modes; [contradiction | discriminate].
    + eexists. split; [reflexivity|]. split.
      * rewrite concat4_length by exact Hall. lia.
      * intros k Hlt. destruct (Hk k Hlt) as (a & b & h & E).
        rewrite nth_error_concat4 by (try exact Hall; lia).
        rewrite E. reflexivity.
Qed.

Lemma veh_predict_layout_witness :
  EnvironmentModel.veh_predict_row crossroad (fun _ => []) (model_of "left" 0)
    [5; 6; 3; 90] = Raise ValueError /\
  EnvironmentModel.veh_predict_row crossroad (fun _ => ["dl"; "ud"]%string)
    (model_of "left" 0) [5; 6; 3; 90] = Raise IndexError /\
  exists row,
    EnvironmentModel.veh_predict_row crossroad (fun _ => ["dl"]%string)
      (model_of "left" 0) [5; 6; 3; 90; 1; 1; 9; 0] = Ok row /\
    length row = 4%nat /\
    forall k, (k < 1)%nat ->
      nth_error row (4 * k + 2)
      = Some (Fin (nth (4 * k + 2) [5; 6; 3; 90; 1; 1; 9; 0] 0)).
Proof.
  split; [|split].
  - apply (veh_predict_layout crossroad (fun _ => []) (model_of "left" 0) [5; 6; 3; 90]).
    reflexivity.
  - apply (veh_predict_layout crossroad (fun _ => ["dl"; "ud"]%string)
             (model_of "left" 0) [5; 6; 3; 90]).
    simpl; lia.
  - apply (veh_predict_layout crossroad (fun _ => ["dl"]%string)
             (model_of "left" 0) [5; 6; 3; 90; 1; 1; 9; 0]).
    + discriminate.
    + simpl; lia.
Defined.

(** ** EnvironmentModel.barrier_lambda_schedule *)

(** X16.  Past [end_ite] the schedule returns [end_lambda] and divides
    nothing.  Up to [end_ite] it raises [ZeroDivisionError] when the interval
    is zero and when [max_updated_steps // interval] is zero. *)
Theorem barrier_lambda_schedule_edges (args : EnvironmentModel.args_t) (ite : Z) :
  let end_ite := snd (fst (EnvironmentModel.barrier_lambda_scheduler args)) in
  let end_lambda := snd (EnvironmentModel.barrier_lambda_scheduler args) in
  let interval := EnvironmentModel.barrier_lambda_interval args in
  ((end_ite < ite)%Z ->
   EnvironmentModel.barrier_lambda_schedule args ite = Ok end_lambda) /\
  ((ite <= end_ite)%Z -> interval = 0%Z ->
   EnvironmentModel.barrier_lambda_schedule args ite = Raise ZeroDivisionError) /\
  ((ite <= end_ite)%Z -> (EnvironmentModel.max_updated_steps args / interval = 0)%Z ->
   EnvironmentModel.barrier_lambda_schedule args ite = Raise ZeroDivisionError).
Proof.
  intros end_ite end_lambda interval.
  unfold EnvironmentModel.barrier_lambda_schedule. fold end_ite end_lambda interval.
  repeat split.
  - intro H. destruct (Z.leb_spec ite end_ite); [lia | reflexivity].
  - intros H Hi. destruct (Z.leb_spec ite end_ite); [|lia].
    unfold py_floordiv. rewrite Hi. reflexivity.
  - intros H Hq. destruct (Z.leb_spec ite end_ite); [|lia].
    unfold py_floordiv. destruct (Z.eqb_spec interval 0); [reflexivity|].
    cbv [bind]. rewrite Hq. reflexivity.
Qed.

Lemma barrier_lambda_schedule_edges_witness :
  EnvironmentModel.barrier_lambda_schedule
    {| EnvironmentModel.barrier_lambda_scheduler := (0.5, 100%Z, 0.1);
       EnvironmentModel.barrier_lambda_interval := 10%Z;
       EnvironmentModel.max_updated_steps := 100%Z |} 101 = Ok 0.1 /\
  EnvironmentModel.barrier_lambda_schedule
    {| EnvironmentModel.barrier_lambda_scheduler := (0.5, 100%Z, 0.1);
       EnvironmentModel.barrier_lambda_interval := 0%Z;
       EnvironmentModel.max_updated_steps := 100%Z |} 5 = Raise ZeroDivisionError /\
  EnvironmentModel.barrier_lambda_schedule
    {| EnvironmentModel.barrier_lambda_scheduler := (0.5, 100%Z, 0.1);
       EnvironmentModel.barrier_lambda_interval := 200%Z;
       EnvironmentModel.max_updated_steps := 100%Z |} 5 = Raise ZeroDivisionError.
Proof.
  split; [|split].
  - apply (barrier_lambda_schedule_edges
             {| EnvironmentModel.barrier_lambda_scheduler := (0.5, 100%Z, 0.1);
                EnvironmentModel.barrier_lambda_interval := 10%Z;
                EnvironmentModel.max_updated_steps := 100%Z |} 101). simpl; lia.
  - apply (barrier_lambda_schedule_edges
             {| EnvironmentModel.barrier_lambda_scheduler := (0.5, 100%Z, 0.1);
                EnvironmentModel.barrier_lambda_interval := 0%Z;
                EnvironmentModel.max_updated_steps := 100%Z |} 5);
      [simpl; lia | reflexivity].
  - apply (barrier_lambda_schedule_edges
             {| EnvironmentModel.barrier_lambda_scheduler := (0.5, 100%Z, 0.1);
                EnvironmentModel.barrier_lambda_interval := 200%Z;
                EnvironmentModel.max_updated_steps := 100%Z |} 5);
      [simpl; lia | reflexivity].
Defined.

(** X17.  With [0 < interval <= max_updated_steps] and
    [0 <= ite <= min end_ite max_updated_steps] the schedule returns a value
    between [end_lambda] and [init_lambda]: it is [init_lambda] during the
    first interval and [end_lambda] once [ite // interval] reaches
    [max_updated_steps // interval]. *)
Theorem barrier_lambda_schedule_bounds (args : EnvironmentModel.args_t) (ite : Z) :
  let init_lambda := fst (fst (EnvironmentModel.barrier_lambda_scheduler args)) in
  let end_ite := snd (fst (EnvironmentModel.barrier_lambda_scheduler args)) in
  let end_lambda := snd (EnvironmentModel.barrier_lambda_scheduler args) in
  let interval := EnvironmentModel.barrier_lambda_interval args in
  let max_steps := EnvironmentModel.max_updated_steps args in
  (0 < interval <= max_steps)%Z -> (0 <= ite <= end_ite)%Z -> (ite <= max_steps)%Z ->
  exists lambda,
    EnvironmentModel.barrier_lambda_schedule args ite = Ok lambda /\
    Rmin init_lambda end_lambda <= lambda <= Rmax init_lambda end_lambda /\
    ((ite < interval)%Z -> lambda = init_lambda) /\
    ((ite / interval = max_steps / interval)%Z -> lambda = end_lambda).
Proof.
  intros init_lambda end_ite end_lambda interval max_steps Hi Hite Hmax.
  unfold EnvironmentModel.barrier_lambda_schedule.
  fold init_lambda end_ite end_lambda interval max_steps.
  destruct (Z.leb_spec ite end_ite); [|lia].
  unfold py_floordiv, py_truediv.
  destruct (Z.eqb_spec interval 0); [lia|]. cbv [bind].
  assert (Hd : (1 <= max_steps / interval)%Z).
  { rewrite <- (Z.div_same interval) by lia. apply Z.div_le_mono; lia. }
  assert (Hq0 : (0 <= ite / interval)%Z) by (apply Z.div_pos; lia).
  assert (Hq1 : (ite / interval <= max_steps / interval)%Z)
    by (apply Z.div_le_mono; lia).
  destruct (Z.eqb_spec (max_steps / interval) 0); [lia|].
  set (q := (ite / interval)%Z) in *. set (d := (max_steps / interval)%Z) in *.
  assert (Rd : 1 <= IZR d) by (apply IZR_le in Hd; exact Hd).
  assert (Rq0 : 0 <= IZR q) by (apply IZR_le in Hq0; exact Hq0).
  assert (Rq1 : IZR q <= IZR d) by (apply IZR_le, Hq1).
  assert (Hf : 0 <= IZR q / IZR d <= 1).
  { replace (IZR q) with (IZR q * 1) by lra.
    unfold Rdiv. rewrite Rmult_assoc, Rmult_1_l. fold (Rdiv (IZR q) (IZR d)).
    apply quotient_bounds; lra. }
  eexists. split; [reflexivity|]. split; [|split].
  - unfold Rmin, Rmax. destruct (Rle_dec init_lambda end_lambda); split; nra.
  - intro Hlt. assert (q = 0%Z) as -> by (apply Z.div_small; lia).
    unfold Rdiv. rewrite Rmult_0_l. lra.
  - intro He. fold q d in He. rewrite He.
    unfold Rdiv. rewrite Rinv_r by lra. lra.
Qed.

Lemma barrier_lambda_schedule_bounds_witness :
  exists lambda,
    EnvironmentModel.barrier_lambda_schedule
      {| EnvironmentModel.barrier_lambda_scheduler := (0.5, 100%Z, 0.1);
         EnvironmentModel.barrier_lambda_interval := 10%Z;
         EnvironmentModel.max_updated_steps := 100%Z |} 35 = Ok lambda /\
    Rmin 0.5 0.1 <= lambda <= Rmax 0.5 0.1 /\
    ((35 < 10)%Z -> lambda = 0.5) /\
    ((35 / 10 = 100 / 10)%Z -> lambda = 0.1).
Proof.
  apply (barrier_lambda_schedule_bounds
           {| EnvironmentModel.barrier_lambda_scheduler := (0.5, 100%Z, 0.1);
              EnvironmentModel.barrier_lambda_interval := 10%Z;
              EnvironmentModel.max_updated_steps := 100%Z |} 35); simpl; lia.
Defined.

(** ** ReferencePath.find_closest_point *)

Lemma argmin_from_spec (row pre : list R) (best_i : nat) (best : R) :
  (best_i < length pre)%nat -> nth best_i pre 0 = best ->
  (forall j, (j < length pre)%nat -> best <= nth j pre 0) ->
  (forall j, (j < best_i)%nat -> best < nth j pre 0) ->
  let k := argmin_from row (length pre) best_i best in
  (k < length (pre ++ row))%nat /\
  (forall j, (j < length (pre ++ row))%nat -> nth k (pre ++ row) 0 <= nth j (pre ++ row) 0) /\
  (forall j, (j < k)%nat -> nth k (pre ++ row) 0 < nth j (pre ++ row) 0).
Proof.
  revert pre best_i best; induction row as [|v row IH]; intros pre bi bv Hbi Hnth Hmin Hfirst.
  - cbn [argmin_from]. rewrite app_nil_r. rewrite Hnth. repeat split; assumption.
  - cbn [argmin_from].
    assert (Hsplit : pre ++ v :: row = (pre ++ [v]) ++ row)
      by (rewrite <- app_assoc; reflexivity).
    assert (Hlen : length (pre ++ [v]) = S (length pre))
      by (rewrite length_app; simpl; lia).
    assert (Hold : forall j, (j < length pre)%nat -> nth j (pre ++ [v]) 0 = nth j pre 0)
      by (intros j Hj; apply app_nth1, Hj).
    assert (Hnew : nth (length pre) (pre ++ [v]) 0 = v)
      by (rewrite app_nth2 by lia; rewrite Nat.sub_diag; reflexivity).
    rewrite Hsplit, <- Hlen.
    unfold np_lt. destruct (Rlt_dec v bv) as [Hlt|Hge].
    + apply IH.
      * lia.
      * exact Hnew.
      * intros j Hj. destruct (Nat.eq_dec j (length pre)) as [->|Hne].
        -- rewrite Hnew. lra.
        -- rewrite Hold by lia. specialize (Hmin j). assert (bv <= nth j pre 0) by (apply Hmin; lia). lra.
      * intros j Hj. rewrite Hold by lia.
        assert (bv <= nth j pre 0) by (apply Hmin; lia). lra.
    + apply IH.
      * lia.
      * rewrite Hold by lia. exact Hnth.
      * intros j Hj. destruct (Nat.eq_dec j (length pre)) as [->|Hne].
        -- rewrite Hnew. lra.
        -- rewrite Hold by lia. apply Hmin. lia.
      * intros j Hj. rewrite Hold by lia. apply Hfirst, Hj.
Qed.

Lemma np_argmin_spec (row : list R) :
  row <> [] ->
  exists k,
    np_argmin row = Ok k /\ (k < length row)%nat /\
    (forall j, (j < length row)%nat -> nth k row 0 <= nth j row 0) /\
    (forall j, (j < k)%nat -> nth k row 0 < nth j row 0).
Proof.
  intro Hne. destruct row as [|v row]; [contradiction|].
  cbn [np_argmin]. eexists. split; [reflexivity|].
  apply (argmin_from_spec row [v] 0 v).
  - simpl; lia.
  - reflexivity.
  - intros j Hj. simpl in Hj. assert (j = 0)%nat as -> by lia. simpl. lra.
  - intros j Hj. lia.
Qed.

Lemma batch_map {A B : Type} (f : A -> result B) (g : A -> B) (rows : list A) :
  (forall a, In a rows -> f a = Ok (g a)) -> batch f rows = Ok (map g rows).
Proof.
  induction rows as [|a rows IH]; intro H; [reflexivity|].
  cbn [batch map]. rewrite H by (left; reflexivity). cbv [bind].
  rewrite IH by (intros a' Ha; apply H; right; exact Ha). reflexivity.
Qed.

Lemma combine_map_same {A B C : Type} (f : A -> B) (g : A -> C) (l : list A) :
  combine (map f l) (map g l) = map (fun a => (f a, g a)) l.
Proof. induction l as [|a l IH]; [reflexivity|]. cbn [map combine]. now rewrite IH. Qed.

Lemma arange_count (len ratio : nat) :
  (1 <= len)%nat -> (1 <= ratio)%nat ->
  let cnt := ((len + ratio - 1) / ratio)%nat in
  (1 <= cnt)%nat /\
  (forall k, (k < cnt)%nat <-> (k * ratio < len)%nat).
Proof.
  intros Hl Hr cnt.
  assert (Hup : (ratio * cnt <= len + ratio - 1)%nat)
    by (apply Nat.Div0.mul_div_le).
  assert (Hlow : (len + ratio - 1 < ratio * S cnt)%nat)
    by (apply Nat.mul_succ_div_gt; lia).
  split.
  - destruct cnt; [|lia]. lia.
  - intro k. split; intro H; nia.
Qed.

Lemma nth_map_seq (f : nat -> R) (cnt j : nat) :
  (j < cnt)%nat -> nth j (map f (seq 0 cnt)) 0 = f j.
Proof.
  intro H. rewrite (nth_indep _ 0 (f 0%nat)) by (rewrite length_map, length_seq; lia).
  rewrite (map_nth f), seq_nth by lia. reflexivity.
Qed.

(** X18.  On a path with at least one sample and for a stride [ratio >= 1],
    [find_closest_point] returns an index [k * ratio] inside the path and the
    sample at that index; among the samples at the multiples of [ratio] it is
    a nearest one to the query point, and the first of the nearest ones.
    Samples between two multiples of [ratio] are not looked at. *)
Theorem find_closest_point_nearest (self : ReferencePath.t) (x y : R) (ratio : nat) :
  well_formed_path self -> (1 <= ratio)%nat ->
  exists k,
    ReferencePath.find_closest_point_row self x y ratio
    = Ok (Z.of_nat (k * ratio), point_at self (Z.of_nat (k * ratio))) /\
    (Z.of_nat (k * ratio) < ReferencePath.path_len self)%Z /\
    (forall j, (Z.of_nat (j * ratio) < ReferencePath.path_len self)%Z ->
       sq_dist_to self x y (k * ratio) <= sq_dist_to self x y (j * ratio)) /\
    (forall j, (j < k)%nat ->
       sq_dist_to self x y (k * ratio) < sq_dist_to self x y (j * ratio)).
Proof.
  intros Hwf Hr.
  pose proof (indexs2points_clamped self) as Hpts.
  unfold ReferencePath.find_closest_point_row, sq_dist_to, ReferencePath.path_len in *.
  unfold well_formed_path in Hwf.
  destruct (ReferencePath.path self) as [[xs ys] phis] eqn:Epath. cbn [fst snd] in *.
  destruct Hwf as (Hx & Hy & Hp).
  destruct (arange_count (length xs) ratio Hx Hr) as [Hcnt Hk].
  set (cnt := ((length xs + ratio - 1) / ratio)%nat) in *.
  unfold np_arange. destruct (Nat.eqb_spec ratio 0) as [e|_]; [lia|].
  cbv [bind]. fold cnt.
  assert (Hin : forall i, In i (map (fun k => (k * ratio)%nat) (seq 0 cnt)) ->
                          (i < length xs)%nat).
  { intros i Hi. apply in_map_iff in Hi. destruct Hi as (k & <- & Hk').
    apply in_seq in Hk'. apply Hk. lia. }
  rewrite (batch_map _ (fun i => nth i xs 0)).
  2:{ intros i Hi. rewrite py_index_in_range by (specialize (Hin i Hi); lia).
      now rewrite Nat2Z.id. }
  rewrite (batch_map _ (fun i => nth i ys 0)).
  2:{ intros i Hi. rewrite py_index_in_range by (specialize (Hin i Hi); lia).
      now rewrite Nat2Z.id. }
  rewrite combine_map_same, !map_map. cbn [fst snd].
  set (dist := map (fun k => np_square (x - nth (k * ratio) xs 0)
                             + np_square (y - nth (k * ratio) ys 0)) (seq 0 cnt)).
  assert (Hdl : length dist = cnt) by (unfold dist; rewrite length_map, length_seq; reflexivity).
  assert (Hdn : forall j, (j < cnt)%nat ->
            nth j dist 0 = np_square (x - nth (j * ratio) xs 0)
                           + np_square (y - nth (j * ratio) ys 0)).
  { intros j Hj. unfold dist.
    exact (nth_map_seq (fun k => np_square (x - nth (k * ratio) xs 0)
                                 + np_square (y - nth (k * ratio) ys 0)) cnt j Hj). }
  destruct (np_argmin_spec dist) as (k & -> & Hkl & Hmin & Hfirst).
  { intro E. rewrite E in Hdl. simpl in Hdl. lia. }
  rewrite Hdl in *.
  assert (Hkin : (k * ratio < length xs)%nat) by (apply Hk, Hkl).
  rewrite Hpts by (unfold well_formed_path; rewrite Epath; repeat split; assumption).
  replace (Z.max 0 (Z.min (Z.of_nat (k * ratio)) (Z.of_nat (length xs) - 1)))
    with (Z.of_nat (k * ratio)) by lia.
  exists k. split; [reflexivity|]. split; [lia|]. split.
  - intros j Hj. assert (Hjc : (j < cnt)%nat) by (apply Hk; lia).
    rewrite <- !Hdn by assumption. apply Hmin, Hjc.
  - intros j Hj. rewrite <- !Hdn by lia. apply Hfirst, Hj.
Qed.

Lemma find_closest_point_nearest_witness :
  exists k,
    ReferencePath.find_closest_point_row three_samples 1.8 0.5 2
    = Ok (Z.of_nat (k * 2), point_at three_samples (Z.of_nat (k * 2))) /\
    (Z.of_nat (k * 2) < ReferencePath.path_len three_samples)%Z /\
    (forall j, (Z.of_nat (j * 2) < ReferencePath.path_len three_samples)%Z ->
       sq_dist_to three_samples 1.8 0.5 (k * 2) <= sq_dist_to three_samples 1.8 0.5 (j * 2)) /\
    (forall j, (j < k)%nat ->
       sq_dist_to three_samples 1.8 0.5 (k * 2) < sq_dist_to three_samples 1.8 0.5 (j * 2)).
Proof.
  apply (find_closest_point_nearest three_samples 1.8 0.5 2).
  - unfold well_formed_path, three_samples; cbn; repeat split; lia.
  - lia.
Defined.

(** X19.  On an empty path [find_closest_point] raises [ValueError], the
    one of [np.argmin] on an empty row, for every stride [ratio >= 1]. *)
Theorem find_closest_point_empty_path (self : ReferencePath.t) (x y : R) (ratio : nat)
  (ys phis : list R) :
  ReferencePath.path self = ([], ys, phis) -> (1 <= ratio)%nat ->
  ReferencePath.find_closest_point_row self x y ratio = Raise ValueError.
Proof.
  intros Hp Hr. unfold ReferencePath.find_closest_point_row. rewrite Hp. cbn [fst snd length].
  unfold np_arange. destruct (Nat.eqb_spec ratio 0) as [e|_]; [lia|].
  replace ((0 + ratio - 1) / ratio)%nat with 0%nat
    by (symmetry; apply Nat.div_small; lia).
  reflexivity.
Qed.

Lemma find_closest_point_empty_path_witness :
  ReferencePath.find_closest_point_row
    {| ReferencePath.task := "left"; ReferencePath.path_list := [];
       ReferencePath.ref_index := 0; ReferencePath.path := ([], [], []) |} 1 2 10
  = Raise ValueError.
Proof.
  apply (find_closest_point_empty_path _ 1 2 10 [] []); [reflexivity | lia].
Defined.

(** ** ReferencePath.indexs2points and future_n_data, continued *)

Lemma indexs2points_empty (self : ReferencePath.t) (ys phis : list R) (i : Z) :
  ReferencePath.path self = ([], ys, phis) ->
  ReferencePath.indexs2points self i = Raise IndexError.
Proof.
  intro Hp. unfold ReferencePath.indexs2points, ReferencePath.path_len.
  rewrite Hp. cbn [fst snd length Z.of_nat].
  unfold np_where. destruct (Z.leb_spec 0 i).
  - destruct (Z.ltb_spec i 0); [lia|]. reflexivity.
  - reflexivity.
Qed.

(** X20.  [indexs2points] clamps an index into the path, for every index
    that numpy can hold as an int64: on a path with at least one sample it
    does not raise, an index inside the path returns its own sample, a
    negative index the first sample and an index past the end the last
    sample.  On an empty path every such index raises [IndexError]. *)
Theorem indexs2points_clamps (self : ReferencePath.t) (i : Z) :
  int64 i ->
  (well_formed_path self ->
   exists j,
     ReferencePath.indexs2points self i = Ok (point_at self j) /\
     (0 <= j <= ReferencePath.path_len self - 1)%Z /\
     ((0 <= i <= ReferencePath.path_len self - 1)%Z -> j = i) /\
     ((i < 0)%Z -> j = 0%Z) /\
     ((ReferencePath.path_len self <= i)%Z -> j = (ReferencePath.path_len self - 1)%Z)) /\
  (fst (fst (ReferencePath.path self)) = [] ->
   ReferencePath.indexs2points self i = Raise IndexError).
Proof.
  intros _. split.
  - intro Hwf.
    assert (Hlen : (1 <= ReferencePath.path_len self)%Z).
    { unfold ReferencePath.path_len. unfold well_formed_path in Hwf.
      destruct (ReferencePath.path self) as [[xs ys] phis]; cbn [fst snd]. lia. }
    exists (Z.max 0 (Z.min i (ReferencePath.path_len self - 1))).
    split; [apply indexs2points_clamped, Hwf|]. repeat split; lia.
  - intro He. destruct (ReferencePath.path self) as [[xs ys] phis] eqn:Ep.
    cbn [fst] in He. subst xs. apply (indexs2points_empty self ys phis i Ep).
Qed.

Lemma indexs2points_clamps_witness :
  (exists j,
     ReferencePath.indexs2points three_samples 7 = Ok (point_at three_samples j) /\
     (0 <= j <= ReferencePath.path_len three_samples - 1)%Z /\
     ((0 <= 7 <= ReferencePath.path_len three_samples - 1)%Z -> j = 7%Z) /\
     ((7 < 0)%Z -> j = 0%Z) /\
     ((ReferencePath.path_len three_samples <= 7)%Z ->
      j = (ReferencePath.path_len three_samples - 1)%Z)) /\
  ReferencePath.indexs2points
    {| ReferencePath.task := "left"; ReferencePath.path_list := [];
       ReferencePath.ref_index := 0; ReferencePath.path := ([], [], []) |} 7
  = Raise IndexError.
Proof.
  split.
  - apply (indexs2points_clamps three_samples 7).
    + unfold int64; lia.
    + unfold well_formed_path, three_samples; cbn; repeat split; lia.
  - apply (indexs2points_clamps
             {| ReferencePath.task := "left"; ReferencePath.path_list := [];
                ReferencePath.ref_index := 0; ReferencePath.path := ([], [], []) |} 7).
    + unfold int64; lia.
    + reflexivity.
Defined.

(** X21.  [future_n_data] with [n <= 0] returns the empty list, on any
    path; with [n >= 1] on an empty path it raises [IndexError]. *)
Theorem future_n_data_edges (self : ReferencePath.t) (i n : Z) :
  ((n <= 0)%Z -> ReferencePath.future_n_data self i n = Ok []) /\
  (fst (fst (ReferencePath.path self)) = [] -> (1 <= n)%Z ->
   ReferencePath.future_n_data self i n = Raise IndexError).
Proof.
  unfold ReferencePath.future_n_data. split.
  - intro H. replace (Z.to_nat n) with 0%nat by lia. reflexivity.
  - intros He Hn. destruct (Z.to_nat n) as [|k] eqn:Ek; [lia|].
    cbn [ReferencePath.future_n_loop].
    destruct (ReferencePath.path self) as [[xs ys] phis] eqn:Ep.
    cbn [fst] in He. subst xs.
    rewrite (indexs2points_empty self ys phis _ Ep). reflexivity.
Qed.

Lemma future_n_data_edges_witness :
  ReferencePath.future_n_data three_samples 0 (-3) = Ok [] /\
  ReferencePath.future_n_data
    {| ReferencePath.task := "left"; ReferencePath.path_list := [];
       ReferencePath.ref_index := 0; ReferencePath.path := ([], [], []) |} 0 2
  = Raise IndexError.
Proof.
  split.
  - apply (future_n_data_edges three_samples 0 (-3)). lia.
  - apply (future_n_data_edges
             {| ReferencePath.task := "left"; ReferencePath.path_list := [];
                ReferencePath.ref_index := 0; ReferencePath.path := ([], [], []) |} 0 2);
      [reflexivity | lia].
Defined.

(** ** ReferencePath.tracking_error_vector: two2one *)

Lemma sqrt_axis (u : R) : 0 <= u -> sqrt (np_square u + np_square 0) = u.
Proof.
  intro H. unfold np_square. replace (u * u + 0 * 0) with (u * u) by ring.
  apply sqrt_square, H.
Qed.

(** X22.  The deviation [two2one] is zero when the ego position is the
    reference point, for every valid task, and an invalid task fails the
    assertion.  On the entry line of the crossroad, [y = -CROSSROAD_SIZE / 2],
    the radial deviation of the turning tasks equals the lateral deviation
    [ref_x - ego_x] used below the line: the two formulas meet there. *)
Theorem two2one_entry_line (O : outside) (self : ReferencePath.t) (ego_x ref_x : R) :
  let CS := CROSSROAD_SIZE O in
  (valid_task (ReferencePath.task self) ->
   forall x y, ReferencePath.two2one O self x y x y = Ok 0) /\
  (~ valid_task (ReferencePath.task self) ->
   forall x y x' y', ReferencePath.two2one O self x y x' y' = Raise AssertionError) /\
  (ReferencePath.task self = "left"%string -> - CS / 2 <= ego_x -> - CS / 2 <= ref_x ->
   ReferencePath.two2one O self ego_x (- CS / 2) ref_x (- CS / 2) = Ok (ref_x - ego_x)) /\
  (ReferencePath.task self = "right"%string -> ego_x <= CS / 2 -> ref_x <= CS / 2 ->
   ReferencePath.two2one O self ego_x (- CS / 2) ref_x (- CS / 2) = Ok (ref_x - ego_x)).
Proof.
  intro CS. unfold ReferencePath.two2one. fold CS. repeat split.
  - intros [-> | [-> | ->]] x y; cbn [String.eqb Ascii.eqb Bool.eqb]; cbv zeta;
      unfold np_where; repeat destruct (np_lt _ _); repeat destruct (np_gt _ _);
      f_equal; lra.
  - intros H x y x' y'.
    destruct (String.eqb_spec (ReferencePath.task self) "left") as [e|_];
      [exfalso; apply H; left; exact e|].
    destruct (String.eqb_spec (ReferencePath.task self) "straight") as [e|_];
      [exfalso; apply H; right; left; exact e|].
    destruct (String.eqb_spec (ReferencePath.task self) "right") as [e|_];
      [exfalso; apply H; right; right; exact e|].
    reflexivity.
  - intros -> He Hr. cbn [String.eqb Ascii.eqb Bool.eqb]. cbv zeta.
    rewrite (np_lt_false (- CS / 2) (- CS / 2)) by lra.
    rewrite (np_lt_false ego_x (- CS / 2)) by lra.
    unfold np_where.
    replace (- CS / 2 - - CS / 2) with 0 by lra.
    rewrite !sqrt_axis by lra. f_equal. lra.
  - intros -> He Hr. cbn [String.eqb Ascii.eqb Bool.eqb]. cbv zeta.
    rewrite (np_lt_false (- CS / 2) (- CS / 2)) by lra.
    unfold np_gt. rewrite (np_lt_false (CS / 2) ego_x) by lra.
    unfold np_where.
    replace (- CS / 2 - - CS / 2) with 0 by lra.
    replace (np_square (ego_x - CS / 2)) with (np_square (CS / 2 - ego_x))
      by (unfold np_square; ring).
    replace (np_square (ref_x - CS / 2)) with (np_square (CS / 2 - ref_x))
      by (unfold np_square; ring).
    rewrite !sqrt_axis by lra. f_equal. lra.
Qed.

Lemma two2one_entry_line_witness :
  ReferencePath.two2one crossroad three_samples 1.5 (-30) 1.5 (-30) = Ok 0 /\
  ReferencePath.two2one crossroad
    {| ReferencePath.task := "left"; ReferencePath.path_list := [];
       ReferencePath.ref_index := 0; ReferencePath.path := ([], [], []) |}
    1.5 (- CROSSROAD_SIZE crossroad / 2) 1.875 (- CROSSROAD_SIZE crossroad / 2)
  = Ok (1.875 - 1.5).
Proof.
  split.
  - destruct (two2one_entry_line crossroad three_samples 0 0) as (Hon & _).
    apply Hon. right; left; reflexivity.
  - destruct (two2one_entry_line crossroad
                {| ReferencePath.task := "left"; ReferencePath.path_list := [];
                   ReferencePath.ref_index := 0; ReferencePath.path := ([], [], []) |}
                1.5 1.875) as (_ & _ & Hleft & _).
    apply Hleft.
    + reflexivity.
    + unfold crossroad; simpl; lra.
    + unfold crossroad; simpl; lra.
Defined.

(** ** deal_with_phi_diff, continued *)

Lemma deal_with_phi_diff1_odd (d : R) :
  deal_with_phi_diff1 (- d) = - deal_with_phi_diff1 d.
Proof. unfold deal_with_phi_diff1; np_cases; lra. Qed.

Lemma deal_with_phi_diff1_shift (d : R) :
  deal_with_phi_diff1 d = d \/ deal_with_phi_diff1 d = d - 360 \/
  deal_with_phi_diff1 d = d + 360.
Proof.
  unfold deal_with_phi_diff1; np_cases;
    first [left; lra | right; left; lra | right; right; lra].
Qed.

(** X23.  [deal_with_phi_diff] keeps the length of the batch, moves each
    element by -360, 0 or 360, and is odd: the wrapped difference of the
    negated batch is the negated wrapped difference. *)
Theorem deal_with_phi_diff_odd (phi_diff : list R) :
  length (deal_with_phi_diff phi_diff) = length phi_diff /\
  Forall2 (fun d w => w = d \/ w = d - 360 \/ w = d + 360)
          phi_diff (deal_with_phi_diff phi_diff) /\
  deal_with_phi_diff (map Ropp phi_diff) = map Ropp (deal_with_phi_diff phi_diff).
Proof.
  unfold deal_with_phi_diff. split; [apply length_map|]. split.
  - induction phi_diff as [|d ds IH]; simpl; constructor;
      [apply deal_with_phi_diff1_shift | exact IH].
  - rewrite !map_map. apply map_ext. intro d. apply deal_with_phi_diff1_odd.
Qed.
